(** * Interview scheduler ([app.py])

    A shallow embedding of the scheduler's data functions
    ([clean_dataframe], [load_data_from_google], [initialize_session],
    [refresh_data]), of its
    conflict-aware save protocol ([save_with_conflict_detection]), of the
    add-booking form, of the two calendar exporters
    ([generate_visual_pdf], [generate_visual_excel]) and of the other
    handlers of the script (calendar view, edit grid, import), followed by
    the properties established about them.

    Conventions.
    - A Python exception is identified with [str(e)], the only thing the
      handlers of [app.py] look at.
    - Strings are byte strings; the digit class of the [strptime] patterns is
      the ASCII one.
    - [pd.to_datetime] without a format is elementwise here: the date parser
      it delegates to is a parameter ([dateutil_parse]), as is the text
      pandas prints for a [Timestamp] ([ts_str]). *)

From Stdlib Require Import ZArith Lia String Ascii.
From stdpp Require Import base strings list gmap sorting pretty.

Local Open Scope Z_scope.

(* ================================================================== *)
(** * Python values                                                    *)
(* ================================================================== *)

(** [pd.Timestamp]: civil fields, with the UTC offset (in minutes) of a
    timezone-aware value. *)
Record Timestamp := mkTs {
  year : Z; month : Z; day : Z;
  hour : Z; minute : Z; second : Z; microsecond : Z;
  tz : option Z
}.

#[global] Instance Timestamp_eq_dec : EqDecision Timestamp.
Proof. solve_decision. Defined.

(** The values a cell of a frame holds: a [str], a missing value in one of
    its four pandas spellings, or a timestamp. *)
Inductive cell :=
  | CStr (s : string)
  | CNaN
  | CNone
  | CNA
  | CNaT
  | CTs (t : Timestamp).

#[global] Instance cell_eq_dec : EqDecision cell.
Proof. solve_decision. Defined.

(** [pd.notna] / [pd.isna] on a scalar. *)
Definition notna (c : cell) : bool :=
  match c with
  | CStr _ | CTs _ => true
  | CNaN | CNone | CNA | CNaT => false
  end.

(** Rows are keyed by column name; a key that is absent reads as NaN, which
    is how [pd.concat] and the frame constructor pad a missing field. *)
Record DataFrame := mkDf {
  columns : list string;
  rows : list (gmap string cell)
}.

#[global] Instance DataFrame_eq_dec : EqDecision DataFrame.
Proof. solve_decision. Defined.

Definition get (r : gmap string cell) (c : string) : cell :=
  default CNaN (r !! c).

(** [df.empty]: some axis has length zero. *)
Definition df_empty (df : DataFrame) : bool :=
  match rows df, columns df with
  | [], _ | _, [] => true
  | _, _ => false
  end.

(** [col in df.columns] *)
Definition has_column (c : string) (df : DataFrame) : bool :=
  bool_decide (c ∈ columns df).

(** [df[c] = f(df[c])] for an elementwise [f], on a column that exists. *)
Definition col_map (f : cell → cell) (c : string) (df : DataFrame) : DataFrame :=
  mkDf (columns df) ((λ r, <[c := f (get r c)]> r) <$> rows df).

(** An elementwise operation of the whole frame ([astype], [fillna]). *)
Definition frame_map (f : cell → cell) (df : DataFrame) : DataFrame :=
  foldl (λ d c, col_map f c d) df (columns df).

(** [df[c] = v] for a scalar [v]: the column is appended when it is new. *)
Definition set_scalar (c : string) (v : cell) (df : DataFrame) : DataFrame :=
  mkDf (if has_column c df then columns df else columns df ++ [c])
       ((λ r, <[c := v]> r) <$> rows df).

(** [pd.DataFrame(columns=[...])] *)
Definition empty_frame (cols : list string) : DataFrame := mkDf cols [].

(** [pd.concat([a, b], ignore_index=True)]: the columns of [a], then those
    only [b] has; the rows of [a], then the rows of [b]. *)
Definition pd_concat (a b : DataFrame) : DataFrame :=
  mkDf (columns a ++ filter (λ c, c ∉ columns a) (columns b))
       (rows a ++ rows b).

(** A computation that returns or raises an [Exception]. *)
Inductive Result (A : Type) :=
  | Ok (a : A)
  | Raise (e : string).
Arguments Ok {A} a.
Arguments Raise {A} e.

#[global] Instance Result_ret : MRet Result := @Ok.
#[global] Instance Result_bind : MBind Result :=
  λ A B f x, match x with Ok a => f a | Raise e => Raise e end.

(* ================================================================== *)
(** * Calendar arithmetic and formatting                               *)
(* ================================================================== *)

(** Days since 1970-01-01 of a civil date (proleptic Gregorian). *)
Definition days_from_civil (y m d : Z) : Z :=
  let y' := if m <=? 2 then y - 1 else y in
  let era := y' / 400 in
  let yoe := y' - era * 400 in
  let doy := (153 * (m + (if 2 <? m then -3 else 9)) + 2) / 5 + d - 1 in
  let doe := yoe * 365 + yoe / 4 - yoe / 100 + doy in
  era * 146097 + doe - 719468.

(** [datetime.date(y, m, d).weekday()]: Monday is 0. *)
Definition weekday (y m d : Z) : Z := (days_from_civil y m d + 3) `mod` 7.

Definition isleap (y : Z) : bool :=
  (y `mod` 4 =? 0) && (negb (y `mod` 100 =? 0) || (y `mod` 400 =? 0)).

(** [calendar.monthrange(y, m)[1]] *)
Definition days_in_month (y m : Z) : Z :=
  if m =? 2 then (if isleap y then 29 else 28)
  else if (m =? 4) || (m =? 6) || (m =? 9) || (m =? 11) then 30
  else 31.

(** Microseconds of the wall clock since the epoch: the order of naive
    timestamps, and of aware ones of one zone. *)
Definition wall_us (t : Timestamp) : Z :=
  (((days_from_civil (year t) (month t) (day t) * 24 + hour t) * 60
    + minute t) * 60 + second t) * 1000000 + microsecond t.

(** [t.tz_localize(None)]: drop the zone, keep the wall clock. *)
Definition tz_localize_none (t : Timestamp) : Timestamp :=
  mkTs (year t) (month t) (day t) (hour t) (minute t) (second t)
       (microsecond t) None.

(** [a > b] on timestamps that are both naive. *)
Definition ts_gt (a b : Timestamp) : bool := wall_us b <? wall_us a.

(** [f"{n:02d}"] and [%m], [%d], [%H], [%M], [%S] for [0 <= n]. *)
Definition pad2 (n : Z) : string :=
  if n <? 10 then "0" +:+ pretty n else pretty n.

(** [f"{y}-{m:02d}-{d:02d}"]; also [strftime('%Y-%m-%d')] on the years a
    [Timestamp] spans, which all have four digits. *)
Definition day_str (y m d : Z) : string :=
  pretty y +:+ "-" +:+ pad2 m +:+ "-" +:+ pad2 d.

Definition strftime_ymd (t : Timestamp) : string :=
  day_str (year t) (month t) (day t).

Definition strftime_HM (t : Timestamp) : string :=
  pad2 (hour t) +:+ ":" +:+ pad2 (minute t).

(** [strftime('%Y-%m-%d %H:%M:%S')] *)
Definition strftime_ymd_HMS (t : Timestamp) : string :=
  strftime_ymd t +:+ " " +:+ pad2 (hour t) +:+ ":" +:+ pad2 (minute t)
    +:+ ":" +:+ pad2 (second t).

(* ================================================================== *)
(** * Parsing with an explicit format                                  *)
(* ================================================================== *)

(** [s.split(sep)] *)
Fixpoint split_on (sep : ascii) (s : string) : list string :=
  match s with
  | EmptyString => [EmptyString]
  | String a s' =>
      if decide (a = sep) then EmptyString :: split_on sep s'
      else match split_on sep s' with
           | w :: ws => String a w :: ws
           | [] => [String a EmptyString]
           end
  end.

(** One or two decimal digits: what [%H] and [%M] match. *)
Definition parse_digits12 (s : string) : option Z :=
  match s with
  | String a EmptyString => Z.of_nat <$> Ascii.is_nat a
  | String a (String b EmptyString) =>
      x ← Ascii.is_nat a; y ← Ascii.is_nat b; Some (Z.of_nat (10 * x + y)%nat)
  | _ => None
  end.

(** A time of day parsed without a date lands on 1900-01-01. *)
Definition time_of_day (h m : Z) : option Timestamp :=
  if (h <=? 23) && (m <=? 59) then Some (mkTs 1900 1 1 h m 0 0 None) else None.

(** [format='%H:%M:00'], exact match. *)
Definition strptime_HM00 (s : string) : option Timestamp :=
  match split_on ":" s with
  | [h; m; z] =>
      if decide (z = "00") then
        h ← parse_digits12 h; m ← parse_digits12 m; time_of_day h m
      else None
  | _ => None
  end.

(** [format='%H:%M'], exact match. *)
Definition strptime_HM (s : string) : option Timestamp :=
  match split_on ":" s with
  | [h; m] => h ← parse_digits12 h; m ← parse_digits12 m; time_of_day h m
  | _ => None
  end.

(** [needle in hay] *)
Fixpoint contains (needle hay : string) : bool :=
  String.prefix needle hay
  || match hay with
     | EmptyString => false
     | String _ hay' => contains needle hay'
     end.

(* ================================================================== *)
(** * pandas: the two library functions left as parameters             *)
(* ================================================================== *)

Class Pandas := {
  (** the date-string parser behind [pd.to_datetime(s, errors='coerce')]
      when no format is given; [None] is the coerced failure *)
  dateutil_parse : string → option Timestamp;
  (** the text of a timestamp under [astype(str)] *)
  ts_str : Timestamp → string
}.

Section DataFunctions.
Context `{Pandas}.

(** The spellings pandas reads as NaT before any parsing is attempted. *)
Definition nat_strings : list string :=
  [""; "NaT"; "nat"; "NAT"; "nan"; "NaN"; "NAN"].

Definition to_datetime (s : string) : option Timestamp :=
  if bool_decide (s ∈ nat_strings) then None else dateutil_parse s.

(** [str(x)], as [astype(str)] applies it. *)
Definition str (c : cell) : string :=
  match c with
  | CStr s => s
  | CNaN => "nan"
  | CNone => "None"
  | CNA => "<NA>"
  | CNaT => "NaT"
  | CTs t => ts_str t
  end.

Definition astype_str (c : cell) : cell := CStr (str c).

(** [.replace(['NaT', 'nan', 'None', '<NA>'], '')] *)
Definition replace_sentinels (c : cell) : cell :=
  match c with
  | CStr s =>
      if bool_decide (s ∈ ["NaT"; "nan"; "None"; "<NA>"]) then CStr "" else c
  | _ => c
  end.

(** [pd.to_datetime(col, errors='coerce')] with parser [p] on one element. *)
Definition to_datetime_with (p : string → option Timestamp) (c : cell) : cell :=
  match c with
  | CStr s => match p s with Some t => CTs t | None => CNaT end
  | CTs t => CTs t
  | _ => CNaT
  end.

(** [a.fillna(b)] on one element. *)
Definition fillna_with (a b : cell) : cell := if notna a then a else b.

(** [.dt.strftime(fmt)] on one element: NaT becomes NaN. *)
Definition dt_strftime (fmt : Timestamp → string) (c : cell) : cell :=
  match c with
  | CTs t => CStr (fmt t)
  | _ => CNaN
  end.

Definition normalize_date (c : cell) : cell :=
  dt_strftime strftime_ymd (to_datetime_with to_datetime c).

Definition normalize_time (c : cell) : cell :=
  dt_strftime strftime_HM
    (fillna_with (to_datetime_with strptime_HM00 c)
                 (to_datetime_with strptime_HM c)).

(** [df.fillna("")] on one element. *)
Definition fillna_empty (c : cell) : cell := if notna c then c else CStr "".

(** [df[c] = f(df[c])]: reading a column that does not exist is a
    [KeyError], whose text is the quoted key. *)
Definition key_error (c : string) : string := "'" +:+ c +:+ "'".

Definition assign_from_column (f : cell → cell) (c : string) (df : DataFrame)
  : Result DataFrame :=
  if has_column c df then Ok (col_map f c df) else Raise (key_error c).

(** [clean_dataframe], lines 34-59.  The first statement rebinds [df] to the
    frame [astype] returns, so the argument itself is never written to. *)
Definition clean_dataframe (df : DataFrame) : Result DataFrame :=
  let df := frame_map astype_str df in
  let df := foldl (λ d col,
                     if bool_decide (col ∉ ["LastUpdated"])
                     then col_map replace_sentinels col d else d)
                  df (columns df) in
  df ← assign_from_column normalize_date "Date" df;
  df ← assign_from_column normalize_time "Time" df;
  let df := frame_map fillna_empty df in
  let df := if has_column "LastUpdated" df then df
            else set_scalar "LastUpdated" CNaT df in
  let df := col_map (to_datetime_with to_datetime) "LastUpdated" df in
  Ok df.

(** [df[c].max()] on a datetime column: missing values are skipped, and the
    result is NaT ([None]) when nothing is left. *)
Definition ts_max (a : option Timestamp) (c : cell) : option Timestamp :=
  match c, a with
  | CTs t, Some m => Some (if wall_us m <? wall_us t then t else m)
  | CTs t, None => Some t
  | _, _ => a
  end.

Definition column_max (c : string) (df : DataFrame) : option Timestamp :=
  foldl ts_max None ((λ r, get r c) <$> rows df).

End DataFunctions.

(* ================================================================== *)
(** * The Streamlit run: session state, remote sheet, control signals  *)
(* ================================================================== *)

(** Frames are objects: [st.session_state.data] and the script variable
    [df] name the same one, so frames live in a store and are referred to
    by location. *)
Definition loc := positive.

(** [st.session_state] *)
Record Session := mkSession {
  data : loc;
  (** [None] stands for both [None] and [NaT]: neither passes [pd.notna] *)
  last_cloud_timestamp : option Timestamp;
  form_id : Z
}.

(** What a run shows and what it asks of the connection, in order. *)
Inductive event :=
  | StError (msg : string)
  | StWrite (msg : string)
  | StSuccess (msg : string)
  | StToast (msg : string)
  | StButton (label : string)
  | CacheClear
  | ConnRead
  | ConnUpdate (data : DataFrame).

#[global] Instance event_eq_dec : EqDecision event.
Proof. solve_decision. Defined.

Record World := mkWorld {
  heap : gmap loc DataFrame;
  session : Session;
  (** worksheet "Sheet1" of the remote document *)
  sheet : DataFrame;
  log : list event
}.

(** What unwinds the stack.  [st.stop()] and [st.rerun()] raise script
    control exceptions, which derive from [BaseException]: an
    [except Exception] clause lets them through. *)
Inductive signal :=
  | Exception (msg : string)
  | StopException
  | RerunException.

Definition M (A : Type) : Type := World → World * (A + signal).

#[global] Instance M_ret : MRet M := λ A a w, (w, inl a).
#[global] Instance M_bind : MBind M :=
  λ A B f m w, match m w with
               | (w', inl a) => f a w'
               | (w', inr s) => (w', inr s)
               end.

Definition raise {A} (s : signal) : M A := λ w, (w, inr s).

Definition lift {A} (r : Result A) : M A :=
  match r with Ok a => mret a | Raise e => raise (Exception e) end.

(** [try: body except Exception as e: handler(e)] *)
Definition try_except {A} (body : M A) (handler : string → M A) : M A :=
  λ w, match body w with
       | (w', inr (Exception e)) => handler e w'
       | r => r
       end.

Definition emit (e : event) : M unit :=
  λ w, (mkWorld (heap w) (session w) (sheet w) (log w ++ [e]), inl tt).

Definition get_session : M Session := λ w, (w, inl (session w)).

Definition set_session (s : Session) : M unit :=
  λ w, (mkWorld (heap w) s (sheet w) (log w), inl tt).

(** A new frame object. *)
Definition alloc (df : DataFrame) : M loc :=
  λ w, let l := fresh (dom (heap w)) in
       (mkWorld (<[l := df]> (heap w)) (session w) (sheet w) (log w), inl l).

Definition deref (l : loc) : M DataFrame :=
  λ w, (w, inl (default (empty_frame []) (heap w !! l))).

(** In-place update of a frame object. *)
Definition store (l : loc) (df : DataFrame) : M unit :=
  λ w, (mkWorld (<[l := df]> (heap w)) (session w) (sheet w) (log w), inl tt).

Definition st_stop {A} : M A := raise StopException.
Definition st_rerun {A} : M A := raise RerunException.

(** [st.button(label)]: renders the button and tells whether this run was
    triggered by a click on it. *)
Definition button (label : string) (clicked : bool) : M bool :=
  emit (StButton label);; mret clicked.

(** [conn.read(worksheet="Sheet1", ttl=0)]: the stored table, unless the
    service fails with [fault]. *)
Definition conn_read (fault : option string) : M DataFrame :=
  emit ConnRead;;
  match fault with
  | Some e => raise (Exception e)
  | None => λ w, (w, inl (sheet w))
  end.

(** [conn.update(worksheet="Sheet1", data=df)]: replaces the stored table,
    unless the service fails with [fault]. *)
Definition conn_update (fault : option string) (df : DataFrame) : M unit :=
  emit (ConnUpdate df);;
  match fault with
  | Some e => raise (Exception e)
  | None => λ w, (mkWorld (heap w) (session w) df (log w), inl tt)
  end.

Definition schema : list string :=
  ["Name"; "ID"; "Date"; "Time"; "Notes"; "LastUpdated"].

Section App.
Context `{Pandas}.

(** The text [st.error] shows at lines 68-71. *)
Definition load_error_message (e : string) : string :=
  if contains "429" e
  then "⚠️ Too many requests! Please wait 1 minute before refreshing."
  else "Database Error: " +:+ e.

(** [load_data_from_google], lines 61-72. *)
Definition load_data_from_google (fault : option string) : M DataFrame :=
  try_except
    (df ← conn_read fault;
     if df_empty df then mret (empty_frame schema)
     else lift (clean_dataframe df))
    (λ e,
       emit (StError (load_error_message e));;
       mret (empty_frame schema)).

(** [initialize_session], lines 74-85.  The three keys of
    [st.session_state] are only ever set together, so [first_run] says
    whether they are missing; when they are, the session record of the
    world holds nothing yet and is not read. *)
Definition initialize_session (first_run : bool) (fault : option string)
  : M unit :=
  if first_run then
    new_data ← load_data_from_google fault;
    l ← alloc new_data;
    set_session
      (mkSession l
         (if negb (df_empty new_data) && has_column "LastUpdated" new_data
          then column_max "LastUpdated" new_data
          else None)
         0)
  else mret tt.

(** [refresh_data], lines 87-96. *)
Definition refresh_data (force : bool) (fault : option string) : M unit :=
  emit CacheClear;;
  new_data ← load_data_from_google fault;
  l ← alloc new_data;
  s ← get_session;
  set_session (mkSession l (last_cloud_timestamp s) (form_id s));;
  (if negb (df_empty new_data) && has_column "LastUpdated" new_data
   then s ← get_session;
        set_session (mkSession (data s) (column_max "LastUpdated" new_data)
                               (form_id s))
   else mret tt);;
  emit (StToast "Data refreshed from Cloud");;
  if force then st_rerun else mret tt.

(** What one call of [save_with_conflict_detection] meets: the outcome of
    its network calls, the clicks that triggered the run, and the clock. *)
Record SaveEnv := mkSaveEnv {
  read_fault : option string;
  reload_clicked : bool;
  force_clicked : bool;
  reload_read_fault : option string;
  now : Timestamp;
  update_fault : option string
}.

(** The test of line 113, on the two localized timestamps. *)
Definition conflict (user_latest_ts cloud_latest_ts : option Timestamp) : bool :=
  match user_latest_ts, cloud_latest_ts with
  | Some u, Some c => ts_gt c u
  | _, _ => false
  end.

Definition conflict_message : string :=
  "⚠️ 儲存失敗：檢測到雲端資料已被其他人修改！".
Definition reload_label : string := "🔄 放棄修改並重新載入".
Definition force_label : string := "⚠️ 強制覆蓋 (可能遺失他人修改)".

Definition show_ts (t : option Timestamp) : string :=
  match t with Some t => ts_str t | None => "NaT" end.

(** Lines 101-111: the fresh remote maximum and the session watermark, both
    made timezone-naive. *)
Definition fetch_cloud_latest_ts (fault : option string) : M (option Timestamp) :=
  latest_cloud ← load_data_from_google fault;
  mret (if negb (df_empty latest_cloud) && has_column "LastUpdated" latest_cloud
        then tz_localize_none <$> column_max "LastUpdated" latest_cloud
        else None).

(** Lines 113-125.  Returns whether the function goes on to the write;
    [false] is the [return] after a reload. *)
Definition resolve_conflict (env : SaveEnv)
    (user_latest_ts cloud_latest_ts : option Timestamp) : M bool :=
  if conflict user_latest_ts cloud_latest_ts then
    emit (StError conflict_message);;
    emit (StWrite ("雲端最新: " +:+ show_ts cloud_latest_ts));;
    emit (StWrite ("本地基準: " +:+ show_ts user_latest_ts));;
    reload ← button reload_label (reload_clicked env);
    if (reload : bool) then
      refresh_data true (reload_read_fault env);; mret false
    else
      force ← button force_label (force_clicked env);
      if (force : bool) then mret true else st_stop
  else mret true.

(** Lines 130-136. *)
Definition stamp (current_time : Timestamp) (c : DataFrame) : DataFrame :=
  set_scalar "LastUpdated" (CTs current_time) c.

Definition to_upload (clean_df : DataFrame) : DataFrame :=
  col_map (dt_strftime strftime_ymd_HMS) "LastUpdated" clean_df.

(** Lines 127-144. *)
Definition write_snapshot (env : SaveEnv) (new_df : DataFrame) : M unit :=
  let current_time := now env in
  c ← lift (clean_dataframe new_df);
  let clean_df := stamp current_time c in
  let upload_df := to_upload clean_df in
  conn_update (update_fault env) upload_df;;
  l ← alloc clean_df;
  s ← get_session;
  set_session (mkSession l (Some current_time) (form_id s));;
  emit (StSuccess "✅ 儲存成功！雲端資料已更新。");;
  st_rerun.

(** Lines 146-151. *)
Definition save_failed (e : string) : M unit :=
  if contains "429" e
  then emit (StError "⚠️ 儲存失敗：請求過多，請等待 60 秒後再試。")
  else emit (StError ("儲存失敗：" +:+ e));;
       emit (StWrite "詳細錯誤資訊：");;
       emit (StWrite e).

(** [save_with_conflict_detection], lines 99-151. *)
Definition save_with_conflict_detection (env : SaveEnv) (new_df : DataFrame)
  : M unit :=
  try_except
    (cloud_latest_ts ← fetch_cloud_latest_ts (read_fault env);
     s ← get_session;
     let user_latest_ts := tz_localize_none <$> last_cloud_timestamp s in
     proceed ← resolve_conflict env user_latest_ts cloud_latest_ts;
     if (proceed : bool) then write_snapshot env new_df else mret tt)
    save_failed.

End App.

(* ================================================================== *)
(** * The add-booking form (lines 320-352)                             *)
(* ================================================================== *)

Section AddBooking.
Context `{Pandas}.

(** The value of [st.date_input]. *)
Record Date := mkDate { dyear : Z; dmonth : Z; dday : Z }.

(** [d.strftime("%Y-%m-%d")] *)
Definition date_strftime (d : Date) : string :=
  day_str (dyear d) (dmonth d) (dday d).

(** [df[c]], which raises a [KeyError] when there is no such column. *)
Definition getitem (c : string) (df : DataFrame) : Result (list cell) :=
  if has_column c df then Ok ((λ r, get r c) <$> rows df)
  else Raise (key_error c).

(** [len(df[(df['Date'] == check_date) & (df['Time'] == t_str)])] *)
Definition existing_count (df : DataFrame) (check_date t_str : string)
  : Result Z :=
  dates ← getitem "Date" df;
  times ← getitem "Time" df;
  Ok (Z.of_nat (length (filter (λ dt, dt.1 = CStr check_date ∧ dt.2 = CStr t_str)
                               (zip dates times)))).

Definition slot_full_message (check_date t_str : string) (count limit : Z)
  : string :=
  "⛔ Slot " +:+ check_date +:+ " " +:+ t_str +:+ " is FULL! ("
    +:+ pretty count +:+ "/" +:+ pretty limit +:+ ")".

(** The body of [if st.form_submit_button("Save")], with [df] the script's
    alias of the session snapshot. *)
Definition add_booking_submit (df : loc) (limit : Z)
    (name c_id : string) (d : Date) (t_str notes : string) (env : SaveEnv)
  : M unit :=
  if decide (name = "") then emit (StError "Name/Subject required")
  else
    frame ← deref df;
    limit_reached ←
      (if 0 <? limit then
         let check_date := date_strftime d in
         count ← lift (existing_count frame check_date t_str);
         if limit <=? count then
           emit (StError (slot_full_message check_date t_str count limit));;
           mret true
         else mret false
       else mret false);
    if (limit_reached : bool) then mret tt
    else
      let new_row :=
        mkDf schema
             [ {[ "Name" := CStr name; "ID" := CStr c_id;
                  "Date" := CStr (date_strftime d); "Time" := CStr t_str;
                  "Notes" := CStr notes; "LastUpdated" := CNaT ]} ] in
      let new_df := pd_concat frame new_row in
      save_with_conflict_detection env new_df;;
      s ← get_session;
      set_session (mkSession (data s) (last_cloud_timestamp s) (form_id s + 1)).

End AddBooking.

(* ================================================================== *)
(** * Calendar export (lines 154-267)                                  *)
(* ================================================================== *)

(** [calendar.Calendar(firstweekday).itermonthdays(y, m)] *)
Definition itermonthdays (firstweekday y m : Z) : list Z :=
  let day1 := weekday y m 1 in
  let ndays := days_in_month y m in
  let days_before := (day1 - firstweekday) `mod` 7 in
  let days_after := (firstweekday - day1 - ndays) `mod` 7 in
  replicate (Z.to_nat days_before) 0 ++ seqZ 1 ndays
    ++ replicate (Z.to_nat days_after) 0.

(** [[l[i:i+n] for i in range(0, len(l), n)]] *)
Fixpoint chunks {A} (fuel n : nat) (l : list A) : list (list A) :=
  match fuel, l with
  | O, _ | _, [] => []
  | S fuel', _ => take n l :: chunks fuel' n (drop n l)
  end.

Definition monthdayscalendar (firstweekday y m : Z) : list (list Z) :=
  let days := itermonthdays firstweekday y m in
  chunks (length days) 7 days.

(** A row together with its index label. *)
Definition entry : Type := nat * gmap string cell.

Definition with_index (df : DataFrame) : list entry :=
  imap (λ i r, (i, r)) (rows df).

(** The order [sort_values('Time')] puts the cells in: strings by code
    point, whatever is missing last. *)
Definition sort_le (a b : cell) : Prop :=
  match a, b with
  | CStr x, CStr y => (x ≤ y)%string
  | CStr _, _ => True
  | _, CStr _ => False
  | _, _ => True
  end.

#[global] Instance sort_le_dec : RelDecision sort_le.
Proof. intros [] []; simpl; apply _. Defined.

Definition time_le (a b : entry) : Prop :=
  sort_le (get a.2 "Time") (get b.2 "Time").

#[global] Instance time_le_dec : RelDecision time_le.
Proof. intros a b; unfold time_le; apply _. Defined.

(** [df[df['Date'] == day_str].sort_values('Time')] *)
Definition day_data_of (rs : list entry) (ds : string) : list entry :=
  merge_sort time_le (filter (λ e, get e.2 "Date" = CStr ds) rs).

(** A month, as [to_period('M')] gives it. *)
Definition period : Type := Z * Z.

Definition to_period (c : cell) : option period :=
  match c with
  | CTs t => Some (year t, month t)
  | _ => None
  end.

Definition period_le (p q : period) : Prop :=
  p.1 < q.1 ∨ (p.1 = q.1 ∧ p.2 ≤ q.2).

#[global] Instance period_le_dec : RelDecision period_le.
Proof. intros p q; unfold period_le; apply _. Defined.

(** [sorted(col.dt.to_period('M').dropna().unique())] *)
Definition months_of (dts : list cell) : list period :=
  merge_sort period_le (remove_dups (omap to_period dts)).

(** One cell of a month grid: the day number (0 outside the month) and the
    rows listed in it. *)
Record day_cell := mkCell { cell_day : Z; day_data : list entry }.

(** The weeks of one month, each day with the rows of [rs] dated that day. *)
Definition month_grid (rs : list entry) (p : period) : list (list day_cell) :=
  (λ week : list Z,
     (λ d, mkCell d (if d =? 0 then []
                     else day_data_of rs (day_str p.1 p.2 d))) <$> week)
    <$> monthdayscalendar 6 p.1 p.2.

Definition month_name (m : Z) : string :=
  default "" (["January"; "February"; "March"; "April"; "May"; "June"; "July";
               "August"; "September"; "October"; "November"; "December"]
              !! Z.to_nat (m - 1)).

(** [period.strftime('%B %Y')] *)
Definition period_title (p : period) : string :=
  month_name p.2 +:+ " " +:+ pretty p.1.

Definition join_lines (ls : list string) : string :=
  match ls with
  | [] => ""
  | l :: ls => foldl (λ acc x, acc +:+ "
" +:+ x) l ls
  end.

(** [s.replace("\n", "<br/>")] *)
Fixpoint br (s : string) : string :=
  match s with
  | EmptyString => EmptyString
  | String a s' =>
      if decide (a = "010"%char) then "<br/>" +:+ br s' else String a (br s')
  end.

Definition max_list (l : list Z) : Z := foldl Z.max 0 l.

Section CalendarExport.
Context `{Pandas}.

(** [x + y] on two cells of object columns: text is concatenated, a missing
    operand gives NaN, anything else is a [TypeError]. *)
Definition add_cells (a b : cell) : Result cell :=
  match a, b with
  | CStr x, CStr y => Ok (CStr (x +:+ y))
  | _, _ =>
      if notna a && notna b
      then Raise "unsupported operand type(s) for +: 'Timestamp' and 'str'"
      else Ok CNaN
  end.

(** One element of [pd.to_datetime(df['Date'] + " " + df['Time'],
    errors='coerce')]. *)
Definition combined_dt (r : gmap string cell) : Result cell :=
  x ← add_cells (get r "Date") (CStr " ");
  y ← add_cells x (get r "Time");
  Ok (to_datetime_with to_datetime y).

(** The frame after [df['dt'] = ...]. *)
Definition with_dt (df : DataFrame) : Result DataFrame :=
  _ ← getitem "Date" df;
  _ ← getitem "Time" df;
  rs ← mapM (λ r, c ← combined_dt r; Ok (<["dt" := c]> r)) (rows df);
  Ok (mkDf (if has_column "dt" df then columns df else columns df ++ ["dt"]) rs).

(** [df.dropna(subset=['dt'])], a new frame that keeps the index labels. *)
Definition dropna_dt (rs : list entry) : list entry :=
  filter (λ e, notna (get e.2 "dt") = true) rs.

Definition dt_column (rs : list entry) : list cell := (λ e, get e.2 "dt") <$> rs.

(** The month grids of the PDF: rows without a [dt] are dropped first. *)
Definition pdf_grids (df : DataFrame) : list (period * list (list day_cell)) :=
  let kept := dropna_dt (with_index df) in
  (λ p, (p, month_grid kept p)) <$> months_of (dt_column kept).

(** The month grids of the workbook: the months come from the rows that
    have a [dt], the cells are filled from the whole frame. *)
Definition excel_grids (df : DataFrame) : list (period * list (list day_cell)) :=
  let all := with_index df in
  (λ p, (p, month_grid all p)) <$> months_of (dt_column all).

(** One page of the PDF: the title, the table and its row heights. *)
Record pdf_page := mkPage {
  page_title : string;
  table_data : list (list string);
  row_heights : list Z
}.

Definition pdf_cell_text (c : day_cell) : string :=
  if cell_day c =? 0 then ""
  else
    let lines := (λ e, str (get e.2 "Name") +:+ "
" +:+ str (get e.2 "Time")) <$> day_data c in
    let cell_text := "<b>" +:+ pretty (cell_day c) +:+ "</b>" in
    br (if decide (day_data c = []) then cell_text
        else cell_text +:+ "

" +:+ join_lines lines).

Definition max_entries (week : list day_cell) : Z :=
  max_list ((λ c, Z.of_nat (length (day_data c))) <$> week).

Definition render_pdf_page (g : period * list (list day_cell)) : pdf_page :=
  mkPage ("<b>" +:+ period_title g.1 +:+ "</b>")
         (["Sun"; "Mon"; "Tue"; "Wed"; "Thu"; "Fri"; "Sat"]
            :: ((λ week : list day_cell, pdf_cell_text <$> week) <$> g.2))
         (20 :: ((λ week : list day_cell, 40 + max_entries week * 25) <$> g.2)).

(** [generate_visual_pdf], lines 154-218; fonts and styles are left out.
    [df['dt'] = ...] writes to the caller's frame object; the [dropna] that
    follows rebinds the local name only. *)
Definition generate_visual_pdf (df : loc) : M (list pdf_page) :=
  frame ← deref df;
  frame' ← lift (with_dt frame);
  store df frame';;
  mret (render_pdf_page <$> pdf_grids frame').

(** One worksheet: its name, the title in A1, the cell values from row 3
    on ([None] for a cell never assigned) and the row heights. *)
Record worksheet := mkSheet {
  sheet_name : string;
  sheet_title : string;
  cell_values : list (list (option string));
  heights : list Z
}.

Definition excel_lines (c : day_cell) : list string :=
  (λ e, str (get e.2 "Name") +:+ " (" +:+ str (get e.2 "Time") +:+ ")")
    <$> day_data c.

Definition excel_cell_value (c : day_cell) : option string :=
  if cell_day c =? 0 then None
  else Some (pretty (cell_day c) +:+ "
" +:+ join_lines (excel_lines c)).

Definition excel_row_height (week : list day_cell) : Z :=
  let max_h :=
    foldl (λ h c, if decide (day_data c = []) then h
                  else Z.max h (Z.of_nat (length (excel_lines c)) + 1))
          1 week in
  Z.max 50 (max_h * 15).

Definition render_worksheet (g : period * list (list day_cell)) : worksheet :=
  mkSheet (pretty g.1.1 +:+ "-" +:+ pad2 g.1.2)
          (period_title g.1)
          ((λ week : list day_cell, excel_cell_value <$> week) <$> g.2)
          (excel_row_height <$> g.2).

(** [generate_visual_excel], lines 220-267; cell styles are left out. *)
Definition generate_visual_excel (df : loc) : M (list worksheet) :=
  frame ← deref df;
  frame' ← lift (with_dt frame);
  store df frame';;
  mret (render_worksheet <$> excel_grids frame').

(** Lines 271 and 398-400: the script binds [df] to the session snapshot
    and, when it has rows, builds both documents for the download buttons. *)
Definition export_tab : M (option (list pdf_page * list worksheet)) :=
  s ← get_session;
  let df := data s in
  frame ← deref df;
  if df_empty frame then mret None
  else
    pdf ← generate_visual_pdf df;
    xlsx ← generate_visual_excel df;
    mret (Some (pdf, xlsx)).

End CalendarExport.

(* ================================================================== *)
(** * The rest of the script (lines 25-28, 275-312, 354-415)           *)
(* ================================================================== *)

(** [TIME_SLOTS], lines 25-28: the times the form offers. *)
Definition TIME_SLOTS : list string :=
  h ← seqZ 9 15; m ← [0; 30]; [pad2 h +:+ ":" +:+ pad2 m].

(** [try: body except: handler].  A bare clause catches whatever is raised,
    the script control exceptions included. *)
Definition try_except_all {A} (body handler : M A) : M A :=
  λ w, match body w with
       | (w', inr _) => handler w'
       | r => r
       end.

(** One entry of the list handed to the calendar component. *)
Record calendar_event := mkEvent {
  ev_id : string;
  ev_title : cell;
  ev_start : string;
  ev_description : string
}.

Section Script.
Context `{Pandas}.

(** Lines 275-278: the text of the caption, when one is shown. *)
Definition last_updated_caption (df : DataFrame) : option string :=
  if negb (df_empty df) && has_column "LastUpdated" df then
    (λ max_ts, "📅 Last Updated: " +:+ strftime_ymd_HMS max_ts)
      <$> column_max "LastUpdated" df
  else None.

(** Lines 282-283. *)
Definition force_sync (clicked : bool) (fault : option string) : M unit :=
  c ← button "🔄 Force Sync from Cloud" clicked;
  if (c : bool) then refresh_data true fault else mret tt.

(** [row[c]] on a row of [df.iterrows()]. *)
Definition row_getitem (df : DataFrame) (r : gmap string cell) (c : string)
  : Result cell :=
  if has_column c df then Ok (get r c) else Raise (key_error c).

(** The truth value of a cell where a condition is expected: an empty
    string and [None] are false, [pd.NA] refuses to answer, any other
    object is true. *)
Definition truth (c : cell) : Result bool :=
  match c with
  | CStr s => Ok (bool_decide (s ≠ ""))
  | CNone => Ok false
  | CNA => Raise "boolean value of NA is ambiguous"
  | CNaN | CNaT | CTs _ => Ok true
  end.

(** [a and b], with [b] evaluated only when [a] is true. *)
Definition and_then (a : Result bool) (b : Result bool) : Result bool :=
  x ← a; if (x : bool) then b else Ok false.

(** Lines 293-303, for one row: the condition is outside the [try], the
    construction of the event inside it, where the bare [except] turns any
    failure into [continue]. *)
Definition event_of (df : DataFrame) (e : entry) : Result (option calendar_event) :=
  let row := row_getitem df e.2 in
  visible ←
    and_then (row "Date" ≫= truth)
      (and_then (row "Time" ≫= truth)
         (and_then (d ← row "Date"; Ok (bool_decide (0 < String.length (str d))%nat))
                   (t ← row "Time"; Ok (bool_decide (0 < String.length (str t))%nat))));
  if (visible : bool) then
    match
      (d ← row "Date"; t ← row "Time";
       name ← row "Name"; id ← row "ID"; notes ← row "Notes";
       Ok (mkEvent (pretty e.1) name (str d +:+ "T" +:+ str t)
                   ("ID: " +:+ str id +:+ " | Notes: " +:+ str notes)))
    with
    | Ok ev => Ok (Some ev)
    | Raise _ => Ok None
    end
  else Ok None.

(** Lines 289-312: the events of the calendar view, or [None] when the
    table is empty and the notice is shown instead. *)
Definition calendar_tab (df : DataFrame) : Result (option (list calendar_event)) :=
  if df_empty df then Ok None
  else evs ← mapM (event_of df) (with_index df); Ok (Some (omap id evs)).

(** [.dt.date] and [.dt.time] on one element.  A [datetime.date] is
    represented by the timestamp at midnight of that day and a
    [datetime.time] by the timestamp at that time on 1900-01-01: they
    format to the same text under every [strftime] pattern used here. *)
Definition dt_date (c : cell) : cell :=
  match c with
  | CTs t => CTs (mkTs (year t) (month t) (day t) 0 0 0 0 None)
  | _ => CNaT
  end.

Definition dt_time (c : cell) : cell :=
  match c with
  | CTs t => CTs (mkTs 1900 1 1 (hour t) (minute t) (second t)
                       (microsecond t) None)
  | _ => CNaT
  end.

(** Lines 358-360: the frame handed to the editor. *)
Definition edit_in (df : DataFrame) : Result DataFrame :=
  e ← assign_from_column (λ c, dt_date (to_datetime_with to_datetime c))
                         "Date" df;
  assign_from_column (λ c, dt_time (to_datetime_with strptime_HM c)) "Time" e.

(** [hasattr(x, 'strftime')] *)
Definition has_strftime (x : cell) : bool :=
  match x with CTs _ => true | _ => false end.

(** The lambda of lines 385 and 388, for the pattern [fmt]. *)
Definition out_text (fmt : Timestamp → string) (x : cell) : cell :=
  if notna x && has_strftime x then dt_strftime fmt x
  else if notna x && bool_decide (str x ≠ "NaT") then CStr (str x)
  else CStr "".

(** Lines 382-389. *)
Definition clean_out (out : DataFrame) : Result DataFrame :=
  o ← assign_from_column (out_text strftime_ymd) "Date" out;
  assign_from_column (out_text strftime_HM) "Time" o.

(** Lines 381-390, with [out] what the editor returned. *)
Definition save_changes (clicked : bool) (out : DataFrame) (env : SaveEnv)
  : M unit :=
  c ← button "💾 Save Changes to Cloud" clicked;
  if (c : bool) then
    o ← lift (clean_out out);
    save_with_conflict_detection env o
  else mret tt.

(** Lines 405-415, once a file is there and the button was clicked:
    [read_csv] is what [pd.read_csv(up)] comes to, [df] the script's alias
    of the session snapshot. *)
Definition import_backup (df : loc) (read_csv : Result DataFrame)
    (env : SaveEnv) : M unit :=
  try_except_all
    (imp ← lift read_csv;
     let imp := frame_map fillna_empty imp in
     if has_column "Name" imp then
       let imp := set_scalar "LastUpdated" CNaT imp in
       frame ← deref df;
       save_with_conflict_detection env (pd_concat frame imp);;
       emit (StSuccess "Imported!");;
       st_rerun
     else mret tt)
    (emit (StError "Invalid CSV")).

End Script.

(* ================================================================== *)
(** * A finite excerpt of pandas, for running the model                *)
(* ================================================================== *)

Definition ts (y m d h mi : Z) : Timestamp := mkTs y m d h mi 0 0 None.

(** What [pd.to_datetime] returns on a handful of strings. *)
Definition excerpt : list (string * Timestamp) :=
  [ ("2024-01-05", ts 2024 1 5 0 0);
    ("2024-01-05 00:00:00", ts 2024 1 5 0 0);
    ("2024-01-05 09:00", ts 2024 1 5 9 0);
    ("2024-01-05 09:00:00", ts 2024 1 5 9 0);
    ("2024-1-5 09:00", ts 2024 1 5 9 0);
    ("2024-01-05 11:00:00", ts 2024 1 5 11 0);
    ("2024-01-05 12:00:00", ts 2024 1 5 12 0);
    ("2024-02-10", ts 2024 2 10 0 0);
    ("2024-02-10 00:00:00", ts 2024 2 10 0 0);
    ("2024-02-10 10:30", ts 2024 2 10 10 30);
    ("2024-02-10 10:30:00", ts 2024 2 10 10 30) ].

Definition excerpt_parse (s : string) : option Timestamp :=
  (λ e : nat * (string * Timestamp), e.2.2) <$> list_find (λ e, e.1 = s) excerpt.

Definition excerpt_pandas : Pandas :=
  {| dateutil_parse := excerpt_parse; ts_str := strftime_ymd_HMS |}.

(* ================================================================== *)
(** * Vocabulary of the properties                                   *)
(* ================================================================== *)

Section Vocabulary.
Context `{Pandas}.

Definition row_apply (p : string → bool) (f : cell → cell)
    (cs : list string) (r : gmap string cell) : gmap string cell :=
  foldl (λ (r : gmap string cell) (c : string),
           if p c then <[c := f (get r c)]> r else r) r cs.

Definition not_last_updated (col : string) : bool :=
  bool_decide (col ∉ ["LastUpdated"]).

(** What [clean_dataframe] does to one row of a frame with columns [cs]. *)
Definition clean_row (cs : list string) (r : gmap string cell) : gmap string cell :=
  let r := row_apply (λ _, true) astype_str cs r in
  let r := row_apply not_last_updated replace_sentinels cs r in
  let r := <["Date" := normalize_date (get r "Date")]> r in
  let r := <["Time" := normalize_time (get r "Time")]> r in
  let r := row_apply (λ _, true) fillna_empty cs r in
  let r := if decide ("LastUpdated" ∈ cs) then r else <["LastUpdated" := CNaT]> r in
  <["LastUpdated" := to_datetime_with to_datetime (get r "LastUpdated")]> r.

Definition clean_columns (cs : list string) : list string :=
  if decide ("LastUpdated" ∈ cs) then cs else cs ++ ["LastUpdated"].

(** The value [clean_dataframe] leaves in column [k], from the value [x] it
    found there. *)
Definition clean_cell (k : string) (x : cell) : cell :=
  if decide (k = "LastUpdated") then to_datetime_with to_datetime (astype_str x)
  else if decide (k = "Date")
       then fillna_empty (normalize_date (replace_sentinels (astype_str x)))
  else if decide (k = "Time")
       then fillna_empty (normalize_time (replace_sentinels (astype_str x)))
  else fillna_empty (replace_sentinels (astype_str x)).

Fixpoint has_char (c : ascii) (s : string) : bool :=
  match s with
  | EmptyString => false
  | String a s' => bool_decide (a = c) || has_char c s'
  end.

Definition hm (h m : Z) : string := pad2 h +:+ ":" +:+ pad2 m.

Definition hm_stable (h m : Z) : bool :=
  bool_decide (normalize_time (replace_sentinels (CStr (hm h m))) = CStr (hm h m)).

(** The two facts about pandas that idempotence rests on: a date printed
    as [%Y-%m-%d] parses back to the same day, and a timestamp printed by
    [astype(str)] parses back to itself. *)
Definition date_roundtrip : Prop :=
  ∀ s t, to_datetime s = Some t →
    ∃ t', to_datetime (strftime_ymd t) = Some t'
          ∧ strftime_ymd t' = strftime_ymd t.


Definition add_log (w : World) (evs : list event) : World :=
  mkWorld (heap w) (session w) (sheet w) (log w ++ evs).

(** What [load_data_from_google] returns, and the message it shows. *)
Definition loaded (fault : option string) (remote : DataFrame)
  : DataFrame * list event :=
  match fault with
  | Some e => (empty_frame schema, [ConnRead; StError (load_error_message e)])
  | None =>
      if df_empty remote then (empty_frame schema, [ConnRead])
      else match clean_dataframe remote with
           | Ok c => (c, [ConnRead])
           | Raise e =>
               (empty_frame schema, [ConnRead; StError (load_error_message e)])
           end
  end.

(** The maximum [LastUpdated] of the table the save fetches. *)
Definition remote_max (fault : option string) (remote : DataFrame)
  : option Timestamp :=
  let latest_cloud := (loaded fault remote).1 in
  if negb (df_empty latest_cloud) && has_column "LastUpdated" latest_cloud
  then column_max "LastUpdated" latest_cloud
  else None.

(** The session after [refresh_data] has stored the table [new_data] at
    location [l]. *)
Definition refreshed (s : Session) (l : loc) (new_data : DataFrame) : Session :=
  mkSession l
    (if negb (df_empty new_data) && has_column "LastUpdated" new_data
     then column_max "LastUpdated" new_data
     else last_cloud_timestamp s)
    (form_id s).

Definition save_failed_events (e : string) : list event :=
  if contains "429" e
  then [StError "⚠️ 儲存失敗：請求過多，請等待 60 秒後再試。"]
  else [StError ("儲存失敗：" +:+ e); StWrite "詳細錯誤資訊："; StWrite e].

(** The outcome of lines 127-144 when nothing raises. *)
Definition written (env : SaveEnv) (c : DataFrame) (w : World) : World :=
  let clean_df := stamp (now env) c in
  let l := fresh (dom (heap w)) in
  mkWorld (<[l := clean_df]> (heap w))
          (mkSession l (Some (now env)) (form_id (session w)))
          (to_upload clean_df)
          (log w ++ [ConnUpdate (to_upload clean_df);
                     StSuccess "✅ 儲存成功！雲端資料已更新。"]).

Definition conflict_events (user cloud : option Timestamp) : list event :=
  [StError conflict_message;
   StWrite ("雲端最新: " +:+ show_ts cloud);
   StWrite ("本地基準: " +:+ show_ts user)].

(** Lines 127-151 from world [w]: the write, with its handler. *)
Definition finish (env : SaveEnv) (new_df : DataFrame) (w : World)
  : World * (unit + signal) :=
  match clean_dataframe new_df with
  | Raise e => (add_log w (save_failed_events e), inl tt)
  | Ok c =>
      match update_fault env with
      | Some e =>
          (add_log w (ConnUpdate (to_upload (stamp (now env) c))
                        :: save_failed_events e), inl tt)
      | None => (written env c w, inr RerunException)
      end
  end.

Definition prompt_events (user cloud : option Timestamp) (force : bool)
  : list event :=
  conflict_events user cloud
    ++ StButton reload_label :: (if force then [StButton force_label] else []).

(** Both timestamps are present and the remote one is strictly later. *)
Definition remote_is_newer (user cloud : option Timestamp) : Prop :=
  ∃ u c, user = Some u ∧ cloud = Some c ∧ wall_us u < wall_us c.

Definition finish_events (env : SaveEnv) (new_df : DataFrame) : list event :=
  match clean_dataframe new_df with
  | Raise e => save_failed_events e
  | Ok c =>
      ConnUpdate (to_upload (stamp (now env) c))
        :: match update_fault env with
           | Some e => save_failed_events e
           | None => [StSuccess "✅ 儲存成功！雲端資料已更新。"]
           end
  end.

(** Everything one call of the save shows and asks of the connection. *)
Definition save_events (env : SaveEnv) (new_df : DataFrame) (w : World)
  : list event :=
  let cloud := tz_localize_none <$> remote_max (read_fault env) (sheet w) in
  let user := tz_localize_none <$> last_cloud_timestamp (session w) in
  (loaded (read_fault env) (sheet w)).2
    ++ if conflict user cloud then
         if reload_clicked env then
           prompt_events user cloud false
             ++ [CacheClear] ++ (loaded (reload_read_fault env) (sheet w)).2
             ++ [StToast "Data refreshed from Cloud"]
         else if force_clicked env then
           prompt_events user cloud true ++ finish_events env new_df
         else prompt_events user cloud true
       else finish_events env new_df.

(** The save goes on to lines 127-144: no conflict, or a forced overwrite. *)
Definition reaches_write (env : SaveEnv) (w : World) : Prop :=
  ¬ remote_is_newer (last_cloud_timestamp (session w))
                    (remote_max (read_fault env) (sheet w))
  ∨ (reload_clicked env = false ∧ force_clicked env = true).

(** The normalisation or the update of lines 130-138 raises [e]. *)
Definition write_raises (env : SaveEnv) (new_df : DataFrame) (e : string) : Prop :=
  clean_dataframe new_df = Raise e
  ∨ (∃ c, clean_dataframe new_df = Ok c) ∧ update_fault env = Some e.


(** The bookings of [df] at date [check_date] and time [t_str]. *)
Definition bookings_at (df : DataFrame) (check_date t_str : string)
  : list (gmap string cell) :=
  filter (λ r, get r "Date" = CStr check_date ∧ get r "Time" = CStr t_str)
         (rows df).

(** One save attempt of some session: the client's own state (its [sheet]
    field is not looked at), what the attempt meets and the candidate. *)
Record Attempt := mkAttempt {
  client : World;
  attempt_env : SaveEnv;
  candidate : DataFrame
}.

Definition attempt_on (remote : DataFrame) (a : Attempt) : World * (unit + signal) :=
  save_with_conflict_detection (attempt_env a) (candidate a)
    (mkWorld (heap (client a)) (session (client a)) remote (log (client a))).

(** The run ended in the success message of line 143. *)
Definition reported_success (out : World * (unit + signal)) : bool :=
  match last (log out.1) with
  | Some (StSuccess _) => true
  | _ => false
  end.

(** The successful saves of a sequence of attempts on one sheet, each with
    the clock reading it took and the table it left in the sheet. *)
Fixpoint history (remote : DataFrame) (attempts : list Attempt)
  : list (Timestamp * DataFrame) :=
  match attempts with
  | [] => []
  | a :: rest =>
      let out := attempt_on remote a in
      if reported_success out
      then (now (attempt_env a), sheet out.1) :: history (sheet out.1) rest
      else history (sheet out.1) rest
  end.

Definition not_later (s t : Timestamp) : Prop := wall_us s ≤ wall_us t.

(** The clock readings of the attempts never go back. *)
Definition clock_monotone (attempts : list Attempt) : Prop :=
  StronglySorted (λ a b, not_later (now (attempt_env a)) (now (attempt_env b)))
                 attempts.

(** The stamps of the successful saves never go back. *)
Definition stamps_monotone (h : list (Timestamp * DataFrame)) : Prop :=
  StronglySorted (λ a b, not_later a.1 b.1) h.

(** C9 as the specification words it: the stamps never go back, whatever
    the clocks read. *)
Definition stamps_always_monotone : Prop :=
  ∀ remote attempts, stamps_monotone (history remote attempts).

Definition cell_indices (c : day_cell) : list nat := (day_data c).*1.

(** The index labels listed in the cells of one month, and of all months,
    in reading order. *)
Definition shown_in_month (weeks : list (list day_cell)) : list nat :=
  week ← weeks; c ← week; cell_indices c.

Definition shown (grids : list (period * list (list day_cell))) : list nat :=
  g ← grids; shown_in_month g.2.

Definition day_indices (rs : list entry) (p : period) (d : Z) : list nat :=
  (day_data_of rs (day_str p.1 p.2 d)).*1.

Definition pad2_ok (n : Z) : bool :=
  bool_decide (String.length (pad2 n) = 2%nat ∧ parse_digits12 (pad2 n) = Some n).

(** Row [i] is listed in the cell of day [d] of the grid of month [p]. *)
Definition in_cell (grids : list (period * list (list day_cell)))
    (p : period) (d : Z) (i : nat) : Prop :=
  ∃ weeks week c,
    (p, weeks) ∈ grids ∧ week ∈ weeks ∧ c ∈ week
    ∧ cell_day c = d ∧ i ∈ cell_indices c.

Definition grids_of (rs : list entry) (months : list period)
  : list (period * list (list day_cell)) :=
  (λ p, (p, month_grid rs p)) <$> months.

(** A timestamp is a day of the calendar. *)
Definition valid_date (t : Timestamp) : Prop :=
  1 ≤ month t ≤ 12 ∧ 1 ≤ day t ≤ days_in_month (year t) (month t).

#[global] Instance valid_date_dec t : Decision (valid_date t).
Proof. unfold valid_date. apply _. Defined.

(** The parser only returns days of the calendar. *)
Definition parses_valid_dates : Prop :=
  ∀ s t, to_datetime s = Some t → valid_date t.

(** The frame [df'] is [df] with the column [dt] set. *)
Definition dt_added (df df' : DataFrame) : Prop :=
  columns df' = (if has_column "dt" df then columns df else columns df ++ ["dt"])
  ∧ Forall2 (λ r r', ∃ c, combined_dt r = Ok c ∧ r' = <["dt" := c]> r)
            (rows df) (rows df').


(** ... and, for the workbook: no booking whose Date and Time do not parse
    is listed in a cell. *)
Definition no_unparsed_booking_in_workbook : Prop :=
  ∀ df df' i r c,
    with_dt df = Ok df' → rows df !! i = Some r →
    combined_dt r = Ok c → notna c = false →
    i ∉ shown (excel_grids df').

(** The forms of the cells of a normalised frame: a Date is empty or the
    [%Y-%m-%d] text of a parsed timestamp, a Time is empty or [HH:MM] with
    the hour and minute in range, a LastUpdated is a timestamp or NaT, any
    other cell a text that is none of the four spellings of a missing
    value. *)
Definition date_form (x : cell) : Prop :=
  x = CStr "" ∨ ∃ s t, to_datetime s = Some t ∧ x = CStr (strftime_ymd t).

Definition time_form (x : cell) : Prop :=
  x = CStr "" ∨ ∃ h m, 0 ≤ h ≤ 23 ∧ 0 ≤ m ≤ 59 ∧ x = CStr (hm h m).

Definition stamp_form (x : cell) : Prop := x = CNaT ∨ ∃ t, x = CTs t.

Definition text_form (x : cell) : Prop :=
  ∃ s, x = CStr s ∧ s ∉ ["NaT"; "nan"; "None"; "<NA>"].

Definition normal_row (cs : list string) (r : gmap string cell) : Prop :=
  date_form (get r "Date") ∧ time_form (get r "Time")
  ∧ stamp_form (get r "LastUpdated")
  ∧ ∀ k, k ∈ cs → k ∉ ["Date"; "Time"; "LastUpdated"] → text_form (get r k).

(** Up to two digits, padded or not: no colon inside, and read back as the
    number by [%H] and [%M]. *)
Definition digits_ok (n : Z) : bool :=
  bool_decide (has_char ":" (pad2 n) = false ∧ has_char ":" (pretty n) = false
               ∧ parse_digits12 (pad2 n) = Some n
               ∧ parse_digits12 (pretty n) = Some n).

(** The parser does not read the text of a stamp as a later time: the text
    has the stamp's seconds and drops its microseconds. *)
Definition reads_stamp (t : Timestamp) : Prop :=
  ∀ t', to_datetime (strftime_ymd_HMS t) = Some t' → wall_us t' ≤ wall_us t.

(** The row the form builds at lines 346-349 and the table it saves. *)
Definition booking_row (name c_id : string) (d : Date) (t_str notes : string)
  : gmap string cell :=
  {[ "Name" := CStr name; "ID" := CStr c_id;
     "Date" := CStr (date_strftime d); "Time" := CStr t_str;
     "Notes" := CStr notes; "LastUpdated" := CNaT ]}.

Definition with_booking (frame : DataFrame) (name c_id : string) (d : Date)
    (t_str notes : string) : DataFrame :=
  pd_concat frame (mkDf schema [booking_row name c_id d t_str notes]).

(** Line 352. *)
Definition next_form (w : World) : World :=
  mkWorld (heap w)
          (mkSession (data (session w)) (last_cloud_timestamp (session w))
                     (form_id (session w) + 1))
          (sheet w) (log w).

(** The slot is not full: no limit, or fewer bookings than the limit. *)
Definition slot_free (frame : DataFrame) (limit : Z) (d : Date) (t_str : string)
  : Prop :=
  limit ≤ 0
  ∨ ("Date" ∈ columns frame ∧ "Time" ∈ columns frame
     ∧ Z.of_nat (length (bookings_at frame (date_strftime d) t_str)) < limit).

(** The table the import saves: the snapshot followed by the rows of the
    file, their gaps filled with empty text and LastUpdated set to NaT. *)
Definition imported (frame imp : DataFrame) : DataFrame :=
  pd_concat frame (set_scalar "LastUpdated" CNaT (frame_map fillna_empty imp)).

(** The handler came back to its caller, rather than unwinding. *)
Definition returned (out : World * (unit + signal)) : bool :=
  match out.2 with inl _ => true | inr _ => false end.

(** [calendar.day_abbr]: the name of a weekday, Monday being 0. *)
Definition day_abbr (wd : Z) : string :=
  default "" (["Mon"; "Tue"; "Wed"; "Thu"; "Fri"; "Sat"; "Sun"] !! Z.to_nat wd).

(** The column of a weekday in a week that starts on Sunday. *)
Definition column_of (wd : Z) : nat := Z.to_nat ((wd + 1) `mod` 7).

(** A frame whose Date and Time cells are in normal form. *)
Definition normal_dates (df : DataFrame) : Prop :=
  Forall (λ r : gmap string cell,
            date_form (get r "Date") ∧ time_form (get r "Time"))
         (rows df).

(** The rows the calendar shows, and the event of a row. *)
Definition visible_rows (df : DataFrame) : list entry :=
  filter (λ e : entry, get e.2 "Date" ≠ CStr "" ∧ get e.2 "Time" ≠ CStr "")
         (with_index df).

Definition event_for (e : entry) : calendar_event :=
  mkEvent (pretty e.1) (get e.2 "Name")
          (str (get e.2 "Date") +:+ "T" +:+ str (get e.2 "Time"))
          ("ID: " +:+ str (get e.2 "ID") +:+ " | Notes: "
             +:+ str (get e.2 "Notes")).

Definition pad2_ordered (a b : Z) : bool :=
  bool_decide (String.compare (pad2 a) (pad2 b) = Z.compare a b).

(** [a] is not later in the day than [b], for two rows whose Time is in
    [HH:MM] form. *)
Definition not_after (a b : entry) : Prop :=
  ∀ h m h' m',
    0 ≤ h ≤ 23 → 0 ≤ m ≤ 59 → 0 ≤ h' ≤ 23 → 0 ≤ m' ≤ 59 →
    get a.2 "Time" = CStr (hm h m) → get b.2 "Time" = CStr (hm h' m') →
    h * 60 + m ≤ h' * 60 + m'.




End Vocabulary.

(* ================================================================== *)
(** * Sample data                                                    *)
(* ================================================================== *)

Definition booking (name id date time notes : string) (last_updated : cell)
  : gmap string cell :=
  {[ "Name" := CStr name; "ID" := CStr id; "Date" := CStr date;
     "Time" := CStr time; "Notes" := CStr notes;
     "LastUpdated" := last_updated ]}.

(** A sheet written at noon, and a session that read it at that time. *)
Definition noon : Timestamp := ts 2024 1 5 12 0.
Definition eleven : Timestamp := ts 2024 1 5 11 0.

Definition sample_sheet : DataFrame :=
  mkDf schema
    [ booking "Maths" "3A" "2024-01-05" "09:00" "" (CStr "2024-01-05 12:00:00");
      booking "Physics" "3B" "2024-02-10" "10:30" "" (CStr "2024-01-05 12:00:00") ].

Definition sample_snapshot : DataFrame :=
  mkDf schema
    [ booking "Maths" "3A" "2024-01-05" "09:00" "" (CTs noon);
      booking "Physics" "3B" "2024-02-10" "10:30" "" (CTs noon) ].

Definition sample_world (watermark : option Timestamp) : World :=
  mkWorld {[ 1%positive := sample_snapshot ]}
          (mkSession 1%positive watermark 0) sample_sheet [].

Definition quiet (t : Timestamp) : SaveEnv :=
  mkSaveEnv None false false None t None.


Definition bad_time_frame : DataFrame :=
  mkDf schema
    [ booking "Maths" "3A" "2024-01-05" "09:00" "" CNaT;
      booking "Physics" "3B" "2024-01-05" "abc" "" CNaT ].

Definition after_with_dt (df : DataFrame) : DataFrame :=
  match @with_dt excerpt_pandas df with Ok d => d | Raise _ => df end.

Definition excerpt_law (t : Timestamp) : bool :=
  bool_decide (@to_datetime excerpt_pandas (@ts_str excerpt_pandas t) = Some t)
  && match @to_datetime excerpt_pandas (strftime_ymd t) with
     | Some t' => bool_decide (strftime_ymd t' = strftime_ymd t)
     | None => false
     end
  && bool_decide (valid_date t).

Definition first_save : Attempt :=
  mkAttempt (sample_world (Some noon)) (quiet noon) sample_snapshot.

(** The same session saves again, its clock now reading an hour less. *)
Definition second_save_clock_back : Attempt :=
  mkAttempt (@attempt_on excerpt_pandas sample_sheet first_save).1
            (quiet eleven) sample_snapshot.

Definition second_save : Attempt :=
  mkAttempt (@attempt_on excerpt_pandas sample_sheet first_save).1
            (quiet noon) sample_snapshot.

Definition cleaned (df : DataFrame) : DataFrame :=
  match @clean_dataframe excerpt_pandas df with Ok d => d | Raise _ => df end.

(** A run in which the reload button was clicked. *)
Definition reloading (t : Timestamp) : SaveEnv :=
  mkSaveEnv None true false None t None.

(* ================================================================== *)
(** * Properties                                                     *)
(* ================================================================== *)

Section Properties.
Context `{Pandas}.

Lemma foldl_col_map (p : string → bool) f cs df :
  foldl (λ (d : DataFrame) (c : string), if p c then col_map f c d else d) df cs
  = mkDf (columns df) (row_apply p f cs <$> rows df).
Proof.
  revert df. induction cs as [|c cs IH]; intros df; simpl.
  - destruct df as [cols rs]; simpl. f_equal.
    symmetry. etrans; [|apply list_fmap_id]. apply list_fmap_ext. intros; reflexivity.
  - rewrite IH. destruct (p c) eqn:Hp; simpl; f_equal.
    + rewrite <- list_fmap_compose. apply list_fmap_ext.
      intros i r _. simpl. unfold row_apply at 2. simpl. by rewrite Hp.
    + apply list_fmap_ext. intros i r _. unfold row_apply at 2. simpl.
      by rewrite Hp.
Qed.

Lemma frame_map_rows f df :
  frame_map f df = mkDf (columns df) (row_apply (λ _, true) f (columns df) <$> rows df).
Proof. unfold frame_map. apply (foldl_col_map (λ _, true)). Qed.

Lemma get_insert r c v k :
  get (<[c := v]> r) k = if decide (c = k) then v else get r k.
Proof.
  unfold get. rewrite lookup_insert. by destruct (decide (c = k)).
Qed.

Lemma row_apply_cons (p : string → bool) f c cs r :
  row_apply p f (c :: cs) r
  = row_apply p f cs (if p c then <[c := f (get r c)]> r else r).
Proof. reflexivity. Qed.

Lemma row_apply_lookup (p : string → bool) f cs r k :
  (∀ x, f (f x) = f x) →
  row_apply p f cs r !! k
  = if decide (k ∈ cs ∧ p k = true) then Some (f (get r k)) else r !! k.
Proof.
  intros Hf. revert r. induction cs as [|c cs IH]; intros r.
  - unfold row_apply. cbn [foldl].
    destruct (decide (k ∈ [] ∧ p k = true)) as [[Hd _]|]; [|done].
    by apply elem_of_nil in Hd.
  - rewrite row_apply_cons, IH.
    destruct (p c) eqn:Hp.
    + rewrite get_insert, lookup_insert.
      destruct (decide (c = k)) as [->|Hne].
      * rewrite Hf, (decide_True (P := k ∈ k :: cs ∧ _)) by (split; [left|done]).
        by destruct (decide (k ∈ cs ∧ _)).
      * destruct (decide (k ∈ cs ∧ _)) as [[??]|Hn].
        -- by rewrite decide_True by (split; [by right|done]).
        -- rewrite decide_False; [done|].
           intros [[?|?]%elem_of_cons ?]; [congruence|]. by apply Hn.
    + destruct (decide (k ∈ cs ∧ _)) as [[??]|Hn].
      * by rewrite decide_True by (split; [by right|done]).
      * rewrite decide_False; [done|].
        intros [[?|?]%elem_of_cons ?]; [congruence|]. by apply Hn.
Qed.

Lemma row_apply_get (p : string → bool) f cs r k :
  (∀ x, f (f x) = f x) →
  get (row_apply p f cs r) k
  = if decide (k ∈ cs ∧ p k = true) then f (get r k) else get r k.
Proof.
  intros Hf. unfold get at 1. rewrite row_apply_lookup by done.
  by case_decide.
Qed.

Lemma clean_dataframe_rows df :
  "Date" ∈ columns df → "Time" ∈ columns df →
  clean_dataframe df
  = Ok (mkDf (clean_columns (columns df)) (clean_row (columns df) <$> rows df)).
Proof.
  intros HD HT. unfold clean_dataframe.
  rewrite frame_map_rows. cbn [columns].
  rewrite (foldl_col_map not_last_updated). cbn [columns rows].
  unfold assign_from_column, has_column. cbn [columns].
  rewrite (bool_decide_eq_true_2 _ HD). cbn [mbind Result_bind col_map columns rows].
  rewrite (bool_decide_eq_true_2 _ HT). cbn [mbind Result_bind col_map columns rows].
  rewrite frame_map_rows. cbn [columns rows].
  f_equal. unfold clean_columns, set_scalar, has_column, col_map, clean_row.
  cbn [columns rows].
  destruct (decide ("LastUpdated" ∈ columns df)) as [Hin|Hout].
  - rewrite (bool_decide_eq_true_2 _ Hin). cbn [columns rows]. f_equal.
    rewrite <- !list_fmap_compose. by apply list_fmap_ext.
  - rewrite (bool_decide_eq_false_2 _ Hout). cbn [columns rows]. f_equal.
    rewrite <- !list_fmap_compose. by apply list_fmap_ext.
Qed.

Lemma clean_dataframe_key_error df :
  "Date" ∉ columns df ∨ "Time" ∉ columns df →
  ∃ e, clean_dataframe df = Raise e.
Proof.
  intros Hc. unfold clean_dataframe.
  rewrite frame_map_rows. cbn [columns].
  rewrite (foldl_col_map not_last_updated). cbn [columns rows].
  unfold assign_from_column, has_column. cbn [columns].
  destruct (decide ("Date" ∈ columns df)) as [HD|HD].
  - rewrite (bool_decide_eq_true_2 _ HD). cbn [mbind Result_bind col_map columns rows].
    destruct Hc as [?|HT]; [done|].
    rewrite (bool_decide_eq_false_2 _ HT). cbn. eauto.
  - rewrite (bool_decide_eq_false_2 _ HD). cbn. eauto.
Qed.

Lemma row_apply_lookup_in (p : string → bool) f cs r k :
  (∀ x, f (f x) = f x) → k ∈ cs → p k = true →
  row_apply p f cs r !! k = Some (f (get r k)).
Proof. intros. rewrite row_apply_lookup by done. by rewrite decide_True. Qed.

Lemma row_apply_lookup_out (p : string → bool) f cs r k :
  (∀ x, f (f x) = f x) → k ∉ cs ∨ p k = false →
  row_apply p f cs r !! k = r !! k.
Proof.
  intros ? Hk. rewrite row_apply_lookup by done. rewrite decide_False; [done|].
  intros [??]. destruct Hk; [done|congruence].
Qed.

Lemma row_apply_get_in (p : string → bool) f cs r k :
  (∀ x, f (f x) = f x) → k ∈ cs → p k = true →
  get (row_apply p f cs r) k = f (get r k).
Proof. intros. unfold get at 1. by rewrite row_apply_lookup_in. Qed.

Lemma row_apply_get_out (p : string → bool) f cs r k :
  (∀ x, f (f x) = f x) → k ∉ cs ∨ p k = false →
  get (row_apply p f cs r) k = get r k.
Proof. intros. unfold get at 1. by rewrite row_apply_lookup_out. Qed.

Lemma get_insert_eq r c v : get (<[c := v]> r) c = v.
Proof. unfold get. by rewrite lookup_insert_eq. Qed.

Lemma get_insert_ne r c v k : c ≠ k → get (<[c := v]> r) k = get r k.
Proof. intros. unfold get. by rewrite lookup_insert_ne. Qed.

Lemma astype_str_idem x : astype_str (astype_str x) = astype_str x.
Proof. done. Qed.

Lemma replace_sentinels_idem x :
  replace_sentinels (replace_sentinels x) = replace_sentinels x.
Proof.
  destruct x as [s| | | | |t]; try done. simpl.
  case_bool_decide; simpl; [done|]. by rewrite bool_decide_eq_false_2.
Qed.

Lemma fillna_empty_idem x : fillna_empty (fillna_empty x) = fillna_empty x.
Proof. by destruct x. Qed.

Lemma fillna_empty_astype x : fillna_empty (astype_str x) = astype_str x.
Proof. done. Qed.

Ltac side :=
  first [ done | apply astype_str_idem | apply replace_sentinels_idem
        | apply fillna_empty_idem
        | by left | by right
        | reflexivity | right; reflexivity
        | unfold not_last_updated; apply bool_decide_eq_true;
          rewrite list_elem_of_singleton; done ].

Ltac stage :=
  first [ rewrite lookup_insert_eq
        | rewrite lookup_insert_ne by side
        | rewrite get_insert_eq
        | rewrite get_insert_ne by side
        | rewrite row_apply_lookup_in by side
        | rewrite row_apply_lookup_out by side
        | rewrite row_apply_get_in by side
        | rewrite row_apply_get_out by side ].

Lemma clean_row_lookup cs r k :
  "Date" ∈ cs → "Time" ∈ cs →
  clean_row cs r !! k
  = if decide (k ∈ cs) then Some (clean_cell k (get r k))
    else if decide (k = "LastUpdated") then Some CNaT
    else r !! k.
Proof.
  intros HD HT. unfold clean_row, clean_cell.
  destruct (decide (k = "LastUpdated")) as [->|HkL].
  { destruct (decide ("LastUpdated" ∈ cs)) as [HL|HL]; repeat stage; done. }
  destruct (decide (k ∈ cs)) as [Hk|Hk].
  - destruct (decide (k = "Date")) as [->|HkD]; [|destruct (decide (k = "Time")) as [->|HkT]].
    + destruct (decide ("LastUpdated" ∈ cs)) as [HL|HL]; repeat stage; done.
    + destruct (decide ("LastUpdated" ∈ cs)) as [HL|HL]; repeat stage; done.
    + destruct (decide ("LastUpdated" ∈ cs)) as [HL|HL]; repeat stage; done.
  - assert (k ≠ "Date") by (by intros ->). assert (k ≠ "Time") by (by intros ->).
    destruct (decide ("LastUpdated" ∈ cs)) as [HL|HL]; repeat stage; done.
Qed.

Lemma has_char_app c a b : has_char c (a +:+ String c b) = true.
Proof.
  induction a as [|x a IH].
  - change (has_char c (String c b) = true). simpl. by rewrite bool_decide_eq_true_2.
  - change (has_char c (String x (a +:+ String c b)) = true). simpl.
    rewrite IH. by destruct (bool_decide (x = c)).
Qed.

Lemma day_str_has_dash y m d : has_char "-" (day_str y m d) = true.
Proof. unfold day_str. apply has_char_app. Qed.

Lemma day_str_not_sentinel y m d :
  bool_decide (day_str y m d ∈ ["NaT"; "nan"; "None"; "<NA>"]) = false.
Proof.
  apply bool_decide_eq_false. intros Hin.
  pose proof (day_str_has_dash y m d) as Hc.
  repeat (apply elem_of_cons in Hin as [Heq|Hin]; [by rewrite Heq in Hc|]).
  by apply elem_of_nil in Hin.
Qed.

Lemma strftime_ymd_not_sentinel t :
  bool_decide (strftime_ymd t ∈ ["NaT"; "nan"; "None"; "<NA>"]) = false.
Proof. apply day_str_not_sentinel. Qed.

Lemma hm_stable_all :
  forallb (λ h, forallb (hm_stable h) (seqZ 0 60)) (seqZ 0 24) = true.
Proof. vm_compute. reflexivity. Qed.

Lemma hm_stable_range h m :
  0 ≤ h ≤ 23 → 0 ≤ m ≤ 59 →
  normalize_time (replace_sentinels (CStr (hm h m))) = CStr (hm h m).
Proof.
  intros Hh Hm. pose proof hm_stable_all as Hall.
  rewrite forallb_forall in Hall.
  assert (h ∈ seqZ 0 24) as Hhin by (apply elem_of_seqZ; lia).
  apply list_elem_of_In, Hall in Hhin. rewrite forallb_forall in Hhin.
  assert (m ∈ seqZ 0 60) as Hmin by (apply elem_of_seqZ; lia).
  apply list_elem_of_In, Hhin in Hmin. by apply bool_decide_eq_true in Hmin.
Qed.

Lemma parse_digits12_nonneg s n : parse_digits12 s = Some n → 0 ≤ n.
Proof.
  unfold parse_digits12. intros Hp.
  destruct s as [|a [|b [|c s]]]; simplify_eq/=.
  - destruct (Ascii.is_nat a); simplify_eq/=. lia.
  - destruct (Ascii.is_nat a); simplify_eq/=.
    destruct (Ascii.is_nat b); simplify_eq/=. lia.
Qed.

Lemma time_of_day_Some h m t :
  0 ≤ h → 0 ≤ m → time_of_day h m = Some t →
  strftime_HM t = hm h m ∧ 0 ≤ h ≤ 23 ∧ 0 ≤ m ≤ 59.
Proof.
  unfold time_of_day. intros ?? Ht.
  destruct (h <=? 23) eqn:Hh, (m <=? 59) eqn:Hm; simplify_eq/=.
  split; [done|]. lia.
Qed.

Lemma strptime_HM_Some s t :
  strptime_HM s = Some t →
  ∃ h m, strftime_HM t = hm h m ∧ 0 ≤ h ≤ 23 ∧ 0 ≤ m ≤ 59.
Proof.
  unfold strptime_HM. intros Hp.
  destruct (split_on ":" s) as [|h [|m [|? ?]]]; try done.
  destruct (parse_digits12 h) as [h'|] eqn:Hh; [|done].
  destruct (parse_digits12 m) as [m'|] eqn:Hm; [|done].
  simpl in Hp. exists h', m'.
  eapply time_of_day_Some; eauto using parse_digits12_nonneg.
Qed.

Lemma strptime_HM00_Some s t :
  strptime_HM00 s = Some t →
  ∃ h m, strftime_HM t = hm h m ∧ 0 ≤ h ≤ 23 ∧ 0 ≤ m ≤ 59.
Proof.
  unfold strptime_HM00. intros Hp.
  destruct (split_on ":" s) as [|h [|m [|z [|? ?]]]]; try done.
  destruct (decide (z = "00")); [|done].
  destruct (parse_digits12 h) as [h'|] eqn:Hh; [|done].
  destruct (parse_digits12 m) as [m'|] eqn:Hm; [|done].
  simpl in Hp. exists h', m'.
  eapply time_of_day_Some; eauto using parse_digits12_nonneg.
Qed.

(** A normalised Time is a time of day in [HH:MM] form, or empty. *)
Lemma normalize_time_cases s :
  fillna_empty (normalize_time (CStr s)) = CStr ""
  ∨ ∃ h m, fillna_empty (normalize_time (CStr s)) = CStr (hm h m)
           ∧ 0 ≤ h ≤ 23 ∧ 0 ≤ m ≤ 59.
Proof.
  unfold normalize_time. simpl.
  destruct (strptime_HM00 s) as [t|] eqn:H00; simpl.
  - right. apply strptime_HM00_Some in H00 as (h & m & -> & ?). eauto.
  - destruct (strptime_HM s) as [t|] eqn:Hhm; simpl; [|by left].
    right. apply strptime_HM_Some in Hhm as (h & m & -> & ?). eauto.
Qed.

Lemma replace_astype_str x :
  ∃ s, replace_sentinels (astype_str x) = CStr s
       ∧ bool_decide (s ∈ ["NaT"; "nan"; "None"; "<NA>"]) = false.
Proof.
  unfold astype_str, replace_sentinels.
  destruct (bool_decide (str x ∈ _)) eqn:Hs; eauto.
Qed.

Lemma clean_cell_text_stable k x :
  k ≠ "LastUpdated" → k ≠ "Date" → k ≠ "Time" →
  clean_cell k (clean_cell k x) = clean_cell k x.
Proof.
  intros. unfold clean_cell. rewrite !decide_False by done.
  destruct (replace_astype_str x) as (s & -> & Hs). simpl. by rewrite Hs.
Qed.

Lemma clean_cell_Time x :
  clean_cell "Time" x
  = fillna_empty (normalize_time (replace_sentinels (astype_str x))).
Proof. reflexivity. Qed.

Lemma clean_cell_Date x :
  clean_cell "Date" x
  = fillna_empty (normalize_date (replace_sentinels (astype_str x))).
Proof. reflexivity. Qed.

Lemma clean_cell_LastUpdated x :
  clean_cell "LastUpdated" x = to_datetime_with to_datetime (astype_str x).
Proof. reflexivity. Qed.

Lemma clean_cell_time_stable x :
  clean_cell "Time" (clean_cell "Time" x) = clean_cell "Time" x.
Proof.
  rewrite !clean_cell_Time.
  destruct (replace_astype_str x) as (s & -> & Hs).
  destruct (normalize_time_cases s) as [->|(h & m & -> & Hh & Hm)]; [done|].
  unfold astype_str. cbn [str]. by rewrite hm_stable_range.
Qed.

Lemma clean_cell_date_stable x :
  date_roundtrip →
  clean_cell "Date" (clean_cell "Date" x) = clean_cell "Date" x.
Proof.
  intros Hrt. rewrite !clean_cell_Date.
  destruct (replace_astype_str x) as (s & -> & Hs).
  unfold normalize_date. simpl.
  destruct (to_datetime s) as [t|] eqn:Ht; simpl; [|done].
  rewrite strftime_ymd_not_sentinel. simpl.
  destruct (Hrt _ _ Ht) as (t' & -> & Heq). simpl. by rewrite Heq.
Qed.



Lemma clean_columns_idem cs : clean_columns (clean_columns cs) = clean_columns cs.
Proof.
  unfold clean_columns. destruct (decide ("LastUpdated" ∈ cs)) as [?|?].
  - by rewrite decide_True.
  - rewrite decide_True; [done|]. apply elem_of_app. right. by left.
Qed.

Lemma elem_of_clean_columns k cs :
  k ∈ clean_columns cs ↔ k ∈ cs ∨ k = "LastUpdated".
Proof.
  unfold clean_columns. destruct (decide ("LastUpdated" ∈ cs)).
  - split; [by left|]. by intros [?| ->].
  - rewrite elem_of_app, list_elem_of_singleton. done.
Qed.



Lemma add_log_nil w : add_log w [] = w.
Proof. destruct w. unfold add_log. simpl. by rewrite app_nil_r. Qed.

Lemma add_log_add_log w e1 e2 : add_log (add_log w e1) e2 = add_log w (e1 ++ e2).
Proof. unfold add_log. simpl. by rewrite app_assoc. Qed.

Lemma bind_run {A B} (m : M A) (f : A → M B) w :
  (m ≫= f) w = match m w with
                | (w', inl a) => f a w'
                | (w', inr s) => (w', inr s)
                end.
Proof. reflexivity. Qed.

Lemma emit_run e w : emit e w = (add_log w [e], inl tt).
Proof. reflexivity. Qed.

Ltac run :=
  cbv [mbind M_bind mret M_ret emit raise lift get_session set_session
       alloc deref store st_stop st_rerun button]; cbn.

Lemma load_run fault w :
  load_data_from_google fault w
  = (add_log w (loaded fault (sheet w)).2, inl (loaded fault (sheet w)).1).
Proof.
  unfold load_data_from_google, try_except, loaded, conn_read, add_log.
  destruct fault as [e|]; run.
  - by rewrite <- app_assoc.
  - destruct (df_empty (sheet w)); run; [done|].
    destruct (clean_dataframe (sheet w)) as [c|e]; run; [done|].
    by rewrite <- app_assoc.
Qed.

Lemma fetch_run fault w :
  fetch_cloud_latest_ts fault w
  = (add_log w (loaded fault (sheet w)).2,
     inl (tz_localize_none <$> remote_max fault (sheet w))).
Proof.
  unfold fetch_cloud_latest_ts, remote_max. rewrite bind_run, load_run.
  cbn [fst snd]. by destruct (negb _ && _).
Qed.

Lemma refresh_run fault w :
  let new_data := (loaded fault (sheet w)).1 in
  let l := fresh (dom (heap w)) in
  refresh_data true fault w
  = (mkWorld (<[l := new_data]> (heap w)) (refreshed (session w) l new_data)
             (sheet w)
             (log w ++ [CacheClear] ++ (loaded fault (sheet w)).2
                ++ [StToast "Data refreshed from Cloud"]),
     inr RerunException).
Proof.
  intros new_data l. subst new_data l. unfold refresh_data.
  rewrite bind_run, emit_run, bind_run, load_run.
  unfold refreshed, add_log. run.
  destruct (negb _ && _); cbn; by rewrite <- !app_assoc.
Qed.

Lemma save_failed_run e w :
  save_failed e w = (add_log w (save_failed_events e), inl tt).
Proof.
  unfold save_failed, save_failed_events, add_log.
  destruct (contains "429" e); run; [done|]. by rewrite <- !app_assoc.
Qed.

Lemma write_run env new_df w :
  write_snapshot env new_df w
  = match clean_dataframe new_df with
    | Raise e => (w, inr (Exception e))
    | Ok c =>
        match update_fault env with
        | Some e =>
            (add_log w [ConnUpdate (to_upload (stamp (now env) c))],
             inr (Exception e))
        | None => (written env c w, inr RerunException)
        end
    end.
Proof.
  unfold write_snapshot, written, conn_update, add_log.
  destruct (clean_dataframe new_df) as [c|e]; run; [|done].
  destruct (update_fault env); run; [done|]. by rewrite <- !app_assoc.
Qed.

Lemma resolve_run env user cloud w :
  resolve_conflict env user cloud w
  = if conflict user cloud then
      if reload_clicked env then
        match refresh_data true (reload_read_fault env)
                (add_log w (conflict_events user cloud ++ [StButton reload_label]))
        with
        | (w', inl _) => (w', inl false)
        | (w', inr s) => (w', inr s)
        end
      else if force_clicked env then
        (add_log w (conflict_events user cloud
                    ++ [StButton reload_label; StButton force_label]), inl true)
      else
        (add_log w (conflict_events user cloud
                    ++ [StButton reload_label; StButton force_label]),
         inr StopException)
    else (w, inl true).
Proof.
  unfold resolve_conflict, conflict_events, add_log.
  destruct (conflict user cloud); [|done].
  destruct (reload_clicked env) eqn:Hr.
  - run. rewrite <- !app_assoc. simpl. done.
  - run. destruct (force_clicked env); rewrite <- !app_assoc; done.
Qed.

Lemma save_run env new_df w :
  let w1 := add_log w (loaded (read_fault env) (sheet w)).2 in
  let cloud := tz_localize_none <$> remote_max (read_fault env) (sheet w) in
  let user := tz_localize_none <$> last_cloud_timestamp (session w) in
  save_with_conflict_detection env new_df w
  = if conflict user cloud then
      if reload_clicked env then
        refresh_data true (reload_read_fault env)
          (add_log w1 (prompt_events user cloud false))
      else if force_clicked env then
        finish env new_df (add_log w1 (prompt_events user cloud true))
      else (add_log w1 (prompt_events user cloud true), inr StopException)
    else finish env new_df w1.
Proof.
  intros w1 cloud user. subst w1 cloud user.
  unfold save_with_conflict_detection, try_except, finish, prompt_events.
  rewrite bind_run, fetch_run. cbn [get_session].
  rewrite bind_run. cbn [get_session]. rewrite bind_run, resolve_run.
  cbn [session add_log].
  destruct (conflict _ _).
  - destruct (reload_clicked env).
    + rewrite refresh_run. reflexivity.
    + destruct (force_clicked env); [|reflexivity].
      rewrite write_run. destruct (clean_dataframe new_df) as [c|e].
      * destruct (update_fault env) as [e|]; [|reflexivity].
        rewrite save_failed_run, add_log_add_log. reflexivity.
      * by rewrite save_failed_run.
  - rewrite write_run. destruct (clean_dataframe new_df) as [c|e].
    + destruct (update_fault env) as [e|]; [|reflexivity].
      rewrite save_failed_run, add_log_add_log. reflexivity.
    + by rewrite save_failed_run.
Qed.

Lemma wall_us_localize t : wall_us (tz_localize_none t) = wall_us t.
Proof. reflexivity. Qed.

Lemma conflict_spec user cloud :
  conflict (tz_localize_none <$> user) (tz_localize_none <$> cloud) = true
  ↔ remote_is_newer user cloud.
Proof.
  unfold conflict, remote_is_newer, ts_gt.
  destruct user as [u|], cloud as [c|]; simpl.
  - rewrite !wall_us_localize, Z.ltb_lt. split; [eauto|].
    by intros (? & ? & [= <-] & [= <-] & ?).
  - split; [done|]. by intros (? & ? & _ & ? & _).
  - split; [done|]. by intros (? & ? & ? & _).
  - split; [done|]. by intros (? & ? & ? & _).
Qed.

(** Messages are told apart by their first byte. *)
Lemma append_head_ne (a b : ascii) (p q s : string) :
  a ≠ b → String a p +:+ s ≠ String b q.
Proof. intros Hne Heq. by injection Heq. Qed.

Ltac event_not_in :=
  rewrite ?elem_of_app, ?elem_of_cons, ?elem_of_nil;
  intuition (try discriminate; try congruence).

Lemma finish_log env new_df w :
  log (finish env new_df w).1 = log w ++ finish_events env new_df.
Proof.
  unfold finish, finish_events.
  destruct (clean_dataframe new_df) as [c|e]; [|done].
  by destruct (update_fault env).
Qed.

Lemma save_log env new_df w :
  log (save_with_conflict_detection env new_df w).1
  = log w ++ save_events env new_df w.
Proof.
  rewrite save_run. unfold save_events. cbv zeta.
  destruct (conflict _ _).
  - destruct (reload_clicked env).
    + rewrite refresh_run. cbn [fst log add_log sheet]. by rewrite <- !app_assoc.
    + destruct (force_clicked env).
      * rewrite finish_log. cbn [fst log add_log]. by rewrite <- !app_assoc.
      * cbn [fst log add_log]. by rewrite <- !app_assoc.
  - rewrite finish_log. cbn [fst log add_log]. by rewrite <- !app_assoc.
Qed.

Lemma load_error_not_conflict e : load_error_message e ≠ conflict_message.
Proof.
  unfold load_error_message. destruct (contains "429" e); [done|].
  by apply append_head_ne.
Qed.

Lemma loaded_no_conflict_message fault remote :
  StError conflict_message ∉ (loaded fault remote).2.
Proof.
  unfold loaded.
  assert (∀ e, StError conflict_message ≠ StError (load_error_message e)) as Hne.
  { intros e [= Heq]. by apply (load_error_not_conflict e). }
  destruct fault as [e|]; [|destruct (df_empty remote);
                              [|destruct (clean_dataframe remote) as [c|e]]];
    cbn [snd]; specialize (Hne e) || clear Hne; event_not_in.
Qed.

Lemma loaded_no_button fault remote l :
  StButton l ∉ (loaded fault remote).2.
Proof.
  unfold loaded.
  destruct fault as [e|]; [|destruct (df_empty remote);
                              [|destruct (clean_dataframe remote) as [c|e]]];
    cbn [snd]; event_not_in.
Qed.

Lemma save_failed_no_conflict_message e :
  StError conflict_message ∉ save_failed_events e.
Proof.
  unfold save_failed_events. destruct (contains "429" e).
  - event_not_in.
  - assert (StError conflict_message ≠ StError ("儲存失敗：" +:+ e)) as Hne.
    { by intros [=]. }
    event_not_in.
Qed.

Lemma save_failed_no_button e l : StButton l ∉ save_failed_events e.
Proof.
  unfold save_failed_events. destruct (contains "429" e); event_not_in.
Qed.

Lemma finish_no_conflict_message env new_df :
  StError conflict_message ∉ finish_events env new_df.
Proof.
  unfold finish_events. pose proof save_failed_no_conflict_message as Hs.
  destruct (clean_dataframe new_df) as [c|e]; [|done].
  rewrite elem_of_cons. intros [?|Hin]; [done|].
  destruct (update_fault env); [by apply Hs in Hin|].
  by apply list_elem_of_singleton in Hin.
Qed.

Lemma finish_no_button env new_df l : StButton l ∉ finish_events env new_df.
Proof.
  unfold finish_events. pose proof save_failed_no_button as Hs.
  destruct (clean_dataframe new_df) as [c|e]; [|done].
  rewrite elem_of_cons. intros [?|Hin]; [done|].
  destruct (update_fault env); [by apply Hs in Hin|].
  by apply list_elem_of_singleton in Hin.
Qed.


Lemma refresh_no_update fault remote d :
  ConnUpdate d ∉ [CacheClear] ++ (loaded fault remote).2
                   ++ [StToast "Data refreshed from Cloud"].
Proof.
  unfold loaded.
  destruct fault as [e|]; [|destruct (df_empty remote);
                              [|destruct (clean_dataframe remote) as [c|e]]];
    cbn [snd]; event_not_in.
Qed.

Lemma loaded_no_update fault remote d : ConnUpdate d ∉ (loaded fault remote).2.
Proof.
  unfold loaded.
  destruct fault as [e|]; [|destruct (df_empty remote);
                              [|destruct (clean_dataframe remote) as [c|e]]];
    cbn [snd]; event_not_in.
Qed.

Lemma prompt_no_update user cloud b d : ConnUpdate d ∉ prompt_events user cloud b.
Proof. unfold prompt_events, conflict_events. destruct b; event_not_in. Qed.

(** C2.  Once a conflict is flagged, the sheet is written only if the run
    was triggered by the force-overwrite button (and not by the reload
    one); with neither button clicked the run stops with the store of
    frames, the session and the sheet as they were, and without having
    called [conn.update]. *)
Theorem conflict_needs_resolution env new_df w :
  remote_is_newer (last_cloud_timestamp (session w))
                  (remote_max (read_fault env) (sheet w)) →
  let out := save_with_conflict_detection env new_df w in
  let evs := save_events env new_df w in
  log out.1 = log w ++ evs
  ∧ ((sheet out.1 ≠ sheet w ∨ ∃ d, ConnUpdate d ∈ evs) →
     reload_clicked env = false ∧ force_clicked env = true)
  ∧ (reload_clicked env = false → force_clicked env = false →
     out.2 = inr StopException
     ∧ heap out.1 = heap w ∧ session out.1 = session w
     ∧ sheet out.1 = sheet w
     ∧ ∀ d, ConnUpdate d ∉ evs).
Proof.
  intros Hnew out evs. split; [apply save_log|].
  apply conflict_spec in Hnew. subst out evs.
  rewrite save_run. unfold save_events. cbv zeta. rewrite Hnew.
  destruct (reload_clicked env), (force_clicked env).
  - split; [|done]. rewrite refresh_run. cbn [fst sheet add_log].
    intros [?|[d Hin]]; [done|]. exfalso. revert Hin.
    rewrite !elem_of_app. pose proof (loaded_no_update (read_fault env) (sheet w) d).
    pose proof (loaded_no_update (reload_read_fault env) (sheet w) d).
    pose proof (prompt_no_update
      (tz_localize_none <$> last_cloud_timestamp (session w))
      (tz_localize_none <$> remote_max (read_fault env) (sheet w)) false d).
    rewrite !elem_of_cons, elem_of_nil. intuition discriminate.
  - split; [|done]. rewrite refresh_run. cbn [fst sheet add_log].
    intros [?|[d Hin]]; [done|]. exfalso. revert Hin.
    rewrite !elem_of_app. pose proof (loaded_no_update (read_fault env) (sheet w) d).
    pose proof (loaded_no_update (reload_read_fault env) (sheet w) d).
    pose proof (prompt_no_update
      (tz_localize_none <$> last_cloud_timestamp (session w))
      (tz_localize_none <$> remote_max (read_fault env) (sheet w)) false d).
    rewrite !elem_of_cons, elem_of_nil. intuition discriminate.
  - done.
  - split.
    + cbn [fst sheet add_log]. intros [?|[d Hin]]; [done|]. exfalso. revert Hin.
      rewrite !elem_of_app.
      pose proof (loaded_no_update (read_fault env) (sheet w) d).
      pose proof (prompt_no_update
        (tz_localize_none <$> last_cloud_timestamp (session w))
        (tz_localize_none <$> remote_max (read_fault env) (sheet w)) true d).
      intuition.
    + intros _ _. cbn [fst snd heap session sheet add_log].
      repeat split. intros d. rewrite !elem_of_app.
      pose proof (loaded_no_update (read_fault env) (sheet w) d).
      pose proof (prompt_no_update
        (tz_localize_none <$> last_cloud_timestamp (session w))
        (tz_localize_none <$> remote_max (read_fault env) (sheet w)) true d).
      intuition.
Qed.

Lemma stamp_rows t c :
  Forall (λ r : gmap string cell, r !! "LastUpdated" = Some (CTs t))
         (rows (stamp t c)).
Proof.
  unfold stamp, set_scalar. cbn [rows]. apply Forall_fmap, Forall_true.
  intros r. simpl. apply lookup_insert_eq.
Qed.

Lemma to_upload_rows t c :
  Forall (λ r : gmap string cell,
            r !! "LastUpdated" = Some (CStr (strftime_ymd_HMS t)))
         (rows (to_upload (stamp t c))).
Proof.
  unfold to_upload, col_map. cbn [rows]. apply Forall_fmap.
  eapply Forall_impl; [apply stamp_rows|]. intros r Hr. simpl.
  unfold get. rewrite Hr. simpl. apply lookup_insert_eq.
Qed.

(** The upload differs from the frame kept in the session in the
    [LastUpdated] column only. *)
Lemma to_upload_other_columns df :
  columns (to_upload df) = columns df
  ∧ Forall2 (λ u r : gmap string cell, ∀ k, k ≠ "LastUpdated" → u !! k = r !! k)
            (rows (to_upload df)) (rows df).
Proof.
  split; [done|]. unfold to_upload, col_map. cbn [rows].
  apply Forall2_fmap_l, Forall_Forall2_diag, Forall_true.
  intros r k Hk. simpl. by rewrite lookup_insert_ne.
Qed.

Lemma save_reaches_write env new_df w :
  reaches_write env w →
  ∃ pre, save_with_conflict_detection env new_df w
         = finish env new_df (add_log w pre)
         ∧ save_events env new_df w = pre ++ finish_events env new_df.
Proof.
  intros Hr. rewrite save_run. unfold save_events. cbv zeta.
  pose proof (conflict_spec (last_cloud_timestamp (session w))
                (remote_max (read_fault env) (sheet w))) as Hc.
  destruct (conflict _ _).
  - destruct Hr as [Hn|[-> ->]]; [exfalso; by apply Hn, Hc|].
    eexists. rewrite add_log_add_log. split; [done|]. by rewrite app_assoc.
  - eexists. split; done.
Qed.

(** C3.  A save that reaches the write and meets no failure stamps every
    row with the one clock reading taken at line 127: the sheet receives
    it as text, the session keeps the normalised and stamped frame, of
    which the sheet is the upload form, and the watermark is that
    reading. *)
Theorem successful_save_stamps_once env new_df w :
  "Date" ∈ columns new_df → "Time" ∈ columns new_df →
  reaches_write env w →
  update_fault env = None →
  let out := save_with_conflict_detection env new_df w in
  ∃ c, clean_dataframe new_df = Ok c
    ∧ out.2 = inr RerunException
    ∧ StSuccess "✅ 儲存成功！雲端資料已更新。" ∈ save_events env new_df w
    ∧ heap out.1 !! data (session out.1) = Some (stamp (now env) c)
    ∧ last_cloud_timestamp (session out.1) = Some (now env)
    ∧ sheet out.1 = to_upload (stamp (now env) c)
    ∧ Forall (λ r : gmap string cell, r !! "LastUpdated" = Some (CTs (now env)))
             (rows (stamp (now env) c))
    ∧ Forall (λ r : gmap string cell,
                r !! "LastUpdated" = Some (CStr (strftime_ymd_HMS (now env))))
             (rows (sheet out.1)).
Proof.
  intros HD HT Hr Hu out. subst out.
  destruct (save_reaches_write env new_df w Hr) as (pre & -> & ->).
  eexists. split; [by apply clean_dataframe_rows|].
  unfold finish, finish_events. rewrite clean_dataframe_rows, Hu by done.
  cbn [fst snd written heap session sheet data last_cloud_timestamp].
  repeat split.
  - rewrite elem_of_app. right. right. by left.
  - apply lookup_insert_eq.
  - apply stamp_rows.
  - apply to_upload_rows.
Qed.






Lemma filter_zip_fmap (rs : list (gmap string cell)) (a b : cell) :
  length (filter (λ dt : cell * cell, dt.1 = a ∧ dt.2 = b)
                 (zip ((λ r, get r "Date") <$> rs) ((λ r, get r "Time") <$> rs)))
  = length (filter (λ r, get r "Date" = a ∧ get r "Time" = b) rs).
Proof.
  induction rs as [|r rs IH]; [done|]. cbn [fmap list_fmap zip zip_with].
  rewrite !filter_cons. cbn [fst snd].
  destruct (decide (get r "Date" = a ∧ get r "Time" = b)); simpl; by rewrite IH.
Qed.

Lemma existing_count_spec df check_date t_str :
  "Date" ∈ columns df → "Time" ∈ columns df →
  existing_count df check_date t_str
  = Ok (Z.of_nat (length (bookings_at df check_date t_str))).
Proof.
  intros HD HT. unfold existing_count, getitem, has_column.
  rewrite !bool_decide_eq_true_2 by done. cbn [mbind Result_bind].
  by rewrite filter_zip_fmap.
Qed.

Lemma save_logs_read env new_df w : ConnRead ∈ save_events env new_df w.
Proof.
  unfold save_events. apply elem_of_app. left. unfold loaded.
  destruct (read_fault env); [by left|].
  destruct (df_empty (sheet w)); [by left|].
  destruct (clean_dataframe (sheet w)); by left.
Qed.

(** C7.  With a positive limit and at least that many bookings already at
    the chosen date and time, submitting the form shows one error and does
    nothing else: the frames (so the snapshot), the session and the sheet
    are as before and the connection is not used, so the save was not
    entered. *)
Theorem full_slot_is_rejected df frame limit name c_id d t_str notes env w :
  heap w !! df = Some frame →
  "Date" ∈ columns frame → "Time" ∈ columns frame →
  0 < limit →
  limit ≤ Z.of_nat (length (bookings_at frame (date_strftime d) t_str)) →
  ∃ msg,
    add_booking_submit df limit name c_id d t_str notes env w
    = (mkWorld (heap w) (session w) (sheet w) (log w ++ [StError msg]), inl tt)
    ∧ (ConnRead ∉ [StError msg])
    ∧ (∀ data, ConnUpdate data ∉ [StError msg]).
Proof.
  intros Hdf HD HT Hlim Hfull. unfold add_booking_submit.
  destruct (decide (name = "")).
  - eexists. split; [reflexivity|]. split; [event_not_in|intros ?; event_not_in].
  - eexists. split; [|split; [event_not_in|intros ?; event_not_in]].
    rewrite bind_run. cbn [deref]. rewrite Hdf. cbn [default].
    apply Z.ltb_lt in Hlim. rewrite Hlim.
    rewrite !bind_run, existing_count_spec by done. cbn [lift].
    apply Z.leb_le in Hfull. run. rewrite Hfull. reflexivity.
Qed.

Lemma last_save_failed pre e msg :
  last (pre ++ save_failed_events e) ≠ Some (StSuccess msg).
Proof.
  unfold save_failed_events. destruct (contains "429" e).
  - by rewrite last_snoc.
  - change [?a; ?b; ?c] with ([a; b] ++ [c]). by rewrite app_assoc, last_snoc.
Qed.

Lemma reported_success_inv remote a :
  reported_success (attempt_on remote a) = true →
  ∃ c, clean_dataframe (candidate a) = Ok c
       ∧ sheet (attempt_on remote a).1
         = to_upload (stamp (now (attempt_env a)) c).
Proof.
  unfold reported_success, attempt_on. rewrite save_log, save_run.
  unfold save_events. cbv zeta. cbn [sheet session log].
  set (w := mkWorld _ _ _ _).
  destruct (conflict _ _).
  - destruct (reload_clicked _).
    + rewrite !app_assoc, last_snoc. done.
    + destruct (force_clicked _).
      * unfold finish, finish_events.
        destruct (clean_dataframe (candidate a)) as [c|e].
        -- destruct (update_fault _) as [e|]; [|by eauto].
           rewrite !app_assoc. change (?x :: save_failed_events e)
             with ([x] ++ save_failed_events e). rewrite !app_assoc.
           intros Hl. exfalso. revert Hl. 
           destruct (last _) as [[]|] eqn:Hl; try done.
           by apply last_save_failed in Hl.
        -- rewrite !app_assoc. intros Hl. exfalso. revert Hl.
           destruct (last _) as [[]|] eqn:Hl; try done.
           by apply last_save_failed in Hl.
      * unfold prompt_events. rewrite !app_assoc.
        change (?x :: [?y]) with ([x] ++ [y]). by rewrite !app_assoc, last_snoc.
  - unfold finish, finish_events.
    destruct (clean_dataframe (candidate a)) as [c|e].
    + destruct (update_fault _) as [e|]; [|by eauto].
      rewrite !app_assoc. change (?x :: save_failed_events e)
        with ([x] ++ save_failed_events e). rewrite !app_assoc.
      intros Hl. exfalso. revert Hl. 
      destruct (last _) as [[]|] eqn:Hl; try done.
      by apply last_save_failed in Hl.
    + rewrite !app_assoc. intros Hl. exfalso. revert Hl.
      destruct (last _) as [[]|] eqn:Hl; try done.
      by apply last_save_failed in Hl.
Qed.

Lemma history_stamps_bound remote attempts t :
  Forall (λ a, not_later t (now (attempt_env a))) attempts →
  Forall (λ h, not_later t h.1) (history remote attempts).
Proof.
  revert remote. induction attempts as [|a rest IH]; intros remote Hall; simpl.
  - done.
  - apply Forall_cons in Hall as [Ha Hrest].
    destruct (reported_success _); [apply Forall_cons; split; [done|]|];
      by apply IH.
Qed.

Lemma history_monotone remote attempts :
  clock_monotone attempts → stamps_monotone (history remote attempts).
Proof.
  unfold clock_monotone, stamps_monotone. revert remote.
  induction attempts as [|a rest IH]; intros remote Hs; simpl.
  - constructor.
  - apply StronglySorted_inv in Hs as [Hrest Ha].
    destruct (reported_success _); [|by apply IH].
    constructor; [by apply IH|]. by apply history_stamps_bound.
Qed.

Lemma history_stamped remote attempts :
  Forall (λ h, Forall (λ r : gmap string cell,
                         r !! "LastUpdated" = Some (CStr (strftime_ymd_HMS h.1)))
                      (rows h.2))
         (history remote attempts).
Proof.
  revert remote. induction attempts as [|a rest IH]; intros remote; simpl.
  - done.
  - destruct (reported_success _) eqn:Hok; [|by apply IH].
    apply Forall_cons. split; [|by apply IH]. cbn [fst snd].
    apply reported_success_inv in Hok as (c & _ & ->). apply to_upload_rows.
Qed.

(** C9, as the code has it.  Whatever [LastUpdated] the candidate rows
    carry, every row a successful save leaves in the sheet bears the clock
    reading of that save; and over any sequence of attempts, by whatever
    sessions, the stamps of the successful saves never go back provided no
    attempt reads an earlier clock than an attempt before it. *)
Theorem stamps_follow_the_clock remote attempts :
  clock_monotone attempts →
  stamps_monotone (history remote attempts)
  ∧ Forall (λ h, Forall (λ r : gmap string cell,
                           r !! "LastUpdated"
                           = Some (CStr (strftime_ymd_HMS h.1)))
                        (rows h.2))
           (history remote attempts).
Proof.
  intros Hclock. split; [by apply history_monotone|apply history_stamped].
Qed.

Lemma concat_chunks {A} (fuel n : nat) (l : list A) :
  (0 < n)%nat → (length l ≤ fuel)%nat → concat (chunks fuel n l) = l.
Proof.
  intros Hn. revert l. induction fuel as [|fuel IH]; intros l Hl.
  - destruct l; [done|]. simpl in Hl. lia.
  - destruct l as [|x l]; [done|].
    change (chunks (S fuel) n (x :: l))
      with (take n (x :: l) :: chunks fuel n (drop n (x :: l))).
    cbn [concat]. rewrite IH; [apply take_drop|].
    rewrite length_drop. simpl in *. lia.
Qed.

Lemma concat_monthdayscalendar fw y m :
  concat (monthdayscalendar fw y m) = itermonthdays fw y m.
Proof. unfold monthdayscalendar. apply concat_chunks; lia. Qed.

Lemma bind_replicate_nil {A B} (f : A → list B) n x :
  f x = [] → replicate n x ≫= f = [].
Proof. intros Hf. induction n as [|n IH]; [done|]. csimpl. by rewrite Hf, IH. Qed.

Lemma bind_ext_in {A B} (f g : A → list B) l :
  (∀ x, x ∈ l → f x = g x) → l ≫= f = l ≫= g.
Proof.
  induction l as [|x l IH]; intros Hfg; [done|]. csimpl.
  rewrite Hfg by left. f_equal. apply IH. intros; apply Hfg. by right.
Qed.

Lemma bind_concat {A B} (f : A → list B) (ls : list (list A)) :
  (l ← ls; l ≫= f) = concat ls ≫= f.
Proof.
  induction ls as [|l ls IH]; [done|]. csimpl. by rewrite bind_app, IH.
Qed.

Lemma concat_fmap_fmap {A B} (f : A → B) (ls : list (list A)) :
  concat ((λ l : list A, f <$> l) <$> ls) = f <$> concat ls.
Proof.
  induction ls as [|l ls IH]; [done|]. csimpl. by rewrite fmap_app, IH.
Qed.

Lemma month_grid_cells rs p :
  concat (month_grid rs p)
  = (λ d, mkCell d (if d =? 0 then [] else day_data_of rs (day_str p.1 p.2 d)))
      <$> itermonthdays 6 p.1 p.2.
Proof.
  unfold month_grid. by rewrite concat_fmap_fmap, concat_monthdayscalendar.
Qed.

Lemma shown_in_month_grid rs p :
  shown_in_month (month_grid rs p)
  = seqZ 1 (days_in_month p.1 p.2) ≫= day_indices rs p.
Proof.
  unfold shown_in_month. rewrite bind_concat, month_grid_cells, list_fmap_bind.
  unfold itermonthdays. rewrite !bind_app.
  rewrite !bind_replicate_nil by done. rewrite app_nil_r. cbn [app].
  apply bind_ext_in. intros d Hd. apply elem_of_seqZ in Hd. simpl.
  unfold cell_indices, day_indices. cbn [day_data].
  destruct (d =? 0) eqn:Hz; [lia|done].
Qed.

Lemma shown_grids rs months :
  shown ((λ p, (p, month_grid rs p)) <$> months)
  = p ← months; seqZ 1 (days_in_month p.1 p.2) ≫= day_indices rs p.
Proof.
  unfold shown. rewrite list_fmap_bind. apply bind_ext_in. intros p _. simpl.
  apply shown_in_month_grid.
Qed.

Lemma string_length_app (a b : string) :
  String.length (a +:+ b) = (String.length a + String.length b)%nat.
Proof.
  induction a as [|x a IH]; [done|].
  change (S (String.length (a +:+ b)) = S (String.length a + String.length b)).
  by rewrite IH.
Qed.

Lemma string_app_inj_suffix (a a' s s' : string) :
  String.length s = String.length s' → a +:+ s = a' +:+ s' → a = a' ∧ s = s'.
Proof.
  intros Hlen. revert a'. induction a as [|x a IH]; intros [|x' a'] Heq.
  - done.
  - exfalso. change (s = String x' (a' +:+ s')) in Heq.
    rewrite Heq in Hlen. simpl in Hlen. rewrite string_length_app in Hlen. lia.
  - exfalso. change (String x (a +:+ s) = s') in Heq.
    rewrite <- Heq in Hlen. simpl in Hlen. rewrite string_length_app in Hlen. lia.
  - change (String x (a +:+ s) = String x' (a' +:+ s')) in Heq.
    injection Heq as -> Heq. destruct (IH _ Heq) as [-> ->]. done.
Qed.

Lemma pad2_ok_all : forallb pad2_ok (seqZ 0 100) = true.
Proof. vm_compute. reflexivity. Qed.

Lemma pad2_range n :
  0 ≤ n < 100 →
  String.length (pad2 n) = 2%nat ∧ parse_digits12 (pad2 n) = Some n.
Proof.
  intros Hn. pose proof pad2_ok_all as Hall. rewrite forallb_forall in Hall.
  assert (n ∈ seqZ 0 100) as Hin by (apply elem_of_seqZ; lia).
  apply list_elem_of_In, Hall in Hin. by apply bool_decide_eq_true in Hin.
Qed.

Lemma pad2_inj m n : 0 ≤ m < 100 → 0 ≤ n < 100 → pad2 m = pad2 n → m = n.
Proof.
  intros Hm Hn Heq. destruct (pad2_range m Hm) as [_ Hpm].
  destruct (pad2_range n Hn) as [_ Hpn]. rewrite Heq in Hpm. congruence.
Qed.


#[global] Instance period_le_trans : Transitive period_le.
Proof. intros [] [] []; unfold period_le; simpl; lia. Qed.

#[global] Instance period_le_total : Total period_le.
Proof. intros [] []; unfold period_le; simpl; lia. Qed.

#[global] Instance period_le_antisym : AntiSymm (=) period_le.
Proof.
  intros [a b] [c d]; unfold period_le; simpl. intros ??.
  f_equal; lia.
Qed.


Lemma months_of_NoDup dts : NoDup (months_of dts).
Proof.
  unfold months_of. rewrite merge_sort_Permutation. apply NoDup_remove_dups.
Qed.

Lemma elem_of_months_of dts p :
  p ∈ months_of dts ↔ ∃ t, CTs t ∈ dts ∧ p = (year t, month t).
Proof.
  unfold months_of. rewrite merge_sort_Permutation, elem_of_remove_dups.
  rewrite list_elem_of_omap. split.
  - intros (c & Hc & Hp). destruct c; simplify_eq/=. eauto.
  - intros (t & Ht & ->). by exists (CTs t).
Qed.

#[global] Instance time_le_total : Total time_le.
Proof.
  intros a b. unfold time_le, sort_le.
  destruct (get a.2 "Time") as [x| | | | |], (get b.2 "Time") as [y| | | | |];
    try (by left); try (by right).
  destruct (total (≤)%string x y); [by left|by right].
Qed.


Lemma elem_of_day_data_of rs ds e :
  e ∈ day_data_of rs ds ↔ get e.2 "Date" = CStr ds ∧ e ∈ rs.
Proof.
  unfold day_data_of. by rewrite merge_sort_Permutation, list_elem_of_filter.
Qed.

Lemma NoDup_fst_filter {A B} (P : A * B → Prop) `{∀ x, Decision (P x)}
    (l : list (A * B)) :
  NoDup l.*1 → NoDup (filter P l).*1.
Proof.
  induction l as [|x l IH]; [done|]. rewrite filter_cons.
  cbn [fmap list_fmap]. intros [Hx Hl]%NoDup_cons.
  destruct (decide (P x)); [|by apply IH].
  cbn [fmap list_fmap]. apply NoDup_cons. split; [|by apply IH].
  intros Hin. apply Hx. apply list_elem_of_fmap in Hin as (y & -> & Hy).
  apply list_elem_of_filter in Hy as [_ Hy]. by apply list_elem_of_fmap_2.
Qed.


Lemma with_index_fst df : (with_index df).*1 = seq 0 (length (rows df)).
Proof.
  unfold with_index. rewrite fmap_imap.
  rewrite (imap_ext _ (λ i _, i)) by done.
  rewrite imap_seq_0. apply list_fmap_id.
Qed.

Lemma NoDup_with_index df : NoDup (with_index df).*1.
Proof. rewrite with_index_fst. apply NoDup_seq. Qed.

Lemma elem_of_with_index df i r :
  (i, r) ∈ with_index df ↔ rows df !! i = Some r.
Proof.
  unfold with_index. rewrite elem_of_lookup_imap. split.
  - by intros (j & y & [= -> ->] & ?).
  - intros ?. by exists i, r.
Qed.


Lemma days_in_month_range y m : 28 ≤ days_in_month y m ≤ 31.
Proof.
  unfold days_in_month. destruct (m =? 2); [destruct (isleap y); lia|].
  destruct (_ || _); lia.
Qed.

Lemma day_indices_inv rs p d i :
  i ∈ day_indices rs p d →
  ∃ r, (i, r) ∈ rs ∧ get r "Date" = CStr (day_str p.1 p.2 d).
Proof.
  unfold day_indices. intros ([j r] & -> & Hin)%list_elem_of_fmap.
  apply elem_of_day_data_of in Hin as [? ?]. by exists r.
Qed.

Lemma shown_grids_inv rs months i :
  i ∈ shown (grids_of rs months) →
  ∃ p d r, p ∈ months ∧ 1 ≤ d ≤ days_in_month p.1 p.2
           ∧ (i, r) ∈ rs ∧ get r "Date" = CStr (day_str p.1 p.2 d).
Proof.
  unfold grids_of. rewrite shown_grids.
  intros (p & Hin & Hp)%list_elem_of_bind.
  apply list_elem_of_bind in Hin as (d & Hin & Hd).
  apply day_indices_inv in Hin as (r & ? & ?).
  apply elem_of_seqZ in Hd. exists p, d, r. repeat split; try done; lia.
Qed.


Lemma elem_of_concat {A} (x : A) (ls : list (list A)) :
  x ∈ concat ls ↔ ∃ l, x ∈ l ∧ l ∈ ls.
Proof.
  induction ls as [|l ls IH]; simpl.
  - split; [by intros ?%elem_of_nil|]. by intros (? & _ & ?%elem_of_nil).
  - rewrite elem_of_app, IH. split.
    + intros [?|(l' & ? & ?)]; [exists l; split; [done|by left]|].
      exists l'. split; [done|by right].
    + intros (l' & ? & [->|?]%elem_of_cons); [by left|]. right. by exists l'.
Qed.

Lemma in_cell_grids rs months p d i r :
  p ∈ months → 1 ≤ d ≤ days_in_month p.1 p.2 →
  (i, r) ∈ rs → get r "Date" = CStr (day_str p.1 p.2 d) →
  in_cell (grids_of rs months) p d i.
Proof.
  intros Hp Hd Hr Hdate.
  set (c := mkCell d (day_data_of rs (day_str p.1 p.2 d))).
  assert (c ∈ concat (month_grid rs p)) as Hc.
  { rewrite month_grid_cells. apply list_elem_of_fmap. exists d. split.
    - subst c. destruct (d =? 0) eqn:Hz; [lia|done].
    - unfold itermonthdays. rewrite !elem_of_app. right. left.
      apply elem_of_seqZ. lia. }
  apply elem_of_concat in Hc as (week & Hc & Hweek).
  exists (month_grid rs p), week, c. repeat split; try done.
  - unfold grids_of. apply list_elem_of_fmap. by exists p.
  - unfold cell_indices. subst c. cbn [day_data].
    apply list_elem_of_fmap. exists (i, r). split; [done|].
    by apply elem_of_day_data_of.
Qed.


Lemma mapM_Ok {A B} (f : A → Result B) (l : list A) (k : list B) :
  mapM f l = Ok k ↔ Forall2 (λ x y, f x = Ok y) l k.
Proof.
  revert k. induction l as [|x l IH]; intros k.
  - split; [intros [= <-]; constructor|by intros ->%Forall2_nil_inv_l].
  - change (mapM f (x :: l))
      with (f x ≫= λ y, mapM f l ≫= λ k, mret (y :: k)).
    split.
    + destruct (f x) as [y|] eqn:Hx; [|done]. cbn [mbind Result_bind].
      destruct (mapM f l) as [k'|] eqn:Hl; [|done]. intros [= <-].
      constructor; [done|]. by apply IH.
    + intros (y & k' & Hy & Hk & ->)%Forall2_cons_inv_l.
      rewrite Hy. cbn [mbind Result_bind]. apply IH in Hk. by rewrite Hk.
Qed.

Lemma omap_cons_eq {A B} (f : A → option B) x l :
  omap f (x :: l) = match f x with Some y => y :: omap f l | None => omap f l end.
Proof. reflexivity. Qed.

Lemma with_dt_Ok df df' :
  with_dt df = Ok df' ↔
  "Date" ∈ columns df ∧ "Time" ∈ columns df ∧ dt_added df df'.
Proof.
  unfold with_dt, getitem, has_column, dt_added.
  destruct (decide ("Date" ∈ columns df)) as [HD|HD].
  2: { rewrite (bool_decide_eq_false_2 _ HD). cbn. split; [done|]. by intros [? _]. }
  rewrite (bool_decide_eq_true_2 _ HD). cbn [mbind Result_bind].
  destruct (decide ("Time" ∈ columns df)) as [HT|HT].
  2: { rewrite (bool_decide_eq_false_2 _ HT). cbn. split; [done|]. by intros (_ & ? & _). }
  rewrite (bool_decide_eq_true_2 _ HT). cbn [mbind Result_bind].
  split.
  - destruct (mapM _ (rows df)) as [rs|] eqn:Hm; [|done]. intros [= <-].
    cbn [columns rows]. repeat split; try done.
    apply mapM_Ok in Hm. eapply Forall2_impl; [done|]. intros r r' Hr. simpl in Hr.
    destruct (combined_dt r) as [c|]; [|done]. cbn in Hr. injection Hr as <-. eauto.
  - intros (_ & _ & Hc & Hrows). destruct df' as [cols' rs']. cbn [columns rows] in *.
    assert (mapM (λ r, c ← combined_dt r; Ok (<["dt" := c]> r)) (rows df) = Ok rs')
      as ->.
    { apply mapM_Ok. eapply Forall2_impl; [done|]. intros r r' (c & -> & ->). done. }
    by rewrite Hc.
Qed.

Lemma combined_dt_cases r c :
  combined_dt r = Ok c →
  c = CNaT ∨ ∃ s t, c = CTs t ∧ to_datetime s = Some t.
Proof.
  unfold combined_dt, add_cells.
  destruct (get r "Date") as [x| | | | |t]; cbn; try done;
    destruct (get r "Time") as [y| | | | |t']; cbn; try done;
    intros [= <-]; try (by left).
  destruct (to_datetime _) eqn:Hp; [right; eauto|by left].
Qed.

Lemma dt_added_lookup df df' i r :
  dt_added df df' → rows df !! i = Some r →
  ∃ c, combined_dt r = Ok c ∧ rows df' !! i = Some (<["dt" := c]> r).
Proof.
  intros [_ Hrows] Hr.
  destruct (Forall2_lookup_l _ _ _ _ _ Hrows Hr) as (r' & Hr' & c & ? & ->).
  eauto.
Qed.

Lemma dt_added_lookup_inv df df' i r' :
  dt_added df df' → rows df' !! i = Some r' →
  ∃ r c, rows df !! i = Some r ∧ combined_dt r = Ok c ∧ r' = <["dt" := c]> r.
Proof.
  intros [_ Hrows] Hr.
  destruct (Forall2_lookup_r _ _ _ _ _ Hrows Hr) as (r & ? & c & ? & ->).
  eauto.
Qed.

Lemma omap_to_period_dropna rs :
  omap to_period (dt_column (dropna_dt rs)) = omap to_period (dt_column rs).
Proof.
  unfold dt_column, dropna_dt. induction rs as [|e rs IH]; [done|].
  rewrite filter_cons.
  destruct (decide (notna (get e.2 "dt") = true)) as [Hn|Hn];
    rewrite !fmap_cons, !omap_cons_eq;
    destruct (to_period (get e.2 "dt")) eqn:Hp;
    try (f_equal; exact IH); try exact IH.
  destruct (get e.2 "dt"); simpl in *; done.
Qed.

Lemma pdf_grids_eq df :
  pdf_grids df
  = grids_of (dropna_dt (with_index df)) (months_of (dt_column (with_index df))).
Proof.
  unfold pdf_grids, grids_of, months_of. by rewrite omap_to_period_dropna.
Qed.

Lemma excel_grids_eq df :
  excel_grids df
  = grids_of (with_index df) (months_of (dt_column (with_index df))).
Proof. done. Qed.

Lemma grids_of_fst rs months : (grids_of rs months).*1 = months.
Proof.
  unfold grids_of. rewrite <- list_fmap_compose. apply list_fmap_id.
Qed.

Lemma elem_of_dt_column df df' t :
  dt_added df df' →
  CTs t ∈ dt_column (with_index df')
  ↔ ∃ i r, rows df !! i = Some r ∧ combined_dt r = Ok (CTs t).
Proof.
  intros Hadd. unfold dt_column. rewrite list_elem_of_fmap. split.
  - intros ([i r'] & Ht & Hin). apply elem_of_with_index in Hin.
    destruct (dt_added_lookup_inv _ _ _ _ Hadd Hin) as (r & c & Hr & Hc & ->).
    cbn [snd] in Ht. rewrite get_insert_eq in Ht. subst c. eauto.
  - intros (i & r & Hr & Hc).
    destruct (dt_added_lookup _ _ _ _ Hadd Hr) as (c & Hc' & Hr').
    rewrite Hc in Hc'. injection Hc' as <-.
    eexists (i, _). split; [|by apply elem_of_with_index].
    cbn [snd]. by rewrite get_insert_eq.
Qed.

Lemma months_valid df df' :
  parses_valid_dates → dt_added df df' →
  Forall (λ p : period, 0 ≤ p.2 < 100)
         (months_of (dt_column (with_index df'))).
Proof.
  intros Hvalid Hadd. apply Forall_forall. intros p Hp.
  apply elem_of_months_of in Hp as (t & Ht & ->).
  apply (elem_of_dt_column _ _ _ Hadd) in Ht as (i & r & _ & Hc).
  apply combined_dt_cases in Hc as [?|(s & t' & [= <-] & Hs)]; [done|].
  apply Hvalid in Hs as [? _]. cbn [snd]. lia.
Qed.



Lemma with_dt_again df df' : with_dt df = Ok df' → with_dt df' = Ok df'.
Proof.
  intros Hdt. apply with_dt_Ok in Hdt as (HD & HT & Hcols & Hrows).
  assert ("dt" ∈ columns df') as Hdtcol.
  { rewrite Hcols. unfold has_column. case_bool_decide; [done|].
    apply elem_of_app. right. by left. }
  assert (∀ c, c ∈ columns df → c ∈ columns df') as Hsub.
  { intros c Hc. rewrite Hcols. destruct (has_column "dt" df); [done|].
    apply elem_of_app. by left. }
  apply with_dt_Ok. split; [by apply Hsub|]. split; [by apply Hsub|].
  split.
  - unfold has_column. by rewrite bool_decide_eq_true_2.
  - apply Forall_Forall2_diag, Forall_forall. intros r' Hr'.
    apply list_elem_of_lookup in Hr' as [i Hi].
    destruct (Forall2_lookup_r _ _ _ _ _ Hrows Hi) as (r & _ & c & Hc & ->).
    exists c. split.
    + unfold combined_dt in *. by rewrite !get_insert_ne.
    + by rewrite insert_insert_eq.
Qed.

Lemma generate_visual_pdf_run l df df' w :
  heap w !! l = Some df → with_dt df = Ok df' →
  generate_visual_pdf l w
  = (mkWorld (<[l := df']> (heap w)) (session w) (sheet w) (log w),
     inl (render_pdf_page <$> pdf_grids df')).
Proof.
  intros Hl Hdt. unfold generate_visual_pdf.
  cbv [mbind M_bind deref]. rewrite Hl. cbn [default from_option id]. by rewrite Hdt.
Qed.

Lemma generate_visual_excel_run l df df' w :
  heap w !! l = Some df → with_dt df = Ok df' →
  generate_visual_excel l w
  = (mkWorld (<[l := df']> (heap w)) (session w) (sheet w) (log w),
     inl (render_worksheet <$> excel_grids df')).
Proof.
  intros Hl Hdt. unfold generate_visual_excel.
  cbv [mbind M_bind deref]. rewrite Hl. cbn [default from_option id]. by rewrite Hdt.
Qed.

(** C10.  Each exporter stores the frame with the [dt] column back into
    the object it was handed, so a frame without [dt] is changed by the
    call; the script hands them the session snapshot itself, which
    therefore has a [dt] column, outside the schema, once the export tab
    has run. *)
Theorem exporters_add_dt_in_place l df df' w :
  heap w !! l = Some df →
  with_dt df = Ok df' →
  (generate_visual_pdf l w).1 = mkWorld (<[l := df']> (heap w)) (session w) (sheet w) (log w)
  ∧ (generate_visual_excel l w).1
    = mkWorld (<[l := df']> (heap w)) (session w) (sheet w) (log w)
  ∧ "dt" ∈ columns df' ∧ ("dt" ∉ schema)
  ∧ ("dt" ∉ columns df → df' ≠ df)
  ∧ (data (session w) = l → df_empty df = false →
     let out := export_tab w in
     session out.1 = session w
     ∧ heap out.1 !! data (session out.1) = Some df').
Proof.
  intros Hl Hdt.
  split; [by erewrite generate_visual_pdf_run|].
  split; [by erewrite generate_visual_excel_run|].
  pose proof Hdt as Hdt'. apply with_dt_Ok in Hdt' as (_ & _ & Hcols & _).
  assert ("dt" ∈ columns df') as Hdtcol.
  { rewrite Hcols. unfold has_column. case_bool_decide; [done|].
    apply elem_of_app. right. by left. }
  split; [done|]. split.
  { unfold schema. rewrite !elem_of_cons, elem_of_nil.
    intros [?|[?|[?|[?|[?|[?|?]]]]]]; done. }
  split; [by intros Hn ->|].
  intros Hdata Hne out. subst out. unfold export_tab.
  rewrite bind_run. cbn [get_session]. rewrite Hdata.
  rewrite bind_run. cbn [deref]. rewrite Hl. cbn [default from_option id]. rewrite Hne.
  rewrite bind_run, (generate_visual_pdf_run _ _ _ _ Hl Hdt).
  rewrite bind_run.
  rewrite (generate_visual_excel_run l df' df');
    [|cbn [heap]; apply lookup_insert_eq|by apply (with_dt_again df)].
  cbn [fst heap session mret M_ret]. split; [done|].
  rewrite Hdata. apply lookup_insert_eq.
Qed.

Lemma clean_row_get cs r k :
  "Date" ∈ cs → "Time" ∈ cs → k ∈ cs →
  get (clean_row cs r) k = clean_cell k (get r k).
Proof.
  intros HD HT Hk. unfold get at 1. rewrite clean_row_lookup by done.
  by rewrite decide_True.
Qed.

Lemma clean_cell_date_form x : date_form (clean_cell "Date" x).
Proof.
  rewrite clean_cell_Date.
  destruct (replace_astype_str x) as (s & -> & _).
  unfold normalize_date. simpl.
  destruct (to_datetime s) as [t|] eqn:Ht; simpl; [|by left].
  right. eauto.
Qed.

Lemma clean_cell_time_form x : time_form (clean_cell "Time" x).
Proof.
  rewrite clean_cell_Time.
  destruct (replace_astype_str x) as (s & -> & _).
  destruct (normalize_time_cases s) as [->|(h & m & -> & Hh & Hm)];
    [by left|].
  right. eauto.
Qed.

Lemma clean_cell_stamp_form x : stamp_form (clean_cell "LastUpdated" x).
Proof.
  rewrite clean_cell_LastUpdated. simpl.
  destruct (to_datetime (str x)); [right|left]; eauto.
Qed.

Lemma clean_cell_text k x :
  k ∉ ["Date"; "Time"; "LastUpdated"] →
  clean_cell k x = replace_sentinels (astype_str x)
  ∧ text_form (clean_cell k x).
Proof.
  intros Hk. rewrite !elem_of_cons, elem_of_nil in Hk.
  unfold clean_cell. rewrite !decide_False by tauto.
  destruct (replace_astype_str x) as (s & -> & Hs). split; [done|].
  exists s. split; [done|]. by apply bool_decide_eq_false in Hs.
Qed.

Lemma clean_row_normal cs r :
  "Date" ∈ cs → "Time" ∈ cs → normal_row cs (clean_row cs r).
Proof.
  intros HD HT. repeat split.
  - rewrite clean_row_get by done. apply clean_cell_date_form.
  - rewrite clean_row_get by done. apply clean_cell_time_form.
  - unfold get at 1. rewrite clean_row_lookup by done.
    destruct (decide ("LastUpdated" ∈ cs)); simpl;
      [apply clean_cell_stamp_form|by left].
  - intros k Hk Hne. rewrite clean_row_get by done.
    by apply clean_cell_text.
Qed.

Lemma clean_dataframe_Ok_columns df c :
  clean_dataframe df = Ok c → "Date" ∈ columns df ∧ "Time" ∈ columns df.
Proof.
  intros Hc.
  destruct (decide ("Date" ∈ columns df)) as [HD|HD];
    [destruct (decide ("Time" ∈ columns df)) as [HT|HT]; [done|]|].
  - destruct (clean_dataframe_key_error df) as [e He]; [by right|congruence].
  - destruct (clean_dataframe_key_error df) as [e He]; [by left|congruence].
Qed.


(** X2.  The frame [clean_dataframe] returns has the columns of its
    argument, with LastUpdated appended when it was missing, and one row
    per row of the argument.  In every row the Date is empty or a
    [%Y-%m-%d] date, the Time is empty or [HH:MM] with 0-23 hours and 0-59
    minutes, LastUpdated is a timestamp or NaT, and every other cell is the
    text of the original cell, emptied when that text is one of NaT, nan,
    None and <NA>. *)
Theorem clean_dataframe_normal_form df c :
  clean_dataframe df = Ok c →
  columns c = clean_columns (columns df)
  ∧ "LastUpdated" ∈ columns c
  ∧ length (rows c) = length (rows df)
  ∧ Forall (normal_row (columns df)) (rows c)
  ∧ Forall2 (λ r r' : gmap string cell,
               ∀ k, k ∈ columns df → k ∉ ["Date"; "Time"; "LastUpdated"] →
                    get r' k = replace_sentinels (astype_str (get r k)))
            (rows df) (rows c).
Proof.
  intros Hc. destruct (clean_dataframe_Ok_columns _ _ Hc) as [HD HT].
  rewrite clean_dataframe_rows in Hc by done. injection Hc as <-.
  cbn [columns rows]. split; [done|]. split; [|split; [|split]].
  - apply elem_of_clean_columns. by right.
  - by rewrite length_fmap.
  - apply Forall_fmap, Forall_forall. intros r _. simpl.
    by apply clean_row_normal.
  - apply Forall2_fmap_r, Forall_Forall2_diag, Forall_forall.
    intros r _ k Hk Hne. rewrite clean_row_get by done.
    by apply clean_cell_text.
Qed.

Lemma split_on_no_sep sep s :
  has_char sep s = false → split_on sep s = [s].
Proof.
  induction s as [|a s IH]; [done|]. simpl. intros Hc.
  apply orb_false_iff in Hc as [Ha Hs]. apply bool_decide_eq_false in Ha.
  rewrite decide_False by done. by rewrite IH.
Qed.

Lemma split_on_app sep a b :
  has_char sep a = false →
  split_on sep (a +:+ String sep b) = a :: split_on sep b.
Proof.
  induction a as [|x a IH]; intros Hc.
  - change (split_on sep (String sep b) = "" :: split_on sep b).
    simpl. by rewrite decide_True.
  - change (split_on sep (String x (a +:+ String sep b))
            = String x a :: split_on sep b).
    simpl in Hc. apply orb_false_iff in Hc as [Hx Ha].
    apply bool_decide_eq_false in Hx.
    simpl. rewrite decide_False by done. by rewrite IH.
Qed.

Lemma digits_ok_all : forallb digits_ok (seqZ 0 100) = true.
Proof. vm_compute. reflexivity. Qed.

Lemma digits_range n :
  0 ≤ n < 100 →
  has_char ":" (pad2 n) = false ∧ has_char ":" (pretty n) = false
  ∧ parse_digits12 (pad2 n) = Some n ∧ parse_digits12 (pretty n) = Some n.
Proof.
  intros Hn. pose proof digits_ok_all as Hall. rewrite forallb_forall in Hall.
  assert (n ∈ seqZ 0 100) as Hin by (apply elem_of_seqZ; lia).
  apply list_elem_of_In, Hall in Hin. by apply bool_decide_eq_true in Hin.
Qed.

(** What the two patterns make of [a:b] and [a:b:c] when the parts hold
    no colon. *)
Lemma strptime_two_parts a b :
  has_char ":" a = false → has_char ":" b = false →
  strptime_HM00 (a +:+ ":" +:+ b) = None
  ∧ strptime_HM (a +:+ ":" +:+ b)
    = (h ← parse_digits12 a; m ← parse_digits12 b; time_of_day h m).
Proof.
  intros Ha Hb. unfold strptime_HM00, strptime_HM.
  change (a +:+ ":" +:+ b) with (a +:+ String ":" b).
  by rewrite split_on_app, split_on_no_sep by done.
Qed.

Lemma strptime_three_parts a b c :
  has_char ":" a = false → has_char ":" b = false → has_char ":" c = false →
  strptime_HM (a +:+ ":" +:+ b +:+ ":" +:+ c) = None
  ∧ strptime_HM00 (a +:+ ":" +:+ b +:+ ":" +:+ c)
    = (if decide (c = "00")
       then h ← parse_digits12 a; m ← parse_digits12 b; time_of_day h m
       else None).
Proof.
  intros Ha Hb Hc. unfold strptime_HM00, strptime_HM.
  change (a +:+ ":" +:+ b +:+ ":" +:+ c)
    with (a +:+ String ":" (b +:+ String ":" c)).
  by rewrite !split_on_app, split_on_no_sep by done.
Qed.

Lemma time_of_day_range h m :
  0 ≤ h → 0 ≤ m →
  dt_strftime strftime_HM
    (match time_of_day h m with Some t => CTs t | None => CNaT end)
  = if (h <=? 23) && (m <=? 59) then CStr (hm h m) else CNaN.
Proof.
  intros Hh Hm. unfold time_of_day.
  by destruct ((h <=? 23) && (m <=? 59)).
Qed.

(** X3.  The time formats [clean_dataframe] accepts.  For an hour and a
    minute of at most two digits, the texts [HH:MM], [HH:MM:00] and the
    unpadded [H:M] all normalise to [HH:MM] when the hour is at most 23 and
    the minute at most 59, and to a missing value otherwise; with seconds
    other than 00 the text always normalises to a missing value. *)
Theorem normalize_time_formats h m :
  0 ≤ h < 100 → 0 ≤ m < 100 →
  let good := if (h <=? 23) && (m <=? 59) then CStr (hm h m) else CNaN in
  normalize_time (CStr (pad2 h +:+ ":" +:+ pad2 m)) = good
  ∧ normalize_time (CStr (pad2 h +:+ ":" +:+ pad2 m +:+ ":" +:+ "00")) = good
  ∧ normalize_time (CStr (pretty h +:+ ":" +:+ pretty m)) = good
  ∧ (∀ s, 0 < s < 100 →
       normalize_time (CStr (pad2 h +:+ ":" +:+ pad2 m +:+ ":" +:+ pad2 s))
       = CNaN).
Proof.
  intros Hh Hm good.
  destruct (digits_range h Hh) as (Hch & Hch' & Hph & Hph').
  destruct (digits_range m Hm) as (Hcm & Hcm' & Hpm & Hpm').
  split; [|split; [|split]].
  - unfold normalize_time, to_datetime_with.
    destruct (strptime_two_parts (pad2 h) (pad2 m)) as [-> ->]; [done..|].
    rewrite Hph, Hpm. cbn [mbind option_bind fillna_with notna].
    apply time_of_day_range; lia.
  - unfold normalize_time, to_datetime_with.
    destruct (strptime_three_parts (pad2 h) (pad2 m) "00") as [-> ->];
      [done..|].
    rewrite decide_True by done. rewrite Hph, Hpm.
    cbn [mbind option_bind].
    unfold good. rewrite <- time_of_day_range by lia.
    by destruct (time_of_day h m).
  - unfold normalize_time, to_datetime_with.
    destruct (strptime_two_parts (pretty h) (pretty m)) as [-> ->]; [done..|].
    rewrite Hph', Hpm'. cbn [mbind option_bind fillna_with notna].
    apply time_of_day_range; lia.
  - intros s Hs.
    destruct (digits_range s ltac:(lia)) as (Hcs & _ & Hps & _).
    unfold normalize_time, to_datetime_with.
    destruct (strptime_three_parts (pad2 h) (pad2 m) (pad2 s)) as [-> ->];
      [done..|].
    rewrite decide_False; [done|].
    intros Heq. rewrite Heq in Hps. simpl in Hps. injection Hps. lia.
Qed.

Lemma elem_of_TIME_SLOTS s :
  s ∈ TIME_SLOTS ↔ ∃ h m, 9 ≤ h ≤ 23 ∧ (m = 0 ∨ m = 30) ∧ s = hm h m.
Proof.
  unfold TIME_SLOTS. rewrite list_elem_of_bind. split.
  - intros (h & Hs & Hh). apply elem_of_seqZ in Hh.
    apply list_elem_of_bind in Hs as (m & Hs & Hm).
    apply list_elem_of_singleton in Hs.
    exists h, m. split; [lia|]. split; [|done].
    rewrite !elem_of_cons, elem_of_nil in Hm. tauto.
  - intros (h & m & Hh & Hm & ->). exists h. split; [|apply elem_of_seqZ; lia].
    apply list_elem_of_bind. exists m. split; [by apply list_elem_of_singleton|].
    rewrite !elem_of_cons. tauto.
Qed.

Lemma TIME_SLOTS_normal s :
  s ∈ TIME_SLOTS →
  normalize_time (replace_sentinels (CStr s)) = CStr s.
Proof.
  intros (h & m & Hh & Hm & ->)%elem_of_TIME_SLOTS.
  apply hm_stable_range; lia.
Qed.

Lemma finish_returns env new_df w :
  (finish env new_df w).2 = inl tt ↔ ∃ e, write_raises env new_df e.
Proof.
  unfold finish, write_raises. destruct (clean_dataframe new_df) as [c|e].
  - destruct (update_fault env) as [e|]; cbn [snd].
    + split; [|done]. intros _. exists e. right. eauto.
    + split; [done|]. by intros (e & [?|[_ ?]]).
  - cbn [snd]. split; [|done]. intros _. exists e. by left.
Qed.

(** A save returns only when its write was reached and failed: a success
    and a reload end in a rerun, an unanswered conflict in a stop. *)
Lemma save_returns env new_df w :
  (save_with_conflict_detection env new_df w).2 = inl tt
  ↔ reaches_write env w ∧ ∃ e, write_raises env new_df e.
Proof.
  rewrite save_run. cbv zeta. unfold reaches_write.
  pose proof (conflict_spec (last_cloud_timestamp (session w))
                (remote_max (read_fault env) (sheet w))) as Hc.
  destruct (conflict _ _).
  - assert (remote_is_newer (last_cloud_timestamp (session w))
              (remote_max (read_fault env) (sheet w))) as Hn by by apply Hc.
    destruct (reload_clicked env).
    + rewrite refresh_run. cbn [snd]. split; [done|].
      intros [[?|[? _]] _]; done.
    + destruct (force_clicked env).
      * rewrite finish_returns. split; [|tauto]. intros ?. split; [|done].
        by right.
      * cbn [snd]. split; [done|]. intros [[?|[_ ?]] _]; done.
  - rewrite finish_returns. split; [|tauto]. intros ?. split; [|done].
    left. intros Hn. apply Hc in Hn. done.
Qed.

Lemma save_events_no_conflict env new_df w :
  ¬ remote_is_newer (last_cloud_timestamp (session w))
                    (remote_max (read_fault env) (sheet w)) →
  save_events env new_df w
  = (loaded (read_fault env) (sheet w)).2 ++ finish_events env new_df.
Proof.
  intros Hn. unfold save_events. cbv zeta.
  pose proof (conflict_spec (last_cloud_timestamp (session w))
                (remote_max (read_fault env) (sheet w))) as Hc.
  destruct (conflict _ _); [|done]. exfalso. by apply Hn, Hc.
Qed.

Lemma no_prompt_without_conflict env new_df w :
  ¬ remote_is_newer (last_cloud_timestamp (session w))
                    (remote_max (read_fault env) (sheet w)) →
  (StError conflict_message ∉ save_events env new_df w)
  ∧ ∀ l, StButton l ∉ save_events env new_df w.
Proof.
  intros Hn. rewrite save_events_no_conflict by done. split.
  - rewrite elem_of_app.
    pose proof (loaded_no_conflict_message (read_fault env) (sheet w)).
    pose proof (finish_no_conflict_message env new_df). tauto.
  - intros l. rewrite elem_of_app.
    pose proof (loaded_no_button (read_fault env) (sheet w) l).
    pose proof (finish_no_button env new_df l). tauto.
Qed.

(** What a save that reaches the write and meets no failure leaves. *)
Lemma save_written env new_df w :
  "Date" ∈ columns new_df → "Time" ∈ columns new_df →
  reaches_write env w → update_fault env = None →
  ∃ pre,
    save_with_conflict_detection env new_df w
    = (written env (mkDf (clean_columns (columns new_df))
                         (clean_row (columns new_df) <$> rows new_df))
               (add_log w pre),
       inr RerunException).
Proof.
  intros HD HT Hr Hu.
  destruct (save_reaches_write env new_df w Hr) as (pre & -> & _).
  exists pre. unfold finish. by rewrite clean_dataframe_rows, Hu by done.
Qed.

Lemma foldl_ts_max_const t a cells :
  a = None ∨ a = Some t →
  Forall (λ x, x = CNaT ∨ x = CTs t) cells →
  foldl ts_max a cells = None ∨ foldl ts_max a cells = Some t.
Proof.
  intros Ha Hcells. revert a Ha.
  induction Hcells as [|x cells [->| ->] _ IH]; intros a Ha; [done|..].
  - cbn [foldl]. apply IH. by destruct a.
  - cbn [foldl]. apply IH. right. destruct Ha as [->| ->]; [done|].
    cbn [ts_max]. by destruct (wall_us t <? wall_us t).
Qed.

Lemma foldl_ts_max_all t a cells :
  a = None ∨ a = Some t → (a = None → cells ≠ []) →
  Forall (λ x, x = CTs t) cells →
  foldl ts_max a cells = Some t.
Proof.
  intros Ha Hne Hcells. revert a Ha Hne.
  induction Hcells as [|x cells -> _ IH]; intros a Ha Hne.
  - destruct Ha as [->| ->]; [exfalso; by apply Hne|done].
  - cbn [foldl].
    assert (ts_max a (CTs t) = Some t) as ->.
    { destruct Ha as [->| ->]; [done|].
      cbn [ts_max]. by destruct (wall_us t <? wall_us t). }
    apply IH; [by right|done].
Qed.

Lemma column_max_stamp t c :
  rows c ≠ [] → column_max "LastUpdated" (stamp t c) = Some t.
Proof.
  intros Hne. unfold column_max.
  apply foldl_ts_max_all; [by left| |].
  - intros _. unfold stamp, set_scalar. cbn [rows].
    destruct (rows c); [done|]. done.
  - apply Forall_fmap. eapply Forall_impl; [apply stamp_rows|].
    intros r Hr. simpl. unfold get. by rewrite Hr.
Qed.

(** The maximum a fetch finds in a sheet whose rows all carry the text [s]
    as LastUpdated is what the parser makes of [s]. *)
Lemma clean_row_of_stamped cs r s :
  "Date" ∈ cs → "Time" ∈ cs →
  r !! "LastUpdated" = Some (CStr s) →
  get (clean_row cs r) "LastUpdated"
  = if decide ("LastUpdated" ∈ cs)
    then to_datetime_with to_datetime (CStr s) else CNaT.
Proof.
  intros HD HT Hr. unfold get at 1. rewrite clean_row_lookup by done.
  destruct (decide ("LastUpdated" ∈ cs)); [|done].
  cbn [default from_option id]. rewrite clean_cell_LastUpdated.
  unfold get. by rewrite Hr.
Qed.

Lemma foldl_ts_max_nat a cells :
  Forall (λ x, x = CNaT) cells → foldl ts_max a cells = a.
Proof.
  intros Hall. revert a.
  induction Hall as [|x cells -> _ IH]; intros a; [done|].
  cbn [foldl]. rewrite IH. by destruct a.
Qed.

Lemma remote_max_of_stamped remote s :
  Forall (λ r : gmap string cell, r !! "LastUpdated" = Some (CStr s))
         (rows remote) →
  remote_max None remote = None
  ∨ ∃ t, to_datetime s = Some t ∧ remote_max None remote = Some t.
Proof.
  intros Hrows. unfold remote_max, loaded.
  destruct (df_empty remote); [by left|].
  destruct (clean_dataframe remote) as [c|e] eqn:Hc; [|by left].
  cbn [fst].
  destruct (negb (df_empty c) && has_column "LastUpdated" c); [|by left].
  destruct (clean_dataframe_Ok_columns _ _ Hc) as [HD HT].
  rewrite clean_dataframe_rows in Hc by done. injection Hc as <-.
  unfold column_max. cbn [rows]. rewrite <- list_fmap_compose.
  destruct (to_datetime s) as [t|] eqn:Ht.
  - destruct (foldl_ts_max_const t None
                ((λ r, get r "LastUpdated") ∘ clean_row (columns remote)
                   <$> rows remote)) as [->| ->]; [by left| |by left|eauto].
    apply Forall_fmap. eapply Forall_impl; [exact Hrows|].
    intros r Hr. simpl in Hr |- *. rewrite (clean_row_of_stamped _ _ s) by done.
    destruct (decide ("LastUpdated" ∈ columns remote)); [|by left].
    right. simpl. by rewrite Ht.
  - left. apply foldl_ts_max_nat.
    apply Forall_fmap. eapply Forall_impl; [exact Hrows|].
    intros r Hr. simpl in Hr |- *. rewrite (clean_row_of_stamped _ _ s) by done.
    destruct (decide ("LastUpdated" ∈ columns remote)); [|done].
    simpl. by rewrite Ht.
Qed.

(** X4.  A session does not conflict with its own write.  After a save
    that went through, the next save from the same session, whatever it
    holds and whether its fetch works or fails, finds no newer stamp in
    the sheet it has just written: it shows neither the conflict message
    nor a button and goes on to the write.  This rests on the parser not
    reading the stamp's text as a later time than the stamp. *)
Theorem no_conflict_with_own_write env new_df w env' new_df' :
  "Date" ∈ columns new_df → "Time" ∈ columns new_df →
  reaches_write env w → update_fault env = None →
  reads_stamp (now env) →
  let w1 := (save_with_conflict_detection env new_df w).1 in
  ¬ remote_is_newer (last_cloud_timestamp (session w1))
                    (remote_max (read_fault env') (sheet w1))
  ∧ reaches_write env' w1
  ∧ (StError conflict_message ∉ save_events env' new_df' w1)
  ∧ ∀ l, StButton l ∉ save_events env' new_df' w1.
Proof.
  intros HD HT Hr Hu Hread w1.
  assert (¬ remote_is_newer (last_cloud_timestamp (session w1))
                            (remote_max (read_fault env') (sheet w1))) as Hn.
  { subst w1. destruct (save_written env new_df w HD HT Hr Hu) as [pre ->].
    cbn [fst written session sheet last_cloud_timestamp].
    intros (u & c & Hu' & Hc & Hlt). injection Hu' as <-.
    destruct (read_fault env'); [done|].
    destruct (remote_max_of_stamped _ _
                (to_upload_rows (now env)
                   (mkDf (clean_columns (columns new_df))
                         (clean_row (columns new_df) <$> rows new_df))))
      as [Hm|(t & Ht & Hm)]; rewrite Hm in Hc; [done|].
    injection Hc as <-. apply Hread in Ht. lia. }
  split; [done|]. split; [by left|]. by apply no_prompt_without_conflict.
Qed.

Lemma stamp_eq t c :
  "LastUpdated" ∈ columns c →
  stamp t c
  = mkDf (columns c) ((λ r, <["LastUpdated" := CTs t]> r) <$> rows c).
Proof.
  intros HL. unfold stamp, set_scalar, has_column.
  by rewrite (bool_decide_eq_true_2 _ HL).
Qed.

Lemma to_upload_stamp_eq t c :
  "LastUpdated" ∈ columns c →
  to_upload (stamp t c)
  = mkDf (columns c)
         ((λ r, <["LastUpdated" := CStr (strftime_ymd_HMS t)]> r) <$> rows c).
Proof.
  intros HL. rewrite stamp_eq by done. unfold to_upload, col_map.
  cbn [columns rows]. f_equal. rewrite <- list_fmap_compose.
  apply list_fmap_ext. intros i r _. simpl.
  by rewrite get_insert_eq, insert_insert_eq.
Qed.

(** Normalising the upload of a normalised frame gives that frame back,
    with the stamp as it is read from its text. *)
Lemma clean_row_of_upload cs r s :
  date_roundtrip → "Date" ∈ cs → "Time" ∈ cs →
  clean_row (clean_columns cs) (<["LastUpdated" := CStr s]> (clean_row cs r))
  = <["LastUpdated" := to_datetime_with to_datetime (CStr s)]> (clean_row cs r).
Proof.
  intros Hrt HD HT. apply map_eq. intros k.
  rewrite clean_row_lookup by (apply elem_of_clean_columns; by left).
  destruct (decide (k = "LastUpdated")) as [->|Hk].
  - rewrite decide_True by (apply elem_of_clean_columns; by right).
    rewrite lookup_insert_eq, get_insert_eq. by rewrite clean_cell_LastUpdated.
  - rewrite lookup_insert_ne by done.
    rewrite get_insert_ne, lookup_insert_ne by done.
    unfold get. rewrite !clean_row_lookup by done.
    destruct (decide (k ∈ clean_columns cs)) as [Hin|Hout].
    + apply elem_of_clean_columns in Hin as [Hin|?]; [|done].
      rewrite !decide_True by done. cbn [default from_option id]. f_equal.
      destruct (decide (k = "Date")) as [->|];
        [by apply clean_cell_date_stable|].
      destruct (decide (k = "Time")) as [->|];
        [by apply clean_cell_time_stable|].
      by apply clean_cell_text_stable.
    + rewrite decide_False; [done|]. intros ?. apply Hout.
      apply elem_of_clean_columns. by left.
Qed.

Lemma df_empty_false df :
  rows df ≠ [] → columns df ≠ [] → df_empty df = false.
Proof. unfold df_empty. by destruct (rows df), (columns df). Qed.

Lemma clean_columns_nonempty cs : clean_columns cs ≠ [].
Proof.
  intros Hnil. assert ("LastUpdated" ∈ clean_columns cs) as HL
    by (apply elem_of_clean_columns; by right).
  rewrite Hnil in HL. by apply elem_of_nil in HL.
Qed.

Lemma loaded_upload t t' cs rs :
  date_roundtrip → "Date" ∈ cs → "Time" ∈ cs → rs ≠ [] →
  to_datetime (strftime_ymd_HMS t) = Some t' →
  let c := mkDf (clean_columns cs) (clean_row cs <$> rs) in
  loaded None (to_upload (stamp t c)) = (stamp t' c, [ConnRead]).
Proof.
  intros Hrt HD HT Hne Ht c.
  assert ("LastUpdated" ∈ columns c) as HL
    by (apply elem_of_clean_columns; by right).
  rewrite to_upload_stamp_eq, stamp_eq by done. subst c. cbn [columns rows].
  unfold loaded. rewrite df_empty_false; cbn [columns rows];
    [|by destruct rs|apply clean_columns_nonempty].
  rewrite clean_dataframe_rows; cbn [columns rows];
    try (apply elem_of_clean_columns; by left).
  rewrite clean_columns_idem. do 2 f_equal.
  rewrite <- !list_fmap_compose. apply list_fmap_ext. intros i r _. simpl.
  rewrite clean_row_of_upload by done. simpl. by rewrite Ht.
Qed.

(** X5.  Writing and reading back.  After a save of a table with at least
    one row went through, a fetch that works returns the session's new
    snapshot with, in every row, the stamp as the parser reads it back
    from its text: same columns, same cells elsewhere.  This rests on the
    parser reading back the [%Y-%m-%d] text of a date. *)
Theorem save_then_load env new_df w t' :
  "Date" ∈ columns new_df → "Time" ∈ columns new_df →
  rows new_df ≠ [] →
  reaches_write env w → update_fault env = None →
  date_roundtrip →
  to_datetime (strftime_ymd_HMS (now env)) = Some t' →
  let w1 := (save_with_conflict_detection env new_df w).1 in
  ∃ c, clean_dataframe new_df = Ok c
       ∧ heap w1 !! data (session w1) = Some (stamp (now env) c)
       ∧ (load_data_from_google None w1).2 = inl (stamp t' c).
Proof.
  intros HD HT Hne Hr Hu Hrt Ht w1.
  eexists. split; [by apply clean_dataframe_rows|].
  subst w1. destruct (save_written env new_df w HD HT Hr Hu) as [pre ->].
  cbn [fst]. split; [apply lookup_insert_eq|].
  rewrite load_run. cbn [snd]. f_equal.
  change (sheet (written env ?c ?w)) with (to_upload (stamp (now env) c)).
  by rewrite (loaded_upload _ t').
Qed.

(** X6.  The caption follows the save.  After a save of a table with at
    least one row went through, the caption computed from the session's
    snapshot shows the save's stamp, in the very text written to the
    LastUpdated column of the sheet. *)
Theorem caption_shows_last_save env new_df w :
  "Date" ∈ columns new_df → "Time" ∈ columns new_df →
  rows new_df ≠ [] →
  reaches_write env w → update_fault env = None →
  let w1 := (save_with_conflict_detection env new_df w).1 in
  ∃ snapshot,
    heap w1 !! data (session w1) = Some snapshot
    ∧ last_updated_caption snapshot
      = Some ("📅 Last Updated: " +:+ strftime_ymd_HMS (now env))
    ∧ Forall (λ r : gmap string cell,
                r !! "LastUpdated" = Some (CStr (strftime_ymd_HMS (now env))))
             (rows (sheet w1)).
Proof.
  intros HD HT Hne Hr Hu w1. subst w1.
  destruct (save_written env new_df w HD HT Hr Hu) as [pre ->].
  cbn [fst written session data heap sheet]. eexists.
  split; [apply lookup_insert_eq|]. split; [|apply to_upload_rows].
  unfold last_updated_caption.
  rewrite column_max_stamp by (cbn [rows]; by destruct (rows new_df)).
  assert (df_empty (stamp (now env)
            (mkDf (clean_columns (columns new_df))
                  (clean_row (columns new_df) <$> rows new_df))) = false) as ->.
  { unfold df_empty, stamp, set_scalar, has_column. cbn [rows columns].
    rewrite bool_decide_eq_true_2 by (apply elem_of_clean_columns; by right).
    destruct (rows new_df); [done|]. cbn [fmap list_fmap].
    assert ("LastUpdated" ∈ clean_columns (columns new_df)) as HL
      by (apply elem_of_clean_columns; by right).
    destruct (clean_columns (columns new_df)); [by apply elem_of_nil in HL|].
    done. }
  assert (has_column "LastUpdated" (stamp (now env)
            (mkDf (clean_columns (columns new_df))
                  (clean_row (columns new_df) <$> rows new_df))) = true) as ->.
  { unfold has_column, stamp, set_scalar, has_column. cbn [columns].
    rewrite (bool_decide_eq_true_2 ("LastUpdated" ∈ clean_columns _))
      by (apply elem_of_clean_columns; by right).
    apply bool_decide_eq_true_2, elem_of_clean_columns. by right. }
  done.
Qed.

(** X7.  Reloading resolves the conflict and drops the candidate.  When
    the save finds a newer stamp and the reload button was clicked, the
    run ends in a rerun with the sheet untouched and nothing uploaded; the
    table to be saved plays no part; the frames that existed are as they
    were and the session points to a new one, the table just fetched; and
    when that second fetch worked, the watermark is the sheet's newest
    stamp, so that a save of the next run finds nothing newer. *)
Theorem reload_drops_the_candidate env new_df w :
  remote_is_newer (last_cloud_timestamp (session w))
                  (remote_max (read_fault env) (sheet w)) →
  reload_clicked env = true →
  let out := save_with_conflict_detection env new_df w in
  let new_data := (loaded (reload_read_fault env) (sheet w)).1 in
  out.2 = inr RerunException
  ∧ sheet out.1 = sheet w
  ∧ (∀ d, ConnUpdate d ∉ save_events env new_df w)
  ∧ (∀ new_df', save_with_conflict_detection env new_df' w = out)
  ∧ (∀ l, l ∈ dom (heap w) → heap out.1 !! l = heap w !! l)
  ∧ (data (session out.1) ∉ dom (heap w))
  ∧ heap out.1 !! data (session out.1) = Some new_data
  ∧ form_id (session out.1) = form_id (session w)
  ∧ (reload_read_fault env = None →
     last_cloud_timestamp (session out.1) = remote_max None (sheet w)
     ∧ ∀ fault, ¬ remote_is_newer (last_cloud_timestamp (session out.1))
                                  (remote_max fault (sheet out.1))).
Proof.
  intros Hnew Hre out new_data.
  assert (read_fault env = None) as Hrf.
  { destruct (read_fault env) eqn:Hf; [|done].
    destruct Hnew as (? & ? & _ & ? & _). done. }
  pose proof Hnew as Hc. apply conflict_spec in Hc.
  assert (∀ df, save_with_conflict_detection env df w
                = refresh_data true (reload_read_fault env)
                    (add_log (add_log w (loaded (read_fault env) (sheet w)).2)
                       (prompt_events
                          (tz_localize_none <$> last_cloud_timestamp (session w))
                          (tz_localize_none
                             <$> remote_max (read_fault env) (sheet w))
                          false))) as Hrun.
  { intros df. rewrite save_run. cbv zeta. by rewrite Hc, Hre. }
  subst out. rewrite Hrun, refresh_run.
  cbn [fst snd heap session sheet log add_log data form_id refreshed
       last_cloud_timestamp].
  split; [done|]. split; [done|]. split; [|split; [|split; [|split; [|split;
    [|split]]]]].
  - intros d. unfold save_events. cbv zeta. rewrite Hc, Hre.
    rewrite !elem_of_app.
    pose proof (loaded_no_update (read_fault env) (sheet w) d).
    pose proof (loaded_no_update (reload_read_fault env) (sheet w) d).
    pose proof (prompt_no_update
      (tz_localize_none <$> last_cloud_timestamp (session w))
      (tz_localize_none <$> remote_max (read_fault env) (sheet w)) false d).
    rewrite !elem_of_cons, elem_of_nil. intuition discriminate.
  - intros df. by rewrite Hrun, refresh_run.
  - intros l Hl. rewrite lookup_insert_ne; [done|].
    intros <-. by apply is_fresh in Hl.
  - apply is_fresh.
  - apply lookup_insert_eq.
  - done.
  - intros Hrl. subst new_data. rewrite Hrl. rewrite Hrf in Hnew.
    assert ((if negb (df_empty (loaded None (sheet w)).1)
                && has_column "LastUpdated" (loaded None (sheet w)).1
             then column_max "LastUpdated" (loaded None (sheet w)).1
             else last_cloud_timestamp (session w))
            = remote_max None (sheet w)) as Hw.
    { unfold remote_max in *.
      destruct (negb (df_empty (loaded None (sheet w)).1)
                && has_column "LastUpdated" (loaded None (sheet w)).1);
        [done|].
      destruct Hnew as (? & ? & _ & ? & _). done. }
    rewrite Hw. split; [done|]. intros fault.
    intros (u & c & Hu' & Hc' & Hlt). destruct fault; [done|].
    rewrite Hu' in Hc'. injection Hc' as <-. lia.
Qed.

(** X8.  A Force Sync ends the run in a rerun, uploads nothing and leaves
    the sheet alone; the session then points to the table fetched.  When
    the fetch fails or the sheet is empty that table is the empty one with
    the six schema columns, while the watermark stays what it was: the
    session has lost its rows but still holds the stamp of the rows it
    had. *)
Theorem force_sync_replaces_snapshot fault w :
  let out := force_sync true fault w in
  let new_data := (loaded fault (sheet w)).1 in
  out.2 = inr RerunException
  ∧ sheet out.1 = sheet w
  ∧ (∃ evs, log out.1 = log w ++ evs ∧ ∀ d, ConnUpdate d ∉ evs)
  ∧ heap out.1 !! data (session out.1) = Some new_data
  ∧ form_id (session out.1) = form_id (session w)
  ∧ (fault ≠ None ∨ df_empty (sheet w) = true →
     new_data = empty_frame schema
     ∧ last_cloud_timestamp (session out.1) = last_cloud_timestamp (session w))
  ∧ (fault = None → df_empty (sheet w) = false →
     ∀ c, clean_dataframe (sheet w) = Ok c →
          new_data = c
          ∧ last_cloud_timestamp (session out.1) = column_max "LastUpdated" c)
  ∧ (force_sync false fault w
     = (add_log w [StButton "🔄 Force Sync from Cloud"], inl tt)).
Proof.
  intros out new_data. subst out new_data. unfold force_sync.
  rewrite !bind_run. unfold button. rewrite !bind_run, emit_run.
  cbn [mret M_ret]. rewrite refresh_run.
  cbn [fst snd heap session sheet log add_log data form_id refreshed
       last_cloud_timestamp].
  split; [done|]. split; [done|]. split; [|split; [|split; [|split; [|split]]]].
  - eexists. split; [by rewrite <- !app_assoc|].
    intros d. rewrite !elem_of_app.
    pose proof (loaded_no_update fault (sheet w) d).
    rewrite !elem_of_cons, elem_of_nil. intuition discriminate.
  - apply lookup_insert_eq.
  - done.
  - intros Hf.
    assert ((loaded fault (sheet w)).1 = empty_frame schema) as ->.
    { unfold loaded. destruct fault; [done|].
      destruct Hf as [?| ->]; done. }
    done.
  - intros -> He c Hc. unfold loaded. rewrite He, Hc. cbn [fst].
    split; [done|].
    destruct (clean_dataframe_Ok_columns _ _ Hc) as [HD HT].
    rewrite clean_dataframe_rows in Hc by done. injection Hc as <-.
    assert (df_empty (mkDf (clean_columns (columns (sheet w)))
                           (clean_row (columns (sheet w)) <$> rows (sheet w)))
            = false) as ->.
    { unfold df_empty in *. cbn [rows columns].
      destruct (rows (sheet w)); [done|]. cbn [fmap list_fmap].
      assert ("LastUpdated" ∈ clean_columns (columns (sheet w))) as HL
        by (apply elem_of_clean_columns; by right).
      destruct (clean_columns (columns (sheet w)));
        [by apply elem_of_nil in HL|done]. }
    unfold has_column. cbn [columns].
    rewrite bool_decide_eq_true_2 by (apply elem_of_clean_columns; by right).
    done.
  - done.
Qed.

Lemma add_booking_accepted df frame limit name c_id d t_str notes env w :
  heap w !! df = Some frame → name ≠ "" → slot_free frame limit d t_str →
  add_booking_submit df limit name c_id d t_str notes env w
  = match save_with_conflict_detection env
            (with_booking frame name c_id d t_str notes) w with
    | (w', inl _) => (next_form w', inl tt)
    | (w', inr s) => (w', inr s)
    end.
Proof.
  intros Hdf Hname Hfree. unfold add_booking_submit.
  rewrite decide_False by done.
  rewrite bind_run. cbn [deref]. rewrite Hdf. cbn [default from_option id].
  assert ((if 0 <? limit
           then count ← lift (existing_count frame (date_strftime d) t_str);
                if limit <=? count
                then emit (StError (slot_full_message (date_strftime d) t_str
                                      count limit));; mret true
                else mret false
           else mret false) w = (w, inl false)) as Hlim.
  { destruct Hfree as [Hle|(HD & HT & Hlt)].
    - apply Z.ltb_ge in Hle. by rewrite Hle.
    - destruct (0 <? limit); [|done].
      rewrite bind_run, existing_count_spec by done. cbn [lift].
      apply Z.leb_gt in Hlt. run. by rewrite Hlt. }
  rewrite bind_run, Hlim. rewrite bind_run.
  change (pd_concat frame _) with (with_booking frame name c_id d t_str notes).
  destruct (save_with_conflict_detection env _ w) as [w' [[]|s]]; [|done].
  reflexivity.
Qed.

Lemma elem_of_with_booking_columns frame name c_id d t_str notes k :
  k ∈ columns (with_booking frame name c_id d t_str notes)
  ↔ k ∈ columns frame ∨ k ∈ schema.
Proof.
  unfold with_booking, pd_concat. cbn [columns].
  rewrite elem_of_app, list_elem_of_filter.
  destruct (decide (k ∈ columns frame)); tauto.
Qed.

(** X9.  What an accepted booking comes to.  When the subject is chosen,
    the slot is not full and the save reaches its write, the outcome
    depends on the upload alone.  If it works, the run ends in a rerun
    with the form counter as it was; the session holds the normalised old
    rows followed by one new row, stamped, and the sheet their upload
    form; the new row has the subject, the id and the notes as typed
    (emptied if they spell a missing value) and, for a time of
    [TIME_SLOTS], that time.  If the upload fails, the handler returns,
    the sheet and the snapshot are as before and the form counter is one
    more: the form is reset after a failure, not after a success. *)
Theorem booking_form_outcome df frame limit name c_id d t_str notes env w :
  heap w !! df = Some frame → name ≠ "" → slot_free frame limit d t_str →
  reaches_write env w →
  let new_df := with_booking frame name c_id d t_str notes in
  let out := add_booking_submit df limit name c_id d t_str notes env w in
  (update_fault env = None →
     out.2 = inr RerunException
     ∧ form_id (session out.1) = form_id (session w)
     ∧ ∃ c r,
         clean_dataframe new_df = Ok c
         ∧ heap out.1 !! data (session out.1) = Some (stamp (now env) c)
         ∧ sheet out.1 = to_upload (stamp (now env) c)
         ∧ length (rows c) = S (length (rows frame))
         ∧ last (rows c) = Some r
         ∧ get r "Name" = replace_sentinels (CStr name)
         ∧ get r "ID" = replace_sentinels (CStr c_id)
         ∧ get r "Notes" = replace_sentinels (CStr notes)
         ∧ (t_str ∈ TIME_SLOTS → get r "Time" = CStr t_str)
         ∧ (∀ t, to_datetime (date_strftime d) = Some t →
                 get r "Date" = CStr (strftime_ymd t)))
  ∧ (∀ e, update_fault env = Some e →
       out.2 = inl tt
       ∧ form_id (session out.1) = form_id (session w) + 1
       ∧ sheet out.1 = sheet w ∧ heap out.1 = heap w
       ∧ data (session out.1) = data (session w)
       ∧ last_cloud_timestamp (session out.1)
         = last_cloud_timestamp (session w)).
Proof.
  intros Hdf Hname Hfree Hr new_df out. subst out.
  rewrite (add_booking_accepted df frame) by done. fold new_df.
  assert ("Date" ∈ columns new_df) as HD
    by (apply elem_of_with_booking_columns; right; unfold schema;
        rewrite !elem_of_cons; tauto).
  assert ("Time" ∈ columns new_df) as HT
    by (apply elem_of_with_booking_columns; right; unfold schema;
        rewrite !elem_of_cons; tauto).
  assert (∀ k, k ∈ schema → k ∈ columns new_df) as Hschema
    by (intros k Hk; apply elem_of_with_booking_columns; by right).
  split.
  - intros Hu. destruct (save_written env new_df w HD HT Hr Hu) as [pre ->].
    cbn [fst snd]. split; [done|]. split; [done|].
    exists (mkDf (clean_columns (columns new_df))
                 (clean_row (columns new_df) <$> rows new_df)),
           (clean_row (columns new_df) (booking_row name c_id d t_str notes)).
    split; [by apply clean_dataframe_rows|].
    split; [apply lookup_insert_eq|]. split; [done|].
    cbn [rows]. unfold new_df at 2 4, with_booking, pd_concat. cbn [rows].
    split; [by rewrite length_fmap, length_app, Nat.add_1_r|].
    split; [rewrite fmap_app; apply last_snoc|].
    assert (∀ k, k ∈ schema → k ∉ ["Date"; "Time"; "LastUpdated"] →
              get (clean_row (columns new_df)
                     (booking_row name c_id d t_str notes)) k
              = replace_sentinels
                  (astype_str (get (booking_row name c_id d t_str notes) k)))
      as Htext.
    { intros k Hk Hne. rewrite clean_row_get by auto.
      by apply clean_cell_text. }
    split; [apply (Htext "Name"); [unfold schema|]; rewrite !elem_of_cons;
              [tauto|rewrite elem_of_nil; intuition discriminate]|].
    split; [apply (Htext "ID"); [unfold schema|]; rewrite !elem_of_cons;
              [tauto|rewrite elem_of_nil; intuition discriminate]|].
    split; [apply (Htext "Notes"); [unfold schema|]; rewrite !elem_of_cons;
              [tauto|rewrite elem_of_nil; intuition discriminate]|].
    split.
    + intros Hslot. rewrite clean_row_get by done.
      rewrite clean_cell_Time.
      change (get (booking_row name c_id d t_str notes) "Time")
        with (CStr t_str).
      change (astype_str (CStr t_str)) with (CStr t_str).
      by rewrite TIME_SLOTS_normal.
    + intros t Ht. rewrite clean_row_get by done.
      rewrite clean_cell_Date.
      change (get (booking_row name c_id d t_str notes) "Date")
        with (CStr (date_strftime d)).
      change (astype_str (CStr (date_strftime d)))
        with (CStr (date_strftime d)).
      unfold replace_sentinels, date_strftime.
      rewrite day_str_not_sentinel. unfold normalize_date. cbn [to_datetime_with].
      unfold date_strftime in Ht. by rewrite Ht.
  - intros e Hu.
    destruct (save_reaches_write env new_df w Hr) as (pre & -> & _).
    unfold finish. rewrite clean_dataframe_rows, Hu by done. done.
Qed.

Lemma reaches_write_same env w w' :
  last_cloud_timestamp (session w') = last_cloud_timestamp (session w) →
  sheet w' = sheet w →
  reaches_write env w' ↔ reaches_write env w.
Proof. intros Hs Hsh. unfold reaches_write. by rewrite Hs, Hsh. Qed.

(** X10.  The sync that fails and the booking that follows.  A Force Sync
    whose fetch fails leaves an empty snapshot under the old watermark.
    A booking accepted in the next run is then saved as the whole table:
    unless somebody else has written to the sheet since the watermark, the
    sheet is replaced by that one row, whatever it held. *)
Theorem booking_after_failed_sync fault w limit name c_id d t_str notes env :
  fault ≠ None → name ≠ "" →
  let w1 := (force_sync true fault w).1 in
  sheet w1 = sheet w
  ∧ last_cloud_timestamp (session w1) = last_cloud_timestamp (session w)
  ∧ heap w1 !! data (session w1) = Some (empty_frame schema)
  ∧ (reaches_write env w → update_fault env = None →
     let out := add_booking_submit (data (session w1)) limit name c_id d t_str
                                   notes env w1 in
     out.2 = inr RerunException
     ∧ length (rows (sheet out.1)) = 1%nat).
Proof.
  intros Hf Hname w1.
  assert (w1 = mkWorld (<[fresh (dom (heap w)) := empty_frame schema]> (heap w))
                 (mkSession (fresh (dom (heap w)))
                            (last_cloud_timestamp (session w))
                            (form_id (session w)))
                 (sheet w)
                 (log w1)) as Hw1.
  { subst w1. unfold force_sync.
    rewrite !bind_run. unfold button. rewrite !bind_run, emit_run.
    cbn [mret M_ret]. rewrite refresh_run.
    destruct fault as [e|]; [|done]. reflexivity. }
  split; [by rewrite Hw1|]. split; [by rewrite Hw1|].
  split; [rewrite Hw1; apply lookup_insert_eq|].
  intros Hr Hu out. subst out.
  assert (heap w1 !! data (session w1) = Some (empty_frame schema)) as Hdf
    by (rewrite Hw1; apply lookup_insert_eq).
  assert (reaches_write env w1) as Hr1
    by (apply (reaches_write_same env w); [by rewrite Hw1..|done]).
  rewrite (add_booking_accepted _ (empty_frame schema)); [|done|done|].
  - set (new_df := with_booking (empty_frame schema) name c_id d t_str notes).
    assert ("Date" ∈ columns new_df) as HD
      by (apply elem_of_with_booking_columns; right; unfold schema;
          rewrite !elem_of_cons; tauto).
    assert ("Time" ∈ columns new_df) as HT
      by (apply elem_of_with_booking_columns; right; unfold schema;
          rewrite !elem_of_cons; tauto).
    destruct (save_written env new_df w1 HD HT Hr1 Hu) as [pre ->].
    cbn [fst snd]. split; [done|]. reflexivity.
  - destruct (decide (limit ≤ 0)) as [?|Hlim]; [by left|]. right.
    split; [unfold empty_frame, schema; cbn [columns];
            rewrite !elem_of_cons; tauto|].
    split; [unfold empty_frame, schema; cbn [columns];
            rewrite !elem_of_cons; tauto|].
    unfold bookings_at, empty_frame. cbn [rows]. simpl. lia.
Qed.

Lemma frame_map_columns f df : columns (frame_map f df) = columns df.
Proof. by rewrite frame_map_rows. Qed.

Lemma returned_spec out : returned out = true ↔ out.2 = inl tt.
Proof. unfold returned. destruct out as [w [[]|s]]; simpl; split; done. Qed.

Lemma import_run df imp env w :
  "Name" ∈ columns imp →
  let saved := save_with_conflict_detection env
                 (imported (default (empty_frame []) (heap w !! df)) imp) w in
  import_backup df (Ok imp) env w
  = (add_log saved.1
       ((if returned saved then [StSuccess "Imported!"] else [])
          ++ [StError "Invalid CSV"]),
     inl tt).
Proof.
  intros Hname saved. subst saved. unfold import_backup, try_except_all.
  rewrite bind_run. cbn [lift mret M_ret].
  unfold has_column. rewrite frame_map_columns.
  rewrite (bool_decide_eq_true_2 _ Hname).
  rewrite bind_run. cbn [deref]. rewrite bind_run.
  change (pd_concat _ _)
    with (imported (default (empty_frame []) (heap w !! df)) imp).
  destruct (save_with_conflict_detection env _ w) as [w' [[]|s]].
  - rewrite bind_run, emit_run. cbn [fst snd st_rerun raise].
    by rewrite emit_run, add_log_add_log.
  - cbn [fst snd]. by rewrite emit_run.
Qed.

(** X11.  The import never reports success alone.  Its bare [except]
    catches the rerun and the stop that end a save as well as the rerun of
    line 413, so the handler always returns, and whenever the file has a
    Name column the last thing shown is "Invalid CSV", also when the rows
    were written to the sheet.  "Imported!" is shown before it exactly
    when the save returned, that is when its write was reached and failed.
    A file without a Name column changes nothing and shows nothing; a file
    that cannot be read shows "Invalid CSV" alone. *)
Theorem import_always_reports_invalid_csv df read_csv env w :
  let out := import_backup df read_csv env w in
  out.2 = inl tt
  ∧ (∀ e, read_csv = Raise e → out.1 = add_log w [StError "Invalid CSV"])
  ∧ (∀ imp, read_csv = Ok imp → "Name" ∉ columns imp → out.1 = w)
  ∧ (∀ imp, read_csv = Ok imp → "Name" ∈ columns imp →
       let new_df := imported (default (empty_frame []) (heap w !! df)) imp in
       let saved := save_with_conflict_detection env new_df w in
       heap out.1 = heap saved.1 ∧ session out.1 = session saved.1
       ∧ sheet out.1 = sheet saved.1
       ∧ last (log out.1) = Some (StError "Invalid CSV")
       ∧ ∃ shown : bool,
           log out.1
           = log w ++ save_events env new_df w
               ++ (if shown then [StSuccess "Imported!"] else [])
               ++ [StError "Invalid CSV"]
           ∧ (shown = true
              ↔ reaches_write env w ∧ ∃ e, write_raises env new_df e)).
Proof.
  intros out. subst out. destruct read_csv as [imp|e].
  - destruct (decide ("Name" ∈ columns imp)) as [Hn|Hn].
    + rewrite import_run by done. cbn [fst snd].
      split; [done|]. split; [done|]. split; [by intros ? [= <-] ?|].
      intros ? [= <-] _.
      set (saved := save_with_conflict_detection env _ w).
      cbn [heap session sheet log add_log].
      do 3 (split; [done|]).
      split; [by rewrite !app_assoc, last_snoc|].
      exists (returned saved).
      split; [subst saved; by rewrite save_log, <- !app_assoc|].
      rewrite returned_spec. apply save_returns.
    + assert (import_backup df (Ok imp) env w = (w, inl tt)) as ->.
      { unfold import_backup, try_except_all.
        rewrite bind_run. cbn [lift mret M_ret].
        unfold has_column. rewrite frame_map_columns.
        by rewrite (bool_decide_eq_false_2 _ Hn). }
      split; [done|]. split; [done|]. split; [by intros ? [= <-]|].
      by intros ? [= <-].
  - assert (import_backup df (Raise e) env w
            = (add_log w [StError "Invalid CSV"], inl tt)) as ->.
    { unfold import_backup, try_except_all.
      rewrite bind_run. cbn [lift raise]. by rewrite emit_run. }
    split; [done|]. split; [done|]. split; done.
Qed.

Lemma length_itermonthdays fw y m :
  ∃ k : nat, length (itermonthdays fw y m) = (7 * k)%nat ∧ (4 ≤ k ≤ 6)%nat.
Proof.
  unfold itermonthdays. rewrite !length_app, !length_replicate, length_seqZ.
  pose proof (days_in_month_range y m) as Hn.
  set (n := days_in_month y m) in *.
  set (b := (weekday y m 1 - fw) `mod` 7).
  set (a := (fw - weekday y m 1 - n) `mod` 7).
  assert (0 ≤ b < 7) as Hb by (apply Z.mod_pos_bound; lia).
  assert (0 ≤ a < 7) as Ha by (apply Z.mod_pos_bound; lia).
  assert ((b + n + a) `mod` 7 = 0) as Hmod.
  { subst a b. generalize (weekday y m 1). intros day1.
    Z.div_mod_to_equations. lia. }
  exists (Z.to_nat ((b + n + a) / 7)).
  assert (b + n + a = 7 * ((b + n + a) / 7)) as Hdiv.
  { rewrite (Z.div_mod (b + n + a) 7) at 1 by lia. lia. }
  split; lia.
Qed.

Lemma chunks_weeks {A} (k fuel : nat) (l : list A) :
  length l = (7 * k)%nat → (k ≤ fuel)%nat →
  Forall (λ week, length week = 7%nat) (chunks fuel 7 l)
  ∧ length (chunks fuel 7 l) = k.
Proof.
  revert fuel l. induction k as [|k IH]; intros fuel l Hl Hk.
  - destruct l; [|simpl in Hl; lia]. by destruct fuel.
  - destruct fuel as [|fuel]; [lia|]. destruct l as [|x l]; [simpl in Hl; lia|].
    change (chunks (S fuel) 7 (x :: l))
      with (take 7 (x :: l) :: chunks fuel 7 (drop 7 (x :: l))).
    destruct (IH fuel (drop 7 (x :: l))) as [Hall Hlen].
    { rewrite length_drop. lia. }
    { lia. }
    split; [|cbn [length]; by rewrite Hlen].
    constructor; [|done]. rewrite length_take. lia.
Qed.

Lemma chunks_lookup {A} (fuel : nat) (l : list A) (i j : nat) :
  (length l ≤ fuel)%nat → (j < 7)%nat → (7 * i + j < length l)%nat →
  ∃ week, chunks fuel 7 l !! i = Some week ∧ week !! j = l !! (7 * i + j)%nat.
Proof.
  revert fuel l. induction i as [|i IH]; intros fuel l Hfuel Hj Hi.
  - destruct l as [|x l]; [simpl in Hi; lia|].
    destruct fuel as [|fuel]; [simpl in Hfuel; lia|].
    exists (take 7 (x :: l)). split; [done|].
    rewrite lookup_take_lt by done. f_equal.
  - destruct l as [|x l]; [simpl in Hi; lia|].
    destruct fuel as [|fuel]; [simpl in Hfuel; lia|].
    change (chunks (S fuel) 7 (x :: l))
      with (take 7 (x :: l) :: chunks fuel 7 (drop 7 (x :: l))).
    destruct (IH fuel (drop 7 (x :: l))) as (week & Hweek & Hlook).
    { rewrite length_drop. simpl in *. lia. }
    { done. }
    { rewrite length_drop. lia. }
    exists week. split; [done|]. rewrite Hlook, lookup_drop. f_equal. lia.
Qed.

Lemma days_from_civil_day y m d :
  days_from_civil y m d = days_from_civil y m 1 + d - 1.
Proof. unfold days_from_civil. lia. Qed.

Lemma header_of_column wd :
  0 ≤ wd < 7 →
  ["Sun"; "Mon"; "Tue"; "Wed"; "Thu"; "Fri"; "Sat"] !! column_of wd
  = Some (day_abbr wd).
Proof.
  intros Hwd. unfold column_of, day_abbr.
  assert (wd = 0 ∨ wd = 1 ∨ wd = 2 ∨ wd = 3 ∨ wd = 4 ∨ wd = 5 ∨ wd = 6)
    as Hcases by lia.
  destruct Hcases as [->|[->|[->|[->|[->|[->| ->]]]]]]; reflexivity.
Qed.

Lemma weekday_range y m d : 0 ≤ weekday y m d < 7.
Proof. unfold weekday. apply Z.mod_pos_bound. lia. Qed.

Lemma itermonthdays_lookup y m d :
  1 ≤ d ≤ days_in_month y m →
  ∃ i : nat,
    itermonthdays 6 y m !! (7 * i + column_of (weekday y m d))%nat = Some d
    ∧ (7 * i + column_of (weekday y m d) < length (itermonthdays 6 y m))%nat.
Proof.
  intros Hd. unfold itermonthdays.
  set (n := days_in_month y m) in *.
  set (b := (weekday y m 1 - 6) `mod` 7).
  assert (0 ≤ b < 7) as Hb by (apply Z.mod_pos_bound; lia).
  assert (Z.of_nat (column_of (weekday y m d)) = (b + d - 1) `mod` 7) as Hcol.
  { unfold column_of. rewrite Z2Nat.id by (apply Z.mod_pos_bound; lia).
    subst b. unfold weekday. rewrite (days_from_civil_day y m d).
    generalize (days_from_civil y m 1). intros c.
    Z.div_mod_to_equations. lia. }
  exists (Z.to_nat ((b + d - 1) / 7)).
  assert ((7 * Z.to_nat ((b + d - 1) / 7) + column_of (weekday y m d))%nat
          = Z.to_nat (b + d - 1)) as ->.
  { apply Nat2Z.inj. rewrite Nat2Z.inj_add, Nat2Z.inj_mul, Hcol.
    rewrite !Z2Nat.id by (try apply Z.div_pos; lia).
    rewrite (Z.div_mod (b + d - 1) 7) at 3 by lia. lia. }
  split.
  - rewrite lookup_app_r by (rewrite length_replicate; lia).
    rewrite length_replicate.
    rewrite lookup_app_l by (rewrite length_seqZ; lia).
    replace (Z.to_nat (b + d - 1) - Z.to_nat b)%nat with (Z.to_nat (d - 1))
      by lia.
    rewrite lookup_seqZ. lia.
  - rewrite !length_app, !length_replicate, length_seqZ. lia.
Qed.

Lemma monthdayscalendar_lookup y m d :
  1 ≤ d ≤ days_in_month y m →
  ∃ (i : nat) week,
    monthdayscalendar 6 y m !! i = Some week
    ∧ week !! column_of (weekday y m d) = Some d.
Proof.
  intros Hd. destruct (itermonthdays_lookup y m d Hd) as (i & Hi & Hlt).
  destruct (chunks_lookup (length (itermonthdays 6 y m)) (itermonthdays 6 y m)
              i (column_of (weekday y m d))) as (week & Hweek & Hlook);
    [done| |done|].
  - unfold column_of. pose proof (Z.mod_pos_bound (weekday y m d + 1) 7). lia.
  - exists i, week. split; [done|]. by rewrite Hlook.
Qed.

Lemma monthdayscalendar_weeks y m :
  Forall (λ week, length week = 7%nat) (monthdayscalendar 6 y m)
  ∧ (4 ≤ length (monthdayscalendar 6 y m) ≤ 6)%nat.
Proof.
  destruct (length_itermonthdays 6 y m) as (k & Hlen & Hk).
  unfold monthdayscalendar.
  destruct (chunks_weeks k (length (itermonthdays 6 y m)) (itermonthdays 6 y m))
    as [Hall Hn]; [done|lia|].
  split; [done|]. by rewrite Hn.
Qed.

Lemma filter_replicate_zero (n : nat) :
  filter (λ d : Z, d ≠ 0) (replicate n 0) = [].
Proof.
  induction n as [|n IH]; [done|]. cbn [replicate].
  rewrite filter_cons_False by (intros Hne; by apply Hne). exact IH.
Qed.

Lemma filter_all {A} (P : A → Prop) `{∀ x, Decision (P x)} (l : list A) :
  Forall P l → filter P l = l.
Proof.
  induction 1 as [|x l Hx _ IH]; [done|].
  by rewrite filter_cons_True, IH.
Qed.

(** X12.  The layout of a month.  The weeks [monthdayscalendar] gives for
    a week starting on Sunday are complete, seven days each, and there are
    four to six of them; read week after week they hold the days of the
    month once each and in order, padded with zeros; and every day sits in
    the column headed by the name of its weekday. *)
Theorem month_layout y m :
  let weeks := monthdayscalendar 6 y m in
  Forall (λ week, length week = 7%nat) weeks
  ∧ (4 ≤ length weeks ≤ 6)%nat
  ∧ filter (λ d : Z, d ≠ 0) (concat weeks) = seqZ 1 (days_in_month y m)
  ∧ ∀ d, 1 ≤ d ≤ days_in_month y m →
      ∃ (i : nat) week,
        weeks !! i = Some week
        ∧ week !! column_of (weekday y m d) = Some d
        ∧ ["Sun"; "Mon"; "Tue"; "Wed"; "Thu"; "Fri"; "Sat"]
            !! column_of (weekday y m d)
          = Some (day_abbr (weekday y m d)).
Proof.
  intros weeks. subst weeks.
  destruct (monthdayscalendar_weeks y m) as [Hall Hlen].
  split; [done|]. split; [done|]. split.
  - rewrite concat_monthdayscalendar. unfold itermonthdays.
    rewrite !filter_app, !filter_replicate_zero, app_nil_r. cbn [app].
    apply filter_all, Forall_forall. intros d Hd. apply elem_of_seqZ in Hd. lia.
  - intros d Hd. destruct (monthdayscalendar_lookup y m d Hd) as (i & week & ? & ?).
    exists i, week. split; [done|]. split; [done|].
    apply header_of_column, weekday_range.
Qed.

Lemma foldl_max_ge (a : Z) (l : list Z) :
  a ≤ foldl Z.max a l ∧ ∀ x, x ∈ l → x ≤ foldl Z.max a l.
Proof.
  revert a. induction l as [|y l IH]; intros a.
  - split; [done|]. intros x Hx. by apply elem_of_nil in Hx.
  - cbn [foldl]. destruct (IH (Z.max a y)) as [Ha Hl]. split; [lia|].
    intros x [->|Hx]%elem_of_cons; [lia|by apply Hl].
Qed.

Lemma max_entries_ge week c :
  c ∈ week → Z.of_nat (length (day_data c)) ≤ max_entries week.
Proof.
  intros Hc. unfold max_entries, max_list.
  apply (foldl_max_ge 0). apply list_elem_of_fmap. by exists c.
Qed.

Lemma max_entries_nonneg week : 0 ≤ max_entries week.
Proof.
  unfold max_entries, max_list.
  by destruct (foldl_max_ge 0 ((λ c, Z.of_nat (length (day_data c))) <$> week)).
Qed.

Lemma excel_max_h_ge (a : Z) (week : list day_cell) :
  let max_h :=
    foldl (λ h c, if decide (day_data c = []) then h
                  else Z.max h (Z.of_nat (length (excel_lines c)) + 1))
          a week in
  a ≤ max_h
  ∧ ∀ c, c ∈ week → day_data c ≠ [] →
         Z.of_nat (length (day_data c)) + 1 ≤ max_h.
Proof.
  revert a. induction week as [|c' week IH]; intros a.
  - split; [done|]. intros c Hc. by apply elem_of_nil in Hc.
  - cbn [foldl]. cbv zeta in IH.
    destruct (decide (day_data c' = [])) as [Hnil|Hne].
    + destruct (IH a) as [Ha Hl]. split; [done|].
      intros c [->|Hc]%elem_of_cons Hd; [done|by apply Hl].
    + destruct (IH (Z.max a (Z.of_nat (length (excel_lines c')) + 1)))
        as [Ha Hl].
      split; [lia|]. intros c [->|Hc]%elem_of_cons Hd; [|by apply Hl].
      assert (length (excel_lines c') = length (day_data c')) as Hlen
        by (unfold excel_lines; by rewrite length_fmap).
      set (F := foldl _ _ week) in *. lia.
Qed.

Lemma has_char_br s : has_char "010" (br s) = false.
Proof.
  induction s as [|a s IH]; [done|]. cbn [br].
  destruct (decide (a = "010"%char)) as [->|Hne].
  - change ("<br/>" +:+ br s)
      with (String "<" (String "b" (String "r" (String "/"
              (String ">" (br s)))))).
    cbn [has_char]. rewrite IH. reflexivity.
  - cbn [has_char]. by rewrite bool_decide_eq_false_2, IH.
Qed.

Lemma pdf_cell_text_no_line_feed c : has_char "010" (pdf_cell_text c) = false.
Proof.
  unfold pdf_cell_text. destruct (cell_day c =? 0); [done|apply has_char_br].
Qed.

(** X13.  The rendered month.  The PDF table of a month has seven cells in
    every row, the header included, and one height per row; the worksheet
    has seven cells in every week and one height per week.  A week's row
    is tall enough for its fullest day: in the PDF at least 40 points plus
    25 for each booking of any of its days, in the worksheet at least 50
    points and 15 for each line of any of its cells that has bookings, the
    day number counted as one line.  No text of the PDF table holds a line
    feed, whatever the names and times contain: each has become a [<br/>]
    tag. *)
Theorem rendered_rows_fit rs p :
  let g := (p, month_grid rs p) in
  let page := render_pdf_page g in
  let ws := render_worksheet g in
  Forall (λ row, length row = 7%nat) (table_data page)
  ∧ length (row_heights page) = length (table_data page)
  ∧ Forall (λ row, length row = 7%nat) (cell_values ws)
  ∧ length (heights ws) = length (cell_values ws)
  ∧ Forall2 (λ week h,
               40 ≤ h
               ∧ Forall (λ c, 40 + 25 * Z.of_nat (length (day_data c)) ≤ h)
                        week)
            (month_grid rs p) (tail (row_heights page))
  ∧ Forall2 (λ week h,
               50 ≤ h
               ∧ Forall (λ c, day_data c ≠ [] →
                              15 * (Z.of_nat (length (day_data c)) + 1) ≤ h)
                        week)
            (month_grid rs p) (heights ws)
  ∧ Forall (Forall (λ text, has_char "010" text = false)) (table_data page).
Proof.
  intros g page ws. subst g page ws.
  unfold render_pdf_page, render_worksheet.
  cbn [fst snd table_data row_heights cell_values heights tail].
  assert (Forall (λ week : list day_cell, length week = 7%nat)
                 (month_grid rs p)) as Hweeks.
  { unfold month_grid. apply Forall_fmap.
    eapply Forall_impl; [apply monthdayscalendar_weeks|].
    intros week Hweek. simpl. by rewrite length_fmap. }
  split; [|split; [|split; [|split; [|split; [|split]]]]].
  - constructor; [done|]. apply Forall_fmap.
    eapply Forall_impl; [exact Hweeks|].
    intros week Hweek. simpl. by rewrite length_fmap.
  - simpl. by rewrite !length_fmap.
  - apply Forall_fmap. eapply Forall_impl; [exact Hweeks|].
    intros week Hweek. simpl. by rewrite length_fmap.
  - by rewrite !length_fmap.
  - apply Forall2_fmap_r, Forall_Forall2_diag, Forall_forall.
    intros week _. pose proof (max_entries_nonneg week). split; [lia|].
    apply Forall_forall. intros c Hc.
    pose proof (max_entries_ge week c Hc). lia.
  - apply Forall2_fmap_r, Forall_Forall2_diag, Forall_forall.
    intros week _. unfold excel_row_height.
    destruct (excel_max_h_ge 1 week) as [Ha Hl]. cbv zeta in *.
    split; [lia|]. apply Forall_forall. intros c Hc Hd.
    pose proof (Hl c Hc Hd). lia.
  - constructor; [repeat constructor|].
    apply Forall_fmap, Forall_forall. intros week _. simpl.
    apply Forall_fmap, Forall_forall. intros c _. simpl.
    apply pdf_cell_text_no_line_feed.
Qed.

Lemma sheet_name_inj (p q : period) :
  0 ≤ p.2 < 100 → 0 ≤ q.2 < 100 →
  pretty p.1 +:+ "-" +:+ pad2 p.2 = pretty q.1 +:+ "-" +:+ pad2 q.2 →
  p = q.
Proof.
  destruct p as [y m], q as [y' m']. cbn [fst snd]. intros Hm Hm' Heq.
  destruct (pad2_range m Hm) as [Lm _]. destruct (pad2_range m' Hm') as [Lm' _].
  apply string_app_inj_suffix in Heq as [Hy Hrest].
  2: { change ("-" +:+ ?s) with (String "-" s). simpl. lia. }
  apply (inj pretty) in Hy.
  change (String "-" (pad2 m) = String "-" (pad2 m')) in Hrest.
  injection Hrest as Hrest. f_equal; [done|]. by apply pad2_inj.
Qed.

(** X14.  One worksheet per month.  The worksheets of the workbook carry
    pairwise distinct names, one per month that has a parsed booking, so
    that no [create_sheet] meets a name already taken; and there are as
    many worksheets as pages in the PDF.  This rests on the parser
    returning real dates. *)
Theorem worksheet_names_distinct df df' :
  parses_valid_dates →
  with_dt df = Ok df' →
  let sheets := render_worksheet <$> excel_grids df' in
  let pages := render_pdf_page <$> pdf_grids df' in
  NoDup (sheet_name <$> sheets)
  ∧ length sheets = length pages
  ∧ sheet_name <$> sheets
    = (λ p : period, pretty p.1 +:+ "-" +:+ pad2 p.2)
        <$> months_of (dt_column (with_index df')).
Proof.
  intros Hvalid Hdt sheets pages. subst sheets pages.
  apply with_dt_Ok in Hdt as (_ & _ & Hadded).
  rewrite excel_grids_eq, pdf_grids_eq. unfold grids_of.
  rewrite <- !list_fmap_compose.
  split; [|split; [by rewrite !length_fmap|done]].
  apply NoDup_fmap_2_strong; [|apply months_of_NoDup].
  intros p q Hp Hq Heq. simpl in Heq.
  pose proof (months_valid df df' Hvalid Hadded) as Hm.
  rewrite Forall_forall in Hm.
  apply sheet_name_inj; auto.
Qed.

Lemma export_tab_run df df' w :
  heap w !! data (session w) = Some df → df_empty df = false →
  with_dt df = Ok df' →
  (export_tab w).1
  = mkWorld (<[data (session w) := df']> (heap w)) (session w) (sheet w) (log w).
Proof.
  intros Hl Hne Hdt. unfold export_tab.
  rewrite bind_run. cbn [get_session].
  rewrite bind_run. cbn [deref]. rewrite Hl. cbn [default from_option id].
  rewrite Hne.
  rewrite bind_run, (generate_visual_pdf_run _ _ _ _ Hl Hdt).
  rewrite bind_run.
  rewrite (generate_visual_excel_run (data (session w)) df' df');
    [|cbn [heap]; apply lookup_insert_eq|by apply (with_dt_again df)].
  cbn [fst heap session sheet log mret M_ret]. by rewrite insert_insert_eq.
Qed.

(** X15.  The helper column reaches the sheet.  The exporters add [dt] to
    the session's own frame, and the next accepted booking is appended to
    that frame: once it is saved, the sheet has a [dt] column, which is not
    one of the six schema columns, and every row holds a text in it. *)
Theorem dt_column_reaches_the_sheet df df' limit name c_id d t_str notes env w :
  heap w !! data (session w) = Some df → df_empty df = false →
  with_dt df = Ok df' →
  let w1 := (export_tab w).1 in
  name ≠ "" → slot_free df' limit d t_str →
  reaches_write env w1 → update_fault env = None →
  let out := add_booking_submit (data (session w1)) limit name c_id d t_str
                                notes env w1 in
  out.2 = inr RerunException
  ∧ "dt" ∈ columns (sheet out.1) ∧ ("dt" ∉ schema)
  ∧ Forall (λ r : gmap string cell, text_form (get r "dt")) (rows (sheet out.1)).
Proof.
  intros Hl Hne Hdt w1 Hname Hfree Hr Hu out. subst out.
  assert (w1 = mkWorld (<[data (session w) := df']> (heap w)) (session w)
                       (sheet w) (log w)) as Hw1 by by apply (export_tab_run df).
  assert (heap w1 !! data (session w1) = Some df') as Hdf
    by (rewrite Hw1; apply lookup_insert_eq).
  rewrite (add_booking_accepted _ df') by done.
  set (new_df := with_booking df' name c_id d t_str notes).
  assert ("Date" ∈ columns new_df) as HD
    by (apply elem_of_with_booking_columns; right; unfold schema;
        rewrite !elem_of_cons; tauto).
  assert ("Time" ∈ columns new_df) as HT
    by (apply elem_of_with_booking_columns; right; unfold schema;
        rewrite !elem_of_cons; tauto).
  assert ("dt" ∈ columns new_df) as Hdtcol.
  { apply elem_of_with_booking_columns. left.
    apply with_dt_Ok in Hdt as (_ & _ & Hcols & _). rewrite Hcols.
    unfold has_column. case_bool_decide; [done|].
    apply elem_of_app. right. by left. }
  destruct (save_written env new_df w1 HD HT Hr Hu) as [pre ->].
  cbn [fst snd]. split; [done|].
  change (sheet (written env ?c ?w)) with (to_upload (stamp (now env) c)).
  rewrite to_upload_stamp_eq
    by (cbn [columns]; apply elem_of_clean_columns; by right).
  cbn [columns rows]. split; [apply elem_of_clean_columns; by left|].
  split.
  { unfold schema. rewrite !elem_of_cons, elem_of_nil.
    intros [?|[?|[?|[?|[?|[?|?]]]]]]; done. }
  rewrite <- list_fmap_compose. apply Forall_fmap, Forall_forall.
  intros r _. simpl. rewrite get_insert_ne by done.
  rewrite clean_row_get by done. apply clean_cell_text.
  rewrite !elem_of_cons, elem_of_nil. intros [?|[?|[?|?]]]; done.
Qed.

Lemma date_form_str x : date_form x → ∃ s, x = CStr s.
Proof. intros [->|(s & t & _ & ->)]; eauto. Qed.

Lemma time_form_str x : time_form x → ∃ s, x = CStr s.
Proof. intros [->|(h & m & _ & _ & ->)]; eauto. Qed.

Lemma event_of_normal df e :
  "Date" ∈ columns df → "Time" ∈ columns df →
  "Name" ∈ columns df → "ID" ∈ columns df → "Notes" ∈ columns df →
  date_form (get e.2 "Date") → time_form (get e.2 "Time") →
  event_of df e
  = Ok (if decide (get e.2 "Date" ≠ CStr "" ∧ get e.2 "Time" ≠ CStr "")
        then Some (event_for e) else None).
Proof.
  intros HD HT HN HI HO Hd Ht. unfold event_of, row_getitem, has_column.
  rewrite !bool_decide_eq_true_2 by done.
  destruct (date_form_str _ Hd) as [sd Hsd].
  destruct (time_form_str _ Ht) as [st Hst].
  unfold event_for. rewrite Hsd, Hst.
  cbn [mbind Result_bind truth and_then str].
  destruct (decide (sd = "")) as [->|Hnd].
  - rewrite bool_decide_eq_false_2 by (by intros ?).
    rewrite decide_False by (by intros [? _]). done.
  - rewrite (bool_decide_eq_true_2 (sd ≠ "")) by done.
    cbn [mbind Result_bind].
    destruct (decide (st = "")) as [->|Hnt].
    + rewrite bool_decide_eq_false_2 by (by intros ?).
      rewrite decide_False by (by intros [_ ?]). done.
    + rewrite (bool_decide_eq_true_2 (st ≠ "")) by done.
      cbn [mbind Result_bind].
      rewrite !bool_decide_eq_true_2
        by (destruct sd, st; simpl; try done; lia).
      cbn [mbind Result_bind].
      rewrite decide_True by (split; congruence). done.
Qed.

Lemma mapM_event_of df (es : list entry) :
  "Date" ∈ columns df → "Time" ∈ columns df →
  "Name" ∈ columns df → "ID" ∈ columns df → "Notes" ∈ columns df →
  Forall (λ e : entry, date_form (get e.2 "Date") ∧ time_form (get e.2 "Time"))
         es →
  ∃ evs, mapM (event_of df) es = Ok evs
         ∧ omap id evs
           = event_for
               <$> filter (λ e : entry, get e.2 "Date" ≠ CStr ""
                                        ∧ get e.2 "Time" ≠ CStr "") es.
Proof.
  intros HD HT HN HI HO Hes.
  exists ((λ e : entry,
             if decide (get e.2 "Date" ≠ CStr "" ∧ get e.2 "Time" ≠ CStr "")
             then Some (event_for e) else None) <$> es).
  split.
  - apply mapM_Ok. apply Forall2_fmap_r, Forall_Forall2_diag.
    eapply Forall_impl; [exact Hes|]. intros e [Hd Ht]. simpl.
    by apply event_of_normal.
  - clear Hes. induction es as [|e es IH]; [done|].
    cbn [fmap list_fmap]. rewrite omap_cons_eq.
    destruct (decide (get e.2 "Date" ≠ CStr "" ∧ get e.2 "Time" ≠ CStr ""))
      as [Hv|Hv].
    + rewrite filter_cons_True by done. cbn [id fmap list_fmap].
      f_equal. exact IH.
    + rewrite filter_cons_False by done. exact IH.
Qed.

Lemma Forall_with_index (P : gmap string cell → Prop) df :
  Forall P (rows df) → Forall (λ e : entry, P e.2) (with_index df).
Proof.
  intros Hall. apply Forall_forall. intros [i r] Hin.
  apply elem_of_with_index in Hin. rewrite Forall_forall in Hall.
  apply Hall. by eapply list_elem_of_lookup_2.
Qed.

(** X16.  The events of the calendar view.  For a table with the five
    columns the view reads, rows, and Date and Time in normal form, the
    view builds one event for every row that has both a date and a time,
    in the order of the rows, and none for the others; an event carries
    its row's position as id, so ids are distinct, and its start is the
    ISO text of the date, a [T] and the [HH:MM] time. *)
Theorem calendar_events_of_snapshot df :
  "Date" ∈ columns df → "Time" ∈ columns df →
  "Name" ∈ columns df → "ID" ∈ columns df → "Notes" ∈ columns df →
  rows df ≠ [] → normal_dates df →
  let evs := event_for <$> visible_rows df in
  calendar_tab df = Ok (Some evs)
  ∧ NoDup (ev_id <$> evs)
  ∧ Forall (λ ev, ∃ s t h m,
              to_datetime s = Some t ∧ 0 ≤ h ≤ 23 ∧ 0 ≤ m ≤ 59
              ∧ ev_start ev = strftime_ymd t +:+ "T" +:+ hm h m) evs.
Proof.
  intros HD HT HN HI HO Hne Hnorm evs. subst evs.
  split; [|split].
  - unfold calendar_tab. rewrite df_empty_false; [|done|].
    2: { intros Hnil. rewrite Hnil in HD. by apply elem_of_nil in HD. }
    destruct (mapM_event_of df (with_index df)) as (evs & -> & Hevs);
      try done.
    { by apply (Forall_with_index
                  (λ r, date_form (get r "Date") ∧ time_form (get r "Time"))). }
    cbn [mbind Result_bind]. by rewrite Hevs.
  - rewrite <- list_fmap_compose.
    assert (∀ l : list entry, ev_id ∘ event_for <$> l = pretty <$> l.*1) as ->
      by (intros l; by rewrite <- list_fmap_compose).
    apply NoDup_fmap_2; [apply _|].
    apply NoDup_fst_filter, NoDup_with_index.
  - apply Forall_fmap, Forall_forall. intros [i r] Hin.
    apply list_elem_of_filter in Hin as [[Hd Ht] Hin]. cbn [snd] in *.
    apply elem_of_with_index in Hin.
    unfold normal_dates in Hnorm. rewrite Forall_forall in Hnorm.
    destruct (Hnorm r) as [Hdf Htf]; [by eapply list_elem_of_lookup_2|].
    destruct Hdf as [?|(s & t & Hs & Hdate)]; [done|].
    destruct Htf as [?|(h & m & Hh & Hm & Htime)]; [done|].
    exists s, t, h, m. simpl. by rewrite Hdate, Htime.
Qed.

Lemma strptime_HM_hm h m :
  0 ≤ h ≤ 23 → 0 ≤ m ≤ 59 →
  strptime_HM (hm h m) = Some (mkTs 1900 1 1 h m 0 0 None).
Proof.
  intros Hh Hm. unfold hm.
  destruct (digits_range h ltac:(lia)) as (Hch & _ & Hph & _).
  destruct (digits_range m ltac:(lia)) as (Hcm & _ & Hpm & _).
  destruct (strptime_two_parts (pad2 h) (pad2 m)) as [_ ->]; [done..|].
  rewrite Hph, Hpm. cbn [mbind option_bind]. unfold time_of_day.
  assert ((h <=? 23) = true) as -> by lia.
  assert ((m <=? 59) = true) as -> by lia. done.
Qed.

Lemma grid_date_cell x :
  date_roundtrip → date_form x →
  out_text strftime_ymd (dt_date (to_datetime_with to_datetime x)) = x.
Proof.
  intros Hrt [->|(s & t & Hs & ->)].
  - reflexivity.
  - destruct (Hrt _ _ Hs) as (t' & Ht' & Heq).
    cbn [to_datetime_with]. rewrite Ht'. cbn [dt_date].
    unfold out_text. cbn [notna has_strftime andb dt_strftime].
    by rewrite <- Heq.
Qed.

Lemma grid_time_cell x :
  time_form x →
  out_text strftime_HM (dt_time (to_datetime_with strptime_HM x)) = x.
Proof.
  intros [->|(h & m & Hh & Hm & ->)].
  - reflexivity.
  - cbn [to_datetime_with]. rewrite strptime_HM_hm by done. reflexivity.
Qed.

Lemma get_Some_str r k s : get r k = CStr s → r !! k = Some (CStr s).
Proof. unfold get. destruct (r !! k); simpl; congruence. Qed.

Lemma grid_row r :
  date_roundtrip →
  date_form (get r "Date") → time_form (get r "Time") →
  let r1 := <["Date" := dt_date (to_datetime_with to_datetime (get r "Date"))]> r in
  let r2 := <["Time" := dt_time (to_datetime_with strptime_HM (get r1 "Time"))]> r1 in
  let r3 := <["Date" := out_text strftime_ymd (get r2 "Date")]> r2 in
  <["Time" := out_text strftime_HM (get r3 "Time")]> r3 = r.
Proof.
  intros Hrt Hd Ht r1 r2 r3. subst r1 r2 r3.
  repeat (rewrite get_insert_eq || rewrite get_insert_ne by done).
  rewrite grid_date_cell, grid_time_cell by done.
  destruct (date_form_str _ Hd) as [sd Hsd].
  destruct (time_form_str _ Ht) as [st Hst].
  apply map_eq. intros k.
  destruct (decide (k = "Time")) as [->|HkT].
  { rewrite lookup_insert_eq. symmetry. rewrite Hst. by apply get_Some_str. }
  rewrite lookup_insert_ne by done.
  destruct (decide (k = "Date")) as [->|HkD].
  { rewrite lookup_insert_eq. symmetry. rewrite Hsd. by apply get_Some_str. }
  by rewrite !lookup_insert_ne by done.
Qed.

Lemma grid_frame df :
  date_roundtrip →
  "Date" ∈ columns df → "Time" ∈ columns df → normal_dates df →
  ∃ e, edit_in df = Ok e ∧ clean_out e = Ok df.
Proof.
  intros Hrt HD HT Hnorm. unfold edit_in, clean_out, assign_from_column.
  unfold has_column. rewrite (bool_decide_eq_true_2 _ HD).
  cbn [mbind Result_bind col_map columns].
  rewrite (bool_decide_eq_true_2 _ HT). eexists. split; [done|].
  cbn [col_map columns rows]. rewrite (bool_decide_eq_true_2 _ HD).
  cbn [mbind Result_bind col_map columns rows].
  rewrite (bool_decide_eq_true_2 _ HT). f_equal.
  destruct df as [cs rs]. cbn [columns rows] in *.
  unfold col_map. cbn [columns rows]. f_equal.
  rewrite <- !list_fmap_compose.
  rewrite <- (list_fmap_id rs) at 2. apply Forall_fmap_ext.
  eapply Forall_impl; [exact Hnorm|]. intros r [Hd Ht]. simpl.
  by apply grid_row.
Qed.

Lemma normal_dates_clean cs rs :
  "Date" ∈ cs → "Time" ∈ cs →
  normal_dates (mkDf (clean_columns cs) (clean_row cs <$> rs)).
Proof.
  intros HD HT. unfold normal_dates. cbn [rows].
  apply Forall_fmap, Forall_forall. intros r _. simpl.
  destruct (clean_row_normal cs r HD HT) as (? & ? & _). done.
Qed.

Lemma normal_dates_stamp t c : normal_dates c → normal_dates (stamp t c).
Proof.
  unfold normal_dates, stamp, set_scalar. cbn [rows]. intros Hn.
  apply Forall_fmap. eapply Forall_impl; [exact Hn|].
  intros r Hr. simpl. by rewrite !get_insert_ne.
Qed.

(** X17.  The edit grid gives back what it was given.  For a normalised
    table, and for the stamped one a save leaves in the session, turning
    Date and Time into date and time objects for the editor and back into
    text for the save returns the very same table.  A save of an untouched
    grid therefore uploads the rows of the snapshot.  This rests on the
    parser reading back the [%Y-%m-%d] text of a date. *)
Theorem grid_round_trip df c t :
  date_roundtrip →
  clean_dataframe df = Ok c →
  (∃ e, edit_in c = Ok e ∧ clean_out e = Ok c
        ∧ ∀ env w,
            save_changes true e env w
            = save_with_conflict_detection env c
                (add_log w [StButton "💾 Save Changes to Cloud"]))
  ∧ (∃ e, edit_in (stamp t c) = Ok e ∧ clean_out e = Ok (stamp t c)).
Proof.
  intros Hrt Hc. destruct (clean_dataframe_Ok_columns _ _ Hc) as [HD HT].
  rewrite clean_dataframe_rows in Hc by done. injection Hc as <-.
  pose proof (normal_dates_clean (columns df) (rows df) HD HT) as Hn.
  assert ("Date" ∈ clean_columns (columns df)) as HD'
    by (apply elem_of_clean_columns; by left).
  assert ("Time" ∈ clean_columns (columns df)) as HT'
    by (apply elem_of_clean_columns; by left).
  split.
  - destruct (grid_frame (mkDf (clean_columns (columns df))
                               (clean_row (columns df) <$> rows df))
                Hrt HD' HT' Hn) as (e & He & Hout).
    exists e. split; [done|]. split; [done|]. intros env w.
    unfold save_changes.
    rewrite bind_run. unfold button. rewrite bind_run, emit_run.
    cbn [mret M_ret]. rewrite bind_run, Hout. reflexivity.
  - apply grid_frame; [done| | |by apply normal_dates_stamp].
    + rewrite stamp_eq by (cbn [columns]; apply elem_of_clean_columns; by right).
      done.
    + rewrite stamp_eq by (cbn [columns]; apply elem_of_clean_columns; by right).
      done.
Qed.

(** X18.  The workbook lists what the PDF drops.  A booking whose date and
    time do not parse together is in no cell of the PDF; but when its Date
    is the text of a day of a month that has a sheet, the workbook lists it
    in the cell of that day. *)
Theorem workbook_lists_unparsed_bookings df df' i r p d :
  with_dt df = Ok df' →
  rows df !! i = Some r →
  combined_dt r = Ok CNaT →
  get r "Date" = CStr (day_str p.1 p.2 d) →
  1 ≤ d ≤ days_in_month p.1 p.2 →
  p ∈ (excel_grids df').*1 →
  in_cell (excel_grids df') p d i
  ∧ i ∉ shown (pdf_grids df').
Proof.
  intros Hdt Hr Hc Hdate Hd Hp.
  apply with_dt_Ok in Hdt as (_ & _ & Hadd).
  rewrite excel_grids_eq in Hp |- *. rewrite grids_of_fst in Hp.
  rewrite pdf_grids_eq.
  destruct (dt_added_lookup _ _ _ _ Hadd Hr) as (c & Hc' & Hr').
  rewrite Hc in Hc'. injection Hc' as <-.
  split.
  - apply (in_cell_grids _ _ _ _ _ (<["dt" := CNaT]> r)); try done.
    + by apply elem_of_with_index.
    + by rewrite get_insert_ne.
  - intros Hin.
    apply shown_grids_inv in Hin as (p' & d' & r' & _ & _ & Hkept & _).
    apply list_elem_of_filter in Hkept as [Hnotna Hr''].
    apply elem_of_with_index in Hr''. rewrite Hr' in Hr''.
    injection Hr'' as <-. cbn [snd] in Hnotna.
    rewrite get_insert_eq in Hnotna. done.
Qed.

Lemma initialize_run fault w :
  let new_data := (loaded fault (sheet w)).1 in
  let l := fresh (dom (heap w)) in
  initialize_session true fault w
  = (mkWorld (<[l := new_data]> (heap w))
             (mkSession l (remote_max fault (sheet w)) 0)
             (sheet w)
             (log w ++ (loaded fault (sheet w)).2),
     inl tt).
Proof.
  intros new_data l. unfold initialize_session.
  rewrite bind_run, load_run. rewrite bind_run. reflexivity.
Qed.

Lemma remote_max_not_newer fault fault' remote :
  ¬ remote_is_newer (remote_max fault remote) (remote_max fault' remote).
Proof.
  intros (u & c & Hu & Hc & Hlt).
  destruct fault; [done|]. destruct fault'; [done|].
  rewrite Hu in Hc. injection Hc as <-. lia.
Qed.

(** X19.  How a session starts.  On later runs [initialize_session] does
    nothing: no fetch, no change.  On the first run it fetches once, keeps
    the table in a new frame, sets the form counter to 0 and the watermark
    to the newest stamp of the table, so that a save finds nothing newer
    in the sheet it started from.  When the fetch fails or the sheet is
    empty, the session starts with the empty table and no watermark, and
    from then on, as long as the session is not replaced, every save goes
    to its write without a conflict check, whatever the sheet holds by
    then. *)
Theorem session_start fault w :
  initialize_session false fault w = (w, inl tt)
  ∧ let out := initialize_session true fault w in
    out.2 = inl tt
    ∧ sheet out.1 = sheet w
    ∧ log out.1 = log w ++ (loaded fault (sheet w)).2
    ∧ heap out.1 !! data (session out.1) = Some (loaded fault (sheet w)).1
    ∧ form_id (session out.1) = 0
    ∧ last_cloud_timestamp (session out.1) = remote_max fault (sheet w)
    ∧ (∀ env, reaches_write env out.1)
    ∧ (fault ≠ None ∨ df_empty (sheet w) = true →
       heap out.1 !! data (session out.1) = Some (empty_frame schema)
       ∧ last_cloud_timestamp (session out.1) = None
       ∧ ∀ env new_df w',
           session w' = session out.1 →
           reaches_write env w'
           ∧ (StError conflict_message ∉ save_events env new_df w')).
Proof.
  split; [done|]. intros out. subst out. rewrite initialize_run.
  cbn [fst snd heap session sheet log data form_id last_cloud_timestamp].
  split; [done|]. split; [done|]. split; [done|].
  split; [apply lookup_insert_eq|]. split; [done|]. split; [done|].
  split.
  - intros env. left. cbn [session sheet last_cloud_timestamp].
    apply remote_max_not_newer.
  - intros Hf.
    assert (loaded fault (sheet w) = (empty_frame schema, (loaded fault (sheet w)).2))
      as Hl.
    { unfold loaded. destruct fault; [done|].
      destruct Hf as [?| ->]; done. }
    assert (remote_max fault (sheet w) = None) as Hm.
    { unfold remote_max. by rewrite Hl. }
    rewrite Hm. split; [rewrite Hl; apply lookup_insert_eq|]. split; [done|].
    intros env new_df w' Hs.
    assert (¬ remote_is_newer (last_cloud_timestamp (session w'))
                              (remote_max (read_fault env) (sheet w'))) as Hn.
    { rewrite Hs. cbn [last_cloud_timestamp]. by intros (? & ? & ? & _). }
    split; [by left|]. by apply no_prompt_without_conflict.
Qed.

Lemma string_compare_app (a a' s s' : string) :
  String.length a = String.length a' →
  String.compare (a +:+ s) (a' +:+ s')
  = match String.compare a a' with
    | Eq => String.compare s s'
    | c => c
    end.
Proof.
  revert a'. induction a as [|x a IH]; intros [|x' a'] Hlen; try done.
  change (String.compare (String x (a +:+ s)) (String x' (a' +:+ s'))
          = match String.compare (String x a) (String x' a') with
            | Eq => String.compare s s'
            | c => c
            end).
  cbn [String.compare]. destruct (Ascii.compare x x'); [|done..].
  apply IH. simpl in Hlen. lia.
Qed.

Lemma pad2_ordered_all :
  forallb (λ a, forallb (pad2_ordered a) (seqZ 0 60)) (seqZ 0 60) = true.
Proof. vm_compute. reflexivity. Qed.

Lemma pad2_compare a b :
  0 ≤ a < 60 → 0 ≤ b < 60 →
  String.compare (pad2 a) (pad2 b) = Z.compare a b.
Proof.
  intros Ha Hb. pose proof pad2_ordered_all as Hall.
  rewrite forallb_forall in Hall.
  assert (a ∈ seqZ 0 60) as Hain by (apply elem_of_seqZ; lia).
  apply list_elem_of_In, Hall in Hain. rewrite forallb_forall in Hain.
  assert (b ∈ seqZ 0 60) as Hbin by (apply elem_of_seqZ; lia).
  apply list_elem_of_In, Hain in Hbin. by apply bool_decide_eq_true in Hbin.
Qed.

Lemma hm_compare h m h' m' :
  0 ≤ h ≤ 23 → 0 ≤ m ≤ 59 → 0 ≤ h' ≤ 23 → 0 ≤ m' ≤ 59 →
  String.compare (hm h m) (hm h' m')
  = match Z.compare h h' with Eq => Z.compare m m' | c => c end.
Proof.
  intros Hh Hm Hh' Hm'. unfold hm.
  destruct (pad2_range h ltac:(lia)) as [Lh _].
  destruct (pad2_range h' ltac:(lia)) as [Lh' _].
  rewrite string_compare_app by congruence.
  rewrite pad2_compare by lia. destruct (h ?= h'); [|done..].
  change (":" +:+ ?s) with (String ":" s). cbn [String.compare].
  change (Ascii.compare ":" ":") with Eq. apply pad2_compare; lia.
Qed.

Lemma hm_le h m h' m' :
  0 ≤ h ≤ 23 → 0 ≤ m ≤ 59 → 0 ≤ h' ≤ 23 → 0 ≤ m' ≤ 59 →
  (hm h m ≤ hm h' m')%string ↔ h * 60 + m ≤ h' * 60 + m'.
Proof.
  intros Hh Hm Hh' Hm'. unfold String.le, String.leb.
  rewrite hm_compare by done.
  destruct (Z.compare_spec h h') as [->|Hlt|Hgt].
  - destruct (Z.compare_spec m m'); simpl; split; try done; lia.
  - simpl. split; [lia|done].
  - simpl. split; [done|lia].
Qed.

Lemma time_le_not_after a b : time_le a b → not_after a b.
Proof.
  unfold time_le, not_after. intros Hle h m h' m' Hh Hm Hh' Hm' Ha Hb.
  rewrite Ha, Hb in Hle. simpl in Hle. by apply hm_le in Hle.
Qed.

#[global] Instance sort_le_trans : Transitive sort_le.
Proof.
  intros [x| | | | |] [y| | | | |] [z| | | | |]; simpl; try done.
  apply (transitivity (R := String.le)).
Qed.

#[global] Instance time_le_trans : Transitive time_le.
Proof. intros a b c. unfold time_le. apply transitivity. Qed.

Lemma day_data_of_chronological rs ds :
  StronglySorted not_after (day_data_of rs ds).
Proof.
  assert (StronglySorted time_le (day_data_of rs ds)) as Hs
    by apply (StronglySorted_merge_sort _).
  induction Hs as [|a l _ IH Hall]; constructor; [done|].
  eapply Forall_impl; [exact Hall|]. intros b. apply time_le_not_after.
Qed.

Lemma grids_chronological rs months :
  Forall (λ g : period * list (list day_cell),
            Forall (Forall (λ c, StronglySorted not_after (day_data c))) g.2)
         (grids_of rs months).
Proof.
  unfold grids_of. apply Forall_fmap, Forall_true. intros p. simpl.
  unfold month_grid. apply Forall_fmap, Forall_true. intros week. simpl.
  apply Forall_fmap, Forall_true. intros d. simpl.
  destruct (d =? 0); [constructor|apply day_data_of_chronological].
Qed.

(** X20.  The bookings of a day are listed in the order of the clock.  In
    every cell of every page and of every worksheet, of two bookings whose
    Time is in [HH:MM] form the one listed first is not the later one: the
    text order [sort_values('Time')] uses agrees with the order of the
    times. *)
Theorem cells_are_chronological df :
  Forall (λ g : period * list (list day_cell),
            Forall (Forall (λ c, StronglySorted not_after (day_data c))) g.2)
         (pdf_grids df)
  ∧ Forall (λ g : period * list (list day_cell),
              Forall (Forall (λ c, StronglySorted not_after (day_data c))) g.2)
           (excel_grids df)
  ∧ ∀ h m h' m',
      0 ≤ h ≤ 23 → 0 ≤ m ≤ 59 → 0 ≤ h' ≤ 23 → 0 ≤ m' ≤ 59 →
      (hm h m ≤ hm h' m')%string ↔ h * 60 + m ≤ h' * 60 + m'.
Proof.
  rewrite pdf_grids_eq, excel_grids_eq.
  split; [apply grids_chronological|].
  split; [apply grids_chronological|]. apply hm_le.
Qed.








End Properties.

(* ================================================================== *)
(** * The model at work on the sample data                           *)
(* ================================================================== *)

Ltac by_compute :=
  match goal with
  | |- ?P => apply (@bool_decide_unpack P _); vm_compute; exact I
  end.

Lemma table_lookup_in (table : list (string * Timestamp)) s t :
  (λ e : nat * (string * Timestamp), e.2.2)
    <$> list_find (λ e, e.1 = s) table = Some t →
  t ∈ table.*2.
Proof.
  intros Hp. destruct (list_find _ table) as [[i [s' t']]|] eqn:Hf; [|done].
  injection Hp as <-. apply list_find_Some in Hf as (Hi & _ & _).
  apply list_elem_of_fmap. exists (s', t'). split; [done|].
  by eapply list_elem_of_lookup_2.
Qed.

Lemma excerpt_parse_in s t : excerpt_parse s = Some t → t ∈ excerpt.*2.
Proof. apply table_lookup_in. Qed.

Lemma excerpt_to_datetime_in s t :
  @to_datetime excerpt_pandas s = Some t → t ∈ excerpt.*2.
Proof.
  unfold to_datetime. case_bool_decide; [done|]. apply excerpt_parse_in.
Qed.

Lemma excerpt_law_all : forallb excerpt_law excerpt.*2 = true.
Proof. vm_compute. reflexivity. Qed.

Lemma excerpt_law_at s t :
  @to_datetime excerpt_pandas s = Some t → excerpt_law t = true.
Proof.
  intros Hin%excerpt_to_datetime_in. pose proof excerpt_law_all as Hall.
  rewrite forallb_forall in Hall. by apply Hall, list_elem_of_In.
Qed.

Lemma excerpt_date_roundtrip : @date_roundtrip excerpt_pandas.
Proof.
  intros s t Ht. apply excerpt_law_at in Ht. unfold excerpt_law in Ht.
  apply andb_prop in Ht as [[_ Hd]%andb_prop _].
  destruct (to_datetime (strftime_ymd t)) as [t'|]; [|done].
  exists t'. split; [done|]. by apply bool_decide_eq_true in Hd.
Qed.


Lemma excerpt_parses_valid_dates : @parses_valid_dates excerpt_pandas.
Proof.
  intros s t Ht. apply excerpt_law_at in Ht. unfold excerpt_law in Ht.
  apply andb_prop in Ht as [_ Hv]. by apply bool_decide_eq_true in Hv.
Qed.

Lemma conflict_needs_resolution_witness :
  let w := sample_world (Some eleven) in
  let out := @save_with_conflict_detection excerpt_pandas (quiet noon)
               sample_snapshot w in
  out.2 = inr StopException ∧ session out.1 = session w
  ∧ sheet out.1 = sheet w.
Proof.
  intros w out.
  assert (@remote_is_newer (last_cloud_timestamp (session w))
            (@remote_max excerpt_pandas (read_fault (quiet noon)) (sheet w)))
    as Hnew.
  { exists eleven, noon. split; [reflexivity|]. split; [|vm_compute; reflexivity].
    vm_compute. reflexivity. }
  destruct (@conflict_needs_resolution excerpt_pandas (quiet noon)
              sample_snapshot w Hnew) as (_ & _ & Hstop).
  destruct (Hstop eq_refl eq_refl) as (Hctl & _ & Hsess & Hsheet & _).
  split; [exact Hctl|]. split; [exact Hsess|exact Hsheet].
Defined.

Lemma successful_save_stamps_once_witness :
  let w := sample_world (Some noon) in
  let out := @save_with_conflict_detection excerpt_pandas (quiet noon)
               sample_snapshot w in
  out.2 = inr RerunException
  ∧ last_cloud_timestamp (session out.1) = Some noon
  ∧ Forall (λ r : gmap string cell,
              r !! "LastUpdated" = Some (CStr "2024-01-05 12:00:00"))
           (rows (sheet out.1)).
Proof.
  intros w out.
  assert (@reaches_write excerpt_pandas (quiet noon) w) as Hreach.
  { left. intros Hn%conflict_spec. vm_compute in Hn. discriminate. }
  assert ("Date" ∈ columns sample_snapshot) as HD
    by (by_compute).
  assert ("Time" ∈ columns sample_snapshot) as HT
    by (by_compute).
  destruct (@successful_save_stamps_once excerpt_pandas (quiet noon)
              sample_snapshot w HD HT Hreach eq_refl)
    as (c & _ & Hrerun & _ & _ & Hmark & _ & _ & Hrows).
  split; [exact Hrerun|]. split; [exact Hmark|]. exact Hrows.
Defined.


Lemma full_slot_is_rejected_witness :
  ∃ msg,
    @add_booking_submit excerpt_pandas 1%positive 1 "Maths" "3C"
      (mkDate 2024 1 5) "09:00" "" (quiet noon) (sample_world (Some noon))
    = (mkWorld (heap (sample_world (Some noon)))
               (session (sample_world (Some noon)))
               (sheet (sample_world (Some noon))) [StError msg], inl tt).
Proof.
  destruct (@full_slot_is_rejected excerpt_pandas 1%positive sample_snapshot 1
              "Maths" "3C" (mkDate 2024 1 5) "09:00" "" (quiet noon)
              (sample_world (Some noon)))
    as (msg & Hrun & _).
  - vm_compute. reflexivity.
  - by_compute.
  - by_compute.
  - lia.
  - vm_compute. discriminate.
  - exists msg. exact Hrun.
Defined.

Lemma with_dt_sample_snapshot :
  @with_dt excerpt_pandas sample_snapshot = Ok (after_with_dt sample_snapshot).
Proof. vm_compute. reflexivity. Qed.


Lemma stamps_follow_the_clock_witness :
  @stamps_monotone (@history excerpt_pandas sample_sheet [first_save; second_save]).
Proof.
  apply (@stamps_follow_the_clock excerpt_pandas sample_sheet
           [first_save; second_save]).
  repeat constructor. vm_compute. discriminate.
Defined.

Lemma exporters_add_dt_in_place_witness :
  let w := sample_world (Some noon) in
  heap (@export_tab excerpt_pandas w).1
    !! data (session (@export_tab excerpt_pandas w).1)
  = Some (after_with_dt sample_snapshot)
  ∧ "dt" ∈ columns (after_with_dt sample_snapshot)
  ∧ after_with_dt sample_snapshot ≠ sample_snapshot.
Proof.
  intros w.
  destruct (@exporters_add_dt_in_place excerpt_pandas 1%positive
              sample_snapshot (after_with_dt sample_snapshot) w)
    as (_ & _ & Hdt & _ & Hchanged & Htab).
  - vm_compute. reflexivity.
  - exact with_dt_sample_snapshot.
  - split; [|split; [exact Hdt|]].
    + apply (Htab eq_refl eq_refl).
    + apply Hchanged. by_compute.
Defined.



(** The workbook lists a booking whose Time does not parse, next to one of
    the same day that does: [generate_visual_excel] has no [dropna]. *)
Lemma unparsed_booking_in_workbook :
  ¬ @no_unparsed_booking_in_workbook excerpt_pandas.
Proof.
  intros Hclaim.
  specialize (Hclaim bad_time_frame (after_with_dt bad_time_frame) 1%nat
                     (booking "Physics" "3B" "2024-01-05" "abc" "" CNaT) CNaT).
  assert (shown (@excel_grids (after_with_dt bad_time_frame)) = [0%nat; 1%nat])
    as Hboth by (vm_compute; reflexivity).
  rewrite Hboth in Hclaim. apply Hclaim; try (vm_compute; reflexivity).
  right. by left.
Qed.

(** C9.  Two saves of one session, the clock of the second an hour behind:
    the sheet is stamped 12:00 and then 11:00. *)
Lemma stamps_can_go_back : ¬ @stamps_always_monotone excerpt_pandas.
Proof.
  intros Hclaim.
  specialize (Hclaim sample_sheet [first_save; second_save_clock_back]).
  assert ((@history excerpt_pandas sample_sheet
             [first_save; second_save_clock_back]).*1 = [noon; eleven]) as Hstamps
    by (vm_compute; reflexivity).
  unfold stamps_monotone in Hclaim.
  apply (StronglySorted_fmap fst _ not_later) in Hclaim; [|done].
  rewrite Hstamps in Hclaim.
  apply StronglySorted_inv in Hclaim as [_ Hle].
  apply Forall_cons in Hle as [Hle _]. vm_compute in Hle. by apply Hle.
Qed.

Lemma clean_sample_sheet :
  @clean_dataframe excerpt_pandas sample_sheet = Ok (cleaned sample_sheet).
Proof. vm_compute. reflexivity. Qed.

Lemma with_dt_bad_time_frame :
  @with_dt excerpt_pandas bad_time_frame = Ok (after_with_dt bad_time_frame).
Proof. vm_compute. reflexivity. Qed.

Lemma sample_reaches_write :
  @reaches_write excerpt_pandas (quiet noon) (sample_world (Some noon)).
Proof. left. intros Hn%conflict_spec. vm_compute in Hn. discriminate. Qed.

Lemma sample_columns :
  "Date" ∈ columns sample_snapshot ∧ "Time" ∈ columns sample_snapshot
  ∧ "Name" ∈ columns sample_snapshot ∧ "ID" ∈ columns sample_snapshot
  ∧ "Notes" ∈ columns sample_snapshot.
Proof. repeat split; by_compute. Qed.

Lemma excerpt_reads_noon : @reads_stamp excerpt_pandas noon.
Proof.
  intros t' Ht. vm_compute in Ht. injection Ht as <-. vm_compute. discriminate.
Qed.

Lemma clean_dataframe_normal_form_witness :
  length (rows (cleaned sample_sheet)) = length (rows sample_sheet)
  ∧ Forall (@normal_row excerpt_pandas (columns sample_sheet))
           (rows (cleaned sample_sheet)).
Proof.
  destruct (@clean_dataframe_normal_form excerpt_pandas sample_sheet
              (cleaned sample_sheet) clean_sample_sheet)
    as (_ & _ & Hlen & Hrows & _).
  split; [exact Hlen|exact Hrows].
Defined.

Lemma normalize_time_formats_witness :
  normalize_time (CStr (pad2 9 +:+ ":" +:+ pad2 5 +:+ ":" +:+ "00"))
  = CStr (hm 9 5)
  ∧ normalize_time (CStr (pad2 9 +:+ ":" +:+ pad2 5 +:+ ":" +:+ pad2 30))
    = CNaN.
Proof.
  pose proof (normalize_time_formats 9 5 ltac:(lia) ltac:(lia)) as Hw.
  cbv zeta in Hw. destruct Hw as (_ & Hzero & _ & Hsec).
  split; [exact Hzero|]. apply (Hsec 30). lia.
Defined.

Lemma no_conflict_with_own_write_witness :
  let w1 := (@save_with_conflict_detection excerpt_pandas (quiet noon)
               sample_snapshot (sample_world (Some noon))).1 in
  @reaches_write excerpt_pandas (quiet eleven) w1.
Proof.
  intros w1. destruct sample_columns as (HD & HT & _).
  destruct (@no_conflict_with_own_write excerpt_pandas (quiet noon)
              sample_snapshot (sample_world (Some noon)) (quiet eleven)
              sample_snapshot HD HT sample_reaches_write eq_refl
              excerpt_reads_noon)
    as (_ & Hreach & _).
  exact Hreach.
Defined.

Lemma save_then_load_witness :
  let w1 := (@save_with_conflict_detection excerpt_pandas (quiet noon)
               sample_snapshot (sample_world (Some noon))).1 in
  ∃ c, @clean_dataframe excerpt_pandas sample_snapshot = Ok c
       ∧ heap w1 !! data (session w1) = Some (stamp noon c)
       ∧ (@load_data_from_google excerpt_pandas None w1).2
         = inl (stamp noon c).
Proof.
  destruct sample_columns as (HD & HT & _).
  apply (@save_then_load excerpt_pandas (quiet noon) sample_snapshot
           (sample_world (Some noon)) noon HD HT).
  - discriminate.
  - exact sample_reaches_write.
  - reflexivity.
  - exact excerpt_date_roundtrip.
  - vm_compute. reflexivity.
Defined.

Lemma caption_shows_last_save_witness :
  let w1 := (@save_with_conflict_detection excerpt_pandas (quiet noon)
               sample_snapshot (sample_world (Some noon))).1 in
  ∃ snapshot,
    heap w1 !! data (session w1) = Some snapshot
    ∧ last_updated_caption snapshot
      = Some ("📅 Last Updated: " +:+ strftime_ymd_HMS noon)
    ∧ Forall (λ r : gmap string cell,
                r !! "LastUpdated" = Some (CStr (strftime_ymd_HMS noon)))
             (rows (sheet w1)).
Proof.
  destruct sample_columns as (HD & HT & _).
  apply (@caption_shows_last_save excerpt_pandas (quiet noon) sample_snapshot
           (sample_world (Some noon)) HD HT).
  - discriminate.
  - exact sample_reaches_write.
  - reflexivity.
Defined.

Lemma reload_drops_the_candidate_witness :
  let w := sample_world (Some eleven) in
  let out := @save_with_conflict_detection excerpt_pandas (reloading noon)
               sample_snapshot w in
  out.2 = inr RerunException ∧ sheet out.1 = sheet w
  ∧ data (session out.1) ∉ dom (heap w).
Proof.
  intros w out.
  assert (@remote_is_newer (last_cloud_timestamp (session w))
            (@remote_max excerpt_pandas (read_fault (reloading noon)) (sheet w)))
    as Hnew.
  { exists eleven, noon. split; [reflexivity|]. split; [|vm_compute; reflexivity].
    vm_compute. reflexivity. }
  destruct (@reload_drops_the_candidate excerpt_pandas (reloading noon)
              sample_snapshot w Hnew eq_refl)
    as (Hrerun & Hsheet & _ & _ & _ & Hnew_frame & _).
  split; [exact Hrerun|]. split; [exact Hsheet|exact Hnew_frame].
Defined.

Lemma booking_form_outcome_witness :
  let w := sample_world (Some noon) in
  let out := @add_booking_submit excerpt_pandas 1%positive 0 "Maths" "3C"
               (mkDate 2024 2 10) "09:00" "" (quiet noon) w in
  out.2 = inr RerunException
  ∧ form_id (session out.1) = form_id (session w).
Proof.
  intros w out.
  destruct (@booking_form_outcome excerpt_pandas 1%positive sample_snapshot 0
              "Maths" "3C" (mkDate 2024 2 10) "09:00" "" (quiet noon) w)
    as [Hok _].
  - vm_compute. reflexivity.
  - discriminate.
  - left. lia.
  - exact sample_reaches_write.
  - destruct (Hok eq_refl) as (Hrerun & Hform & _).
    split; [exact Hrerun|exact Hform].
Defined.

Lemma booking_after_failed_sync_witness :
  let w := sample_world (Some noon) in
  let w1 := (@force_sync excerpt_pandas true (Some "503") w).1 in
  let out := @add_booking_submit excerpt_pandas (data (session w1)) 0 "Maths"
               "3C" (mkDate 2024 2 10) "09:00" "" (quiet noon) w1 in
  length (rows (sheet w)) = 2%nat ∧ length (rows (sheet out.1)) = 1%nat.
Proof.
  intros w w1 out. split; [reflexivity|].
  destruct (@booking_after_failed_sync excerpt_pandas (Some "503") w 0 "Maths"
              "3C" (mkDate 2024 2 10) "09:00" "" (quiet noon))
    as (_ & _ & _ & Hsave).
  - discriminate.
  - discriminate.
  - destruct (Hsave sample_reaches_write eq_refl) as [_ Hone]. exact Hone.
Defined.

Lemma worksheet_names_distinct_witness :
  NoDup (sheet_name
           <$> (@render_worksheet excerpt_pandas
                  <$> @excel_grids (after_with_dt sample_snapshot))).
Proof.
  destruct (@worksheet_names_distinct excerpt_pandas sample_snapshot
              (after_with_dt sample_snapshot) excerpt_parses_valid_dates
              with_dt_sample_snapshot)
    as (Hnames & _).
  exact Hnames.
Defined.

Lemma dt_column_reaches_the_sheet_witness :
  let w1 := (@export_tab excerpt_pandas (sample_world (Some noon))).1 in
  let out := @add_booking_submit excerpt_pandas (data (session w1)) 0 "Maths"
               "3C" (mkDate 2024 2 10) "09:00" "" (quiet noon) w1 in
  "dt" ∈ columns (sheet out.1) ∧ ("dt" ∉ schema).
Proof.
  intros w1 out.
  destruct (@dt_column_reaches_the_sheet excerpt_pandas sample_snapshot
              (after_with_dt sample_snapshot) 0 "Maths" "3C"
              (mkDate 2024 2 10) "09:00" "" (quiet noon)
              (sample_world (Some noon)))
    as (_ & Hin & Hout & _).
  - vm_compute. reflexivity.
  - vm_compute. reflexivity.
  - exact with_dt_sample_snapshot.
  - discriminate.
  - left. lia.
  - left. intros Hn%conflict_spec. vm_compute in Hn. discriminate.
  - reflexivity.
  - split; [exact Hin|exact Hout].
Defined.

Lemma sample_normal_dates : @normal_dates excerpt_pandas sample_snapshot.
Proof.
  unfold normal_dates, sample_snapshot. cbn [rows].
  apply Forall_cons. split; [|apply Forall_cons; split; [|apply Forall_nil_2]].
  - split.
    + right. exists "2024-01-05", (ts 2024 1 5 0 0).
      split; vm_compute; reflexivity.
    + right. exists 9, 0. split; [lia|]. split; [lia|]. vm_compute. reflexivity.
  - split.
    + right. exists "2024-02-10", (ts 2024 2 10 0 0).
      split; vm_compute; reflexivity.
    + right. exists 10, 30. split; [lia|]. split; [lia|]. vm_compute. reflexivity.
Qed.

Lemma calendar_events_of_snapshot_witness :
  @calendar_tab excerpt_pandas sample_snapshot
  = Ok (Some (@event_for excerpt_pandas <$> visible_rows sample_snapshot))
  ∧ NoDup (ev_id <$> (@event_for excerpt_pandas <$> visible_rows sample_snapshot)).
Proof.
  destruct sample_columns as (HD & HT & HN & HI & HO).
  destruct (@calendar_events_of_snapshot excerpt_pandas sample_snapshot
              HD HT HN HI HO)
    as (Htab & Hids & _).
  - discriminate.
  - exact sample_normal_dates.
  - split; [exact Htab|exact Hids].
Defined.

Lemma grid_round_trip_witness :
  ∃ e, @edit_in excerpt_pandas (cleaned sample_sheet) = Ok e
       ∧ @clean_out excerpt_pandas e = Ok (cleaned sample_sheet).
Proof.
  destruct (@grid_round_trip excerpt_pandas sample_sheet (cleaned sample_sheet)
              noon excerpt_date_roundtrip clean_sample_sheet)
    as [(e & Hin & Hout & _) _].
  exists e. split; [exact Hin|exact Hout].
Defined.

Lemma workbook_lists_unparsed_bookings_witness :
  in_cell (@excel_grids (after_with_dt bad_time_frame)) (2024, 1) 5 1
  ∧ 1%nat ∉ shown (@pdf_grids (after_with_dt bad_time_frame)).
Proof.
  apply (@workbook_lists_unparsed_bookings excerpt_pandas bad_time_frame
           (after_with_dt bad_time_frame) 1%nat
           (booking "Physics" "3B" "2024-01-05" "abc" "" CNaT) (2024, 1) 5).
  - exact with_dt_bad_time_frame.
  - reflexivity.
  - vm_compute. reflexivity.
  - vm_compute. reflexivity.
  - vm_compute. split; discriminate.
  - by_compute.
Defined.
